(** * odbc_result: batched inserts and growable fetches between R tables and ODBC

    A shallow embedding of [src/odbc_result.h] (namespace [odbconnect], class
    [odbc_result]) and the properties its specification states about it.

    The embedding keeps the shape of the class:
    - the member buffers [strings_], [times_] and [nulls_] are finite maps
      from the column number to a vector;
    - everything sent to the driver through the connection (transaction,
      statements, parameter bindings, batch executions, commit) is recorded
      as a trace of events, in program order;
    - [Rcpp::stop] raises an exception, modelled by the [Stop] outcome;
    - [Rcpp::warning] is recorded with its format and its arguments;
    - the result cursor is a forward-only list of pending rows;
    - where the source has no defined behaviour (a [short] column counter
      past [2 ^ 15] columns, [as_timestamp] of a value [localtime] has no
      calendar time for) the embedding gives a value that stands for none,
      and the statements that a call returns or that tell what it binds
      carry the premises [short_columns] and [temporal_ok]. *)

From Stdlib Require Import ZArith QArith.
From stdpp Require Import base option list gmap strings.
From Equations Require Import Equations.

Local Open Scope string_scope.
Local Open Scope list_scope.
Local Open Scope Z_scope.

(* ===================================================================== *)
(** ** R values *)
(* ===================================================================== *)

Module R.

(** A [double] as R sees it.  [NA_REAL] is the NaN whose payload marks a
    missing value, [NaN] stands for every other NaN.  Finite values are
    kept as exact rationals: rounding of binary64 arithmetic is not part
    of this model. *)
Inductive double : Type :=
| NA_REAL
| NaN
| Inf (negative : bool)
| Fin (q : Q).

(** [ISNA]: true for R's missing value only, false for other NaNs. *)
Definition ISNA (d : double) : bool :=
  match d with NA_REAL => true | _ => false end.

(** [x * c] and [x / c] for a positive integer constant [c], as used with
    [seconds_in_day_].  A NaN operand is propagated with its payload, the
    rule R's own arithmetic on [NA_real_] relies on.  The product and the
    quotient of finite values are the exact ones; binary64 arithmetic rounds
    them, so the product is the one of the source where the exact product is
    itself a binary64 value ([exact_mul_const] below), and statements about
    the values [bind_date] binds carry that as a premise. *)
Definition mul_const (d : double) (c : Z) : double :=
  match d with
  | Fin q => Fin (q * inject_Z c)
  | other => other
  end.

(** Whether a rational is a binary64 value: [m * 2 ^ e] with
    [|m| < 2 ^ 53] and [-1074 <= e <= 971]. *)
Definition binary64 (q : Q) : bool :=
  let r := Qred q in
  let n := Z.abs (Qnum r) in
  let d := Z.pos (Qden r) in
  let j := Z.log2 d in
  let k := Z.max 0 (Z.log2 n - 52) in
  (2 ^ j =? d) && (j <=? 1074) && (n mod 2 ^ k =? 0) && (k <=? 971).

(** Whether [x * c] is computed without rounding, so that [mul_const] gives
    what the multiplication of the source gives. *)
Definition exact_mul_const (d : double) (c : Z) : bool :=
  match d with
  | Fin q => binary64 (q * inject_Z c)
  | _ => true
  end.

Definition div_const (d : double) (c : Z) : double :=
  match d with
  | Fin q => Fin (q / inject_Z c)
  | other => other
  end.

(** [x + y]; with two NaN operands the left one is propagated. *)
Definition add (x y : double) : double :=
  match x, y with
  | NA_REAL, _ => NA_REAL
  | NaN, _ => NaN
  | _, NA_REAL => NA_REAL
  | _, NaN => NaN
  | Inf a, Inf b => if Bool.eqb a b then Inf a else NaN
  | Inf a, Fin _ => Inf a
  | Fin _, Inf b => Inf b
  | Fin p, Fin q => Fin (p + q)
  end.

(** [modf(value, &value)]: the pair (fractional part, integral part), both
    with the sign of the argument. *)
Definition modf (d : double) : double * double :=
  match d with
  | Fin q =>
      let ip := Z.quot (Qnum q) (Z.pos (Qden q)) in
      (Fin (q - inject_Z ip), Fin (inject_Z ip))
  | Inf s => (Fin 0, Inf s)
  | other => (other, other)
  end.

(** [NA_INTEGER] is [INT_MIN], outside the range of R's integers. *)
Definition NA_INTEGER : Z := -2147483648.

(** A [CHARSXP]: the missing string or a text. *)
Inductive CHARSXP : Type :=
| NA_STRING
| mkChar (s : string).

(** [Rf_translateCharUTF8]: the text of the element; the missing string
    reads as the two characters NA.  Re-encoding is the identity here. *)
Definition Rf_translateCharUTF8 (x : CHARSXP) : string :=
  match x with
  | NA_STRING => "NA"
  | mkChar s => s
  end.

(** The payload of a vector, tagged by its [TYPEOF].  [OTHERSXP] stands
    for every type [column_types] has no case for (complex, list, ...). *)
Inductive SEXP : Type :=
| LGLSXP (v : list (option bool))
| INTSXP (v : list Z)
| REALSXP (v : list double)
| STRSXP (v : list CHARSXP)
| RAWSXP (v : list Z)
| OTHERSXP (type2char : string).

(** An R object: payload and class attribute. *)
Record RObject : Type := mkRObject {
  payload : SEXP;
  class : list string
}.

Definition inherits (x : RObject) (what : string) : bool :=
  bool_decide (what ∈ class x).

Definition INTEGER (x : RObject) : list Z :=
  match payload x with INTSXP v => v | _ => [] end.

Definition REAL (x : RObject) : list double :=
  match payload x with REALSXP v => v | _ => [] end.

Definition STRING (x : RObject) : list CHARSXP :=
  match payload x with STRSXP v => v | _ => [] end.

Definition LENGTH (x : RObject) : nat :=
  match payload x with
  | LGLSXP v => length v
  | INTSXP v => length v
  | REALSXP v => length v
  | STRSXP v => length v
  | RAWSXP v => length v
  | OTHERSXP _ => 0%nat
  end.

(** [Rcpp::DataFrame]: the columns and the row count of the [row.names]
    attribute, which is what [nrows()] reads. *)
Record DataFrame : Type := mkDataFrame {
  columns : list RObject;
  nrows : nat
}.

(** In a data frame every column has [nrows] elements. *)
Definition well_formed (df : DataFrame) : Prop :=
  Forall (fun x => LENGTH x = nrows df) (columns df).

#[global] Instance double_inhabited : Inhabited double := populate NA_REAL.
#[global] Instance CHARSXP_inhabited : Inhabited CHARSXP := populate NA_STRING.
#[global] Instance RObject_inhabited : Inhabited RObject :=
  populate (mkRObject (OTHERSXP "NULL") []).

End R.

(** The vectors the materializer allocates and fills ([Rf_allocVector],
    [Rf_lengthgets]) and the list it returns. *)
Module Rf.

Inductive SEXPTYPE : Type := LGLSXP | INTSXP | REALSXP | STRSXP | VECSXP.

(** One element of such a vector.  [Rf_allocVector] leaves the elements of
    a logical, integer or real vector unset. *)
Inductive element : Type :=
| unset
| logical_NA
| integer (z : Z)
| real (d : R.double)
| character (x : R.CHARSXP)
| R_NilValue.

Record vector : Type := mk_vector {
  TYPEOF : SEXPTYPE;
  elements : list element;
  class : list string
}.

(** What a fresh element holds, and what [Rf_lengthgets] pads with. *)
Definition fresh (t : SEXPTYPE) : element :=
  match t with
  | STRSXP => character (R.mkChar "")
  | VECSXP => R_NilValue
  | _ => unset
  end.

Definition padding (t : SEXPTYPE) : element :=
  match t with
  | LGLSXP => logical_NA
  | INTSXP => integer R.NA_INTEGER
  | REALSXP => real R.NA_REAL
  | STRSXP => character R.NA_STRING
  | VECSXP => R_NilValue
  end.

(** [Rf_allocVector(type, n)] *)
Definition allocVector (t : SEXPTYPE) (n : Z) : vector :=
  mk_vector t (replicate (Z.to_nat n) (fresh t)) [].

(** [Rf_lengthgets(x, n)]: the first [n] elements, padded with the missing
    value of the type when [n] is larger than the length. *)
Definition lengthgets (x : vector) (n : Z) : vector :=
  mk_vector (TYPEOF x)
    (take (Z.to_nat n) (elements x)
     ++ replicate (Z.to_nat n - length (elements x)) (padding (TYPEOF x)))
    [].

(** [x.attr("class") = ...] *)
Definition set_class (cls : list string) (x : vector) : vector :=
  mk_vector (TYPEOF x) (elements x) cls.

(** [INTEGER(x)[i] = e], [REAL(x)[i] = e] and [SET_STRING_ELT(x, i, e)]. *)
Definition store (i : Z) (e : element) (x : vector) : vector :=
  mk_vector (TYPEOF x) (<[Z.to_nat i := e]> (elements x)) (class x).

(** An [Rcpp::List] with the attributes of a data frame; [row_names] is
    the [n] of the compact form [c(NA, -n)]. *)
Record List : Type := mk_List {
  columns : list vector;
  names : list string;
  class_attr : string;
  row_names : Z
}.

#[global] Instance vector_inhabited : Inhabited vector :=
  populate (mk_vector VECSXP [] []).

End Rf.

(** Modelled from the spec: the enumeration [r_type] of [r_types.h], which
    is included by the source but is not part of it.  The specification
    lists the closed set Integer, Double, String, Date, DateTime, Raw and
    Logical; the constructor names are the ones the source switches on. *)
Inductive r_type : Type :=
| logical_t
| integer_t
| double_t
| string_t
| raw_t
| date_t
| datetime_t.

#[global] Instance r_type_eq_dec : EqDecision r_type.
Proof. solve_decision. Defined.

#[global] Instance r_type_inhabited : Inhabited r_type := populate string_t.

(* ===================================================================== *)
(** ** The nanodbc interface *)
(* ===================================================================== *)

Module nanodbc.

(** Modelled from the spec: [nanodbc::timestamp], declared in [nanodbc.h].
    A calendar time: year, month (1-based), day, hour, minute, second and
    a fractional-second field, without a time zone. *)
Record timestamp : Type := mk_timestamp {
  year : Z;
  month : Z;
  day : Z;
  hour : Z;
  min : Z;
  sec : Z;
  fract : R.double
}.

(** An element of a [std::vector<nanodbc::timestamp>]: a local
    [nanodbc::timestamp ts;] is not initialised, and stays so until a
    value is assigned to it. *)
Inductive slot : Type :=
| uninitialised
| assigned (ts : timestamp).

(** The ODBC type codes [column_datatype] reports; [SQL_other] stands for
    a code outside the ones the source names. *)
Inductive datatype : Type :=
| SQL_BIT | SQL_TINYINT | SQL_SMALLINT | SQL_INTEGER | SQL_BIGINT
| SQL_DOUBLE | SQL_FLOAT | SQL_DECIMAL | SQL_REAL | SQL_NUMERIC
| SQL_DATE | SQL_TYPE_DATE
| SQL_TIME | SQL_TIMESTAMP | SQL_TYPE_TIMESTAMP | SQL_TYPE_TIME
| SQL_CHAR | SQL_WCHAR | SQL_VARCHAR | SQL_WVARCHAR
| SQL_LONGVARCHAR | SQL_WLONGVARCHAR
| SQL_BINARY | SQL_VARBINARY | SQL_LONGVARBINARY
| SQL_other (code : Z).

(** One cell of the current row.  [indicator] is what the length/indicator
    buffer says now ([true] for [SQL_NULL_DATA]); [null_data] is what
    [SQLGetData] finds when the value is retrieved.  For a bound column
    the two agree; for a column the driver leaves unbound the indicator
    is only right after the retrieval (the source's comment on SQL Server
    and (n)varchar(max)).  The [get_*] fields are the typed views
    [get<T>] converts the value to. *)
Record cell : Type := mk_cell {
  indicator : bool;
  null_data : bool;
  get_int : Z;
  get_double : R.double;
  get_timestamp : timestamp;
  get_string : string
}.

Definition null_cell : cell :=
  mk_cell true true 0 R.NA_REAL (mk_timestamp 0 0 0 0 0 0 (R.Fin 0)) "".

#[global] Instance cell_inhabited : Inhabited cell := populate null_cell.

(** What one access to the current row does. *)
Inductive access : Type :=
| acc_is_null (column : nat)
| acc_get (column : nat).

(** The current row of the cursor: its cells and the accesses made to it
    so far, oldest first. *)
Record row : Type := mk_row {
  cells : list cell;
  accesses : list access
}.

Definition accessed (vals : row) (a : access) : row :=
  mk_row (cells vals) (accesses vals ++ [a]).

(** [vals.is_null(col)]: the indicator as it is now. *)
Definition is_null (vals : row) (column : nat) : bool * row :=
  (indicator (cells vals !!! column), accessed vals (acc_is_null column)).

(** [vals.get<int>(col, fallback)] and [vals.get<double>(col, fallback)]:
    the fallback when the indicator is set, the converted value
    otherwise. *)
Definition get_int_or (vals : row) (column : nat) (fallback : Z) : Z * row :=
  let c := cells vals !!! column in
  (if indicator c then fallback else get_int c,
   accessed vals (acc_get column)).

Definition get_double_or (vals : row) (column : nat) (fallback : R.double)
  : R.double * row :=
  let c := cells vals !!! column in
  (if indicator c then fallback else get_double c,
   accessed vals (acc_get column)).

(** Retrieving a value calls [SQLGetData], which records the null status
    it finds in the indicator of that cell.  (nanodbc throws
    [null_access_error] when the indicator is already set; every such
    call in the source is guarded by [is_null], so that path is not
    modelled.) *)
Definition retrieved (c : cell) : cell :=
  mk_cell (null_data c) (null_data c) (get_int c) (get_double c)
          (get_timestamp c) (get_string c).

(** [vals.get<nanodbc::timestamp>(col)] and [vals.get<std::string>(col)]:
    the value and the row after the retrieval. *)
Definition get_timestamp_at (vals : row) (column : nat) : timestamp * row :=
  (get_timestamp (cells vals !!! column),
   mk_row (alter retrieved column (cells vals))
          (accesses vals ++ [acc_get column])).

Definition get_string_at (vals : row) (column : nat) : string * row :=
  (get_string (cells vals !!! column),
   mk_row (alter retrieved column (cells vals))
          (accesses vals ++ [acc_get column])).

(** [nanodbc::result]: the column metadata and the forward-only cursor.
    [pending] holds the rows not yet fetched, [position] counts the rows
    the cursor has been advanced over. *)
Record result : Type := mk_result {
  metadata : list (string * datatype);
  pending : list row;
  position : nat
}.

Definition columns (r : result) : nat := length (metadata r).

End nanodbc.

(** [struct tm], the fields the codec reads and writes. *)
Record tm : Type := mk_tm {
  tm_sec : Z;
  tm_min : Z;
  tm_hour : Z;
  tm_mday : Z;
  tm_mon : Z;
  tm_year : Z;
  tm_isdst : Z
}.

(* ===================================================================== *)
(** ** The class [odbc_result] *)
(* ===================================================================== *)

(** An argument passed to [Rcpp::warning] after the format: the ODBC type
    code of a column, a semantic type, or a text. *)
Inductive format_arg : Type :=
| arg_datatype (type : nanodbc.datatype)
| arg_r_type (t : r_type)
| arg_string (s : string).

(** What the object sends through its connection [c_], and the calls whose
    order the specification speaks about. *)
Inductive event : Type :=
| EvTransaction                        (* nanodbc::transaction transaction(c_) *)
| EvStatement (sql : string)           (* nanodbc::statement(c_, sql_) *)
| EvBindInteger (column : nat) (values : list Z) (null_sentry : Z)
| EvBindDouble (column : nat) (values : list R.double) (nulls : list bool)
| EvBindStrings (column : nat) (values : list string) (nulls : list bool)
| EvBindTimestamps (column : nat) (values : list nanodbc.slot)
                   (elements : nat) (nulls : list bool)
| EvExecuteBatch (batch_operations : nat)  (* nanodbc::execute(s, size) *)
| EvCommit                                 (* transaction.commit() *)
| EvExecute (sql : string)                 (* s_.execute() *)
| EvCreate (n : Z)                         (* create_dataframe(..., n) *)
| EvResize (n : Z)                         (* resize_dataframe(out, n) *)
| EvWarning (format : string) (args : list format_arg).
                                           (* Rcpp::warning(format, args...) *)

(** The data members.  [s_] is the prepared statement, represented by its
    text and the result the database answers with when it is executed;
    [r_] is the result, invalid ([None]) until the statement has run. *)
Record odbc_result : Type := mk_odbc_result {
  s_ : nanodbc.result;
  r_ : option nanodbc.result;
  sql_ : string;
  strings_ : gmap nat (list string);
  times_ : gmap nat (list nanodbc.slot);
  nulls_ : gmap nat (list bool)
}.

(** The constructor: [r_] is default-constructed and the buffers are empty. *)
Definition new_odbc_result (answer : nanodbc.result) (sql : string)
  : odbc_result :=
  mk_odbc_result answer None sql ∅ ∅ ∅.

Definition set_r_ (r : option nanodbc.result) (o : odbc_result) : odbc_result :=
  mk_odbc_result (s_ o) r (sql_ o) (strings_ o) (times_ o) (nulls_ o).

Definition set_strings_ (m : gmap nat (list string)) (o : odbc_result)
  : odbc_result :=
  mk_odbc_result (s_ o) (r_ o) (sql_ o) m (times_ o) (nulls_ o).

Definition set_times_ (m : gmap nat (list nanodbc.slot)) (o : odbc_result)
  : odbc_result :=
  mk_odbc_result (s_ o) (r_ o) (sql_ o) (strings_ o) m (nulls_ o).

Definition set_nulls_ (m : gmap nat (list bool)) (o : odbc_result)
  : odbc_result :=
  mk_odbc_result (s_ o) (r_ o) (sql_ o) (strings_ o) (times_ o) m.

(** *** Member functions as computations

    A member function takes the object, and gives an outcome, the object
    afterwards and the events it caused.  An exception keeps the object and
    the events up to the point where it was raised. *)

Inductive outcome (A : Type) : Type :=
| Ok (a : A)
| Stop (msg : string).
Arguments Ok {A} a.
Arguments Stop {A} msg.

Definition M (A : Type) : Type :=
  odbc_result -> outcome A * odbc_result * list event.

Definition ret {A} (a : A) : M A := fun o => (Ok a, o, []).

Definition bind {A B} (m : M A) (k : A -> M B) : M B :=
  fun o =>
    match m o with
    | (Ok a, o1, t1) =>
        match k a o1 with
        | (b, o2, t2) => (b, o2, t1 ++ t2)
        end
    | (Stop msg, o1, t1) => (Stop msg, o1, t1)
    end.

Notation "x <- m ;; k" := (bind m (fun x => k))
  (at level 100, m at next level, right associativity).
Notation "m ;; k" := (bind m (fun _ => k))
  (at level 100, right associativity).

Definition get : M odbc_result := fun o => (Ok o, o, []).
Definition modify (f : odbc_result -> odbc_result) : M unit :=
  fun o => (Ok tt, f o, []).
Definition emit (e : event) : M unit := fun o => (Ok tt, o, [e]).
Definition emit_all (t : list event) : M unit := fun o => (Ok tt, o, t).
Definition stop {A} (msg : string) : M A := fun o => (Stop msg, o, []).

(** [for (i = 0; i < n; ++i) body(i)]. *)
Fixpoint for_each (l : list nat) (body : nat -> M unit) : M unit :=
  match l with
  | [] => ret tt
  | i :: rest => body i ;; for_each rest body
  end.

Definition for_range (n : nat) (body : nat -> M unit) : M unit :=
  for_each (seq 0 n) body.

(* ===================================================================== *)
(** ** Instances for the examples *)
(* ===================================================================== *)

(** The conversions of a process whose time zone is UTC, after the usual
    proleptic Gregorian calendar arithmetic: [gmtime] for [localtime], and
    its inverse for [mktime00]. *)
Module UTC.

Definition civil_from_days (z : Z) : Z * Z * Z :=
  let z := z + 719468 in
  let era := z / 146097 in
  let doe := z - era * 146097 in
  let yoe := (doe - doe / 1460 + doe / 36524 - doe / 146096) / 365 in
  let doy := doe - (365 * yoe + yoe / 4 - yoe / 100) in
  let mp := (5 * doy + 2) / 153 in
  let d := doy - (153 * mp + 2) / 5 + 1 in
  let m := if mp <? 10 then mp + 3 else mp - 9 in
  let y := yoe + era * 400 + (if m <=? 2 then 1 else 0) in
  (y, m, d).

Definition days_from_civil (y m d : Z) : Z :=
  let y := if m <=? 2 then y - 1 else y in
  let era := y / 400 in
  let yoe := y - era * 400 in
  let doy := (153 * (if 2 <? m then m - 3 else m + 9) + 2) / 5 + d - 1 in
  let doe := yoe * 365 + yoe / 4 - yoe / 100 + doy in
  era * 146097 + doe - 719468.

Definition localtime (t : Z) : tm :=
  let '(y, m, d) := civil_from_days (t / 86400) in
  let s := t mod 86400 in
  {| tm_sec := s mod 60;
     tm_min := (s / 60) mod 60;
     tm_hour := s / 3600;
     tm_mday := d;
     tm_mon := m - 1;
     tm_year := y - 1900;
     tm_isdst := 0 |}.

Definition mktime00 (t : tm) : R.double :=
  R.Fin (inject_Z
           (days_from_civil (tm_year t + 1900) (tm_mon t + 1) (tm_mday t) * 86400
            + tm_hour t * 3600 + tm_min t * 60 + tm_sec t)).

Definition time_t_of_non_finite : Z := - 2 ^ 63.

(** [localtime] returns a null pointer when the year does not fit the
    [int] field [tm_year]. *)
Definition localtime_fails (t : Z) : bool :=
  let '(y, _, _) := civil_from_days (t / 86400) in
  negb ((- 2 ^ 31 <=? y - 1900) && (y - 1900 <? 2 ^ 31)).

End UTC.

(** The conversion of a process whose time zone is five hours behind UTC
    all year: the calendar time of the instant [t] is the UTC calendar time
    of [t - 18000]. *)
Module UTC_minus_5.

Definition localtime (t : Z) : tm := UTC.localtime (t - 18000).

End UTC_minus_5.

Module Examples.

Definition handle : odbc_result :=
  new_odbc_result (nanodbc.mk_result [] [] 0) "INSERT INTO t VALUES (?)".


(** A table with a logical column: no row, and one row. *)
Definition logical_0 : R.DataFrame :=
  R.mkDataFrame [R.mkRObject (R.LGLSXP []) []] 0.

Definition logical_1 : R.DataFrame :=
  R.mkDataFrame [R.mkRObject (R.INTSXP [1]) [];
                 R.mkRObject (R.LGLSXP [Some true]) []] 1.

(** A table with a column of every type that is bound, three rows, and a
    missing value in the second row of each column. *)
Definition mixed_3 : R.DataFrame :=
  R.mkDataFrame
    [R.mkRObject (R.INTSXP [1; R.NA_INTEGER; 3]) [];
     R.mkRObject (R.REALSXP [R.Fin 1; R.NA_REAL; R.NaN]) [];
     R.mkRObject (R.STRSXP [R.mkChar "a"; R.NA_STRING; R.mkChar "c"]) [];
     R.mkRObject (R.REALSXP [R.Fin 18262; R.NA_REAL; R.Fin 0]) ["Date"];
     R.mkRObject (R.REALSXP [R.Fin 1577836800; R.NA_REAL; R.Fin (1 # 2)])
                 ["POSIXct"; "POSIXt"]]
    3.

(** A result with an integer and a text column and [n] rows; the text of
    every third row is null, seen only after the retrieval. *)
Definition cell_of (i : nat) : nanodbc.cell :=
  nanodbc.mk_cell false false (Z.of_nat i) (R.Fin (inject_Z (Z.of_nat i)))
                  (nanodbc.mk_timestamp 2020 1 1 0 0 0 (R.Fin 0)) "text".

Definition late_null (i : nat) : nanodbc.cell :=
  nanodbc.mk_cell false (i mod 3 =? 0)%nat 0 R.NA_REAL
                  (nanodbc.mk_timestamp 2020 1 1 0 0 0 (R.Fin 0)) "text".

Definition result_of (n : nat) : nanodbc.result :=
  nanodbc.mk_result
    [("id", nanodbc.SQL_INTEGER); ("note", nanodbc.SQL_VARCHAR)]
    ((fun i => nanodbc.mk_row [cell_of i; late_null i] []) <$> seq 0 n)
    0.

(** A result with an integer column, a binary column and a column whose
    type code the source does not name, and [n] rows. *)
Definition blobs (n : nat) : nanodbc.result :=
  nanodbc.mk_result
    [("id", nanodbc.SQL_INTEGER); ("blob", nanodbc.SQL_VARBINARY);
     ("geo", nanodbc.SQL_other (-151))]
    ((fun i => nanodbc.mk_row [cell_of i; cell_of i; cell_of i] [])
       <$> seq 0 n)
    0.

End Examples.

Section odbc_result.

(** The C library's [localtime] under the time zone of the process,
    Rcpp's [mktime00], and what converting a non-finite [double] to
    [time_t] yields on the platform (C++ leaves it undefined). *)
Variable localtime : Z -> tm.
Variable mktime00 : tm -> R.double.
Variable time_t_of_non_finite : Z.

(** The times for which the C library's [localtime] returns a null
    pointer. *)
Variable localtime_fails : Z -> bool.

Definition seconds_in_day_ : Z := 24 * 60 * 60.

(** [void execute()] *)
Definition execute : M unit :=
  o <- get ;;
  match r_ o with
  | None => emit (EvExecute (sql_ o)) ;; modify (set_r_ (Some (s_ o)))
  | Some _ => ret tt
  end.

(** [void clear_buffers()] *)
Definition clear_buffers : M unit :=
  modify (set_strings_ ∅) ;;
  modify (set_times_ ∅) ;;
  modify (set_nulls_ ∅).

(** [nulls_[column] = std::vector<uint8_t>(size, false)] *)
Definition reset_nulls (column size : nat) : M unit :=
  modify (fun o => set_nulls_ (<[column := replicate size false]> (nulls_ o)) o).

(** [nulls_[column][i] = true] *)
Definition mark_null (column i : nat) : M unit :=
  modify (fun o =>
    set_nulls_ (<[column := <[i := true]> (nulls_ o !!! column)]> (nulls_ o)) o).

(** [strings_[column].push_back(x)] and [times_[column].push_back(ts)];
    [operator[]] of a [std::map] starts from an empty vector. *)
Definition push_string (column : nat) (x : string) : M unit :=
  modify (fun o =>
    set_strings_ (<[column := strings_ o !!! column ++ [x]]> (strings_ o)) o).

Definition push_time (column : nat) (ts : nanodbc.slot) : M unit :=
  modify (fun o =>
    set_times_ (<[column := times_ o !!! column ++ [ts]]> (times_ o)) o).

(** [&vector[start]] read over [size] elements. *)
Definition window {A} (vector : list A) (start size : nat) : list A :=
  take size (drop start vector).

(** [void bind_integer(statement, data, column, start, size)] *)
Definition bind_integer (data : R.DataFrame) (column start size : nat)
  : M unit :=
  emit (EvBindInteger column
          (window (R.INTEGER (R.columns data !!! column)) start size)
          R.NA_INTEGER).

(** [void bind_double(statement, data, column, start, size)] *)
Definition bind_double (data : R.DataFrame) (column start size : nat)
  : M unit :=
  reset_nulls column size ;;
  let vector := R.REAL (R.columns data !!! column) in
  for_range size (fun i =>
    if R.ISNA (vector !!! (start + i)%nat)
    then mark_null column i
    else ret tt) ;;
  o <- get ;;
  emit (EvBindDouble column (window vector start size) (nulls_ o !!! column)).

(** [void bind_string(statement, data, column, start, size)] *)
Definition bind_string (data : R.DataFrame) (column start size : nat)
  : M unit :=
  reset_nulls column size ;;
  for_range size (fun i =>
    let value := R.STRING (R.columns data !!! column) !!! (start + i)%nat in
    (match value with
     | R.NA_STRING => mark_null column i
     | _ => ret tt
     end) ;;
    push_string column (R.Rf_translateCharUTF8 value)) ;;
  o <- get ;;
  emit (EvBindStrings column (strings_ o !!! column) (nulls_ o !!! column)).

(** [static_cast<time_t>(value)].  The conversion is defined for a finite
    value whose integral part a 64-bit [time_t] holds; C++ leaves the other
    cases undefined. *)
Definition to_time_t (value : R.double) : Z :=
  match value with
  | R.Fin q => Z.quot (Qnum q) (Z.pos (Qden q))
  | _ => time_t_of_non_finite
  end.

(** [nanodbc::timestamp as_timestamp(double value)].  The source reads the
    fields through the pointer [localtime] returns without testing it.  For
    a value outside [in_time_domain] below (a NaN that is not NA, an
    infinity, a value [time_t] does not hold or [localtime] has no calendar
    time for) the source has no defined result and the timestamp given here
    stands for none: the statements that a bind succeeds or that tell its
    values carry [in_time_domain] of the values converted as a premise. *)
Definition as_timestamp (value : R.double) : nanodbc.timestamp :=
  let '(frac, value) := R.modf value in
  let t := to_time_t value in
  let tm := localtime t in
  {| nanodbc.fract := frac;
     nanodbc.sec := tm_sec tm;
     nanodbc.min := tm_min tm;
     nanodbc.hour := tm_hour tm;
     nanodbc.day := tm_mday tm;
     nanodbc.month := tm_mon tm + 1;
     nanodbc.year := tm_year tm + 1900 |}.

(** [void bind_datetime(statement, data, column, start, size)] *)
Definition bind_datetime (data : R.DataFrame) (column start size : nat)
  : M unit :=
  reset_nulls column size ;;
  for_range size (fun i =>
    let value := R.REAL (R.columns data !!! column) !!! (start + i)%nat in
    ts <- (if R.ISNA value
           then mark_null column i ;; ret nanodbc.uninitialised
           else ret (nanodbc.assigned (as_timestamp value))) ;;
    push_time column ts) ;;
  o <- get ;;
  emit (EvBindTimestamps column (times_ o !!! column) size
          (nulls_ o !!! column)).

(** [void bind_date(statement, data, column, start, size)] *)
Definition bind_date (data : R.DataFrame) (column start size : nat)
  : M unit :=
  reset_nulls column size ;;
  for_range size (fun i =>
    let value :=
      R.mul_const (R.REAL (R.columns data !!! column) !!! (start + i)%nat)
                  seconds_in_day_ in
    ts <- (if R.ISNA value
           then mark_null column i ;; ret nanodbc.uninitialised
           else ret (nanodbc.assigned (as_timestamp value))) ;;
    push_time column ts) ;;
  o <- get ;;
  emit (EvBindTimestamps column (times_ o !!! column) size
          (nulls_ o !!! column)).

(** [std::vector<r_type> column_types(Rcpp::DataFrame const & df)]: the
    type pushed for one column, or the exception of the default case. *)
Definition column_type (x : R.RObject) : M r_type :=
  match R.payload x with
  | R.LGLSXP _ => ret logical_t
  | R.INTSXP _ => ret integer_t
  | R.REALSXP _ =>
      if R.inherits x "Date" then ret date_t
      else if R.inherits x "POSIXct" then ret datetime_t
      else ret double_t
  | R.STRSXP _ => ret string_t
  | R.RAWSXP _ => ret raw_t
  | R.OTHERSXP name => stop ("Unsupported column type " +:+ name)
  end.

(** The loop [for (short i = 0; i < df.size(); ++i)].  The counter is a
    [short]: the list recursion is this loop for a table of fewer than
    [2 ^ 15] columns, the premise [short_columns] of the statements that a
    call returns. *)
Fixpoint column_types_from (columns : list R.RObject) (types : list r_type)
  : M (list r_type) :=
  match columns with
  | [] => ret types
  | x :: rest =>
      t <- column_type x ;;
      column_types_from rest (types ++ [t])
  end.

Definition column_types (df : R.DataFrame) : M (list r_type) :=
  column_types_from (R.columns df) [].

(** The body of the column loop of [insert_dataframe]. *)
Definition bind_column (types : list r_type) (df : R.DataFrame)
           (start size col : nat) : M unit :=
  match types !!! col with
  | integer_t => bind_integer df col start size
  | double_t => bind_double df col start size
  | string_t => bind_string df col start size
  | datetime_t => bind_datetime df col start size
  | date_t => bind_date df col start size
  | _ => stop "Not yet implemented!"
  end.

(** [size_t batch_size = 1024].  [start], [end] and [size] are [size_t]
    values; as [nrows] is an [int] and [start < nrows] in the loop,
    [start + batch_size] stays below [2 ^ 32] and never wraps, so they are
    kept as natural numbers. *)
Definition batch_size : nat := 1024.

(** The body of the batch loop, up to [nanodbc::execute(s, size)].  The
    column loop is [for (short col = 0; col < ncols; ++col)]: as for
    [column_types], the loop over [ncols] columns is the one of the source
    for fewer than [2 ^ 15] columns. *)
Definition insert_batch (types : list r_type) (df : R.DataFrame)
           (ncols nrows start : nat) : M unit :=
  o <- get ;;
  emit (EvStatement (sql_ o)) ;;
  let end_ := if (nrows <? start + batch_size)%nat
              then nrows else (start + batch_size)%nat in
  let size := (end_ - start)%nat in
  clear_buffers ;;
  for_range ncols (bind_column types df start size) ;;
  emit (EvExecuteBatch size).

(** [while (start < nrows) { ... start += batch_size; }] *)
Equations? insert_batches (types : list r_type) (df : R.DataFrame)
           (ncols nrows start : nat) : M unit by wf (nrows - start)%nat lt :=
  insert_batches types df ncols nrows start with decide (start < nrows)%nat := {
    | left _ =>
        insert_batch types df ncols nrows start ;;
        insert_batches types df ncols nrows (start + batch_size)%nat
    | right _ => ret tt }.
Proof. unfold batch_size. lia. Qed.

(** [void insert_dataframe(Rcpp::DataFrame const & df)] *)
Definition insert_dataframe (df : R.DataFrame) : M unit :=
  types <- column_types df ;;
  let ncols := length (R.columns df) in
  let nrows := R.nrows df in
  emit EvTransaction ;;
  insert_batches types df ncols nrows 0 ;;
  emit EvCommit.

(** [std::vector<std::string> column_names(nanodbc::result const & r)] *)
Definition column_names (r : nanodbc.result) : list string :=
  (nanodbc.metadata r).*1.

(** [double as_double(nanodbc::timestamp const & ts)] *)
Definition as_double (ts : nanodbc.timestamp) : R.double :=
  let t := {| tm_isdst := 0;
              tm_year := nanodbc.year ts - 1900;
              tm_mon := nanodbc.month ts - 1;
              tm_mday := nanodbc.day ts;
              tm_hour := nanodbc.hour ts;
              tm_min := nanodbc.min ts;
              tm_sec := nanodbc.sec ts |} in
  R.add (mktime00 t) (nanodbc.fract ts).

(** [Rcpp::List create_dataframe(types, names, n)] *)
Definition create_column (t : r_type) (n : Z) : Rf.vector :=
  match t with
  | integer_t => Rf.allocVector Rf.INTSXP n
  | date_t | datetime_t | double_t => Rf.allocVector Rf.REALSXP n
  | string_t => Rf.allocVector Rf.STRSXP n
  | raw_t => Rf.allocVector Rf.VECSXP n
  | logical_t => Rf.allocVector Rf.LGLSXP n
  end.

Definition create_dataframe (types : list r_type) (names : list string)
           (n : Z) : Rf.List :=
  {| Rf.columns := (fun t => create_column t n) <$> types;
     Rf.names := names;
     Rf.class_attr := "data.frame";
     Rf.row_names := n |}.

(** [Rcpp::List resize_dataframe(Rcpp::List df, int n)] *)
Definition resize_dataframe (df : Rf.List) (n : Z) : Rf.List :=
  {| Rf.columns := (fun x => Rf.lengthgets x n) <$> Rf.columns df;
     Rf.names := Rf.names df;
     Rf.class_attr := Rf.class_attr df;
     Rf.row_names := n |}.

(** [void add_classes(Rcpp::List & df, const std::vector<r_type> & types)] *)
Definition add_class (t : r_type) (x : Rf.vector) : Rf.vector :=
  match t with
  | date_t => Rf.set_class ["Date"] x
  | datetime_t => Rf.set_class ["POSIXct"; "POSIXt"] x
  | _ => x
  end.

Definition add_classes (df : Rf.List) (types : list r_type) : Rf.List :=
  {| Rf.columns :=
       imap (fun col x => add_class (types !!! col) x) (Rf.columns df);
     Rf.names := Rf.names df;
     Rf.class_attr := Rf.class_attr df;
     Rf.row_names := Rf.row_names df |}.

(** [std::vector<r_type> column_types(nanodbc::result const & r)]: the
    type pushed for one column and whether the default case warned. *)
Definition result_column_type (name : string) (type : nanodbc.datatype)
  : r_type * list event :=
  match type with
  | nanodbc.SQL_BIT | nanodbc.SQL_TINYINT | nanodbc.SQL_SMALLINT
  | nanodbc.SQL_INTEGER | nanodbc.SQL_BIGINT => (integer_t, [])
  | nanodbc.SQL_DOUBLE | nanodbc.SQL_FLOAT | nanodbc.SQL_DECIMAL
  | nanodbc.SQL_REAL | nanodbc.SQL_NUMERIC => (double_t, [])
  | nanodbc.SQL_DATE | nanodbc.SQL_TYPE_DATE => (date_t, [])
  | nanodbc.SQL_TIME | nanodbc.SQL_TIMESTAMP | nanodbc.SQL_TYPE_TIMESTAMP
  | nanodbc.SQL_TYPE_TIME => (datetime_t, [])
  | nanodbc.SQL_CHAR | nanodbc.SQL_WCHAR | nanodbc.SQL_VARCHAR
  | nanodbc.SQL_WVARCHAR | nanodbc.SQL_LONGVARCHAR
  | nanodbc.SQL_WLONGVARCHAR => (string_t, [])
  | nanodbc.SQL_BINARY | nanodbc.SQL_VARBINARY
  | nanodbc.SQL_LONGVARBINARY => (raw_t, [])
  | nanodbc.SQL_other _ =>
      (string_t,
       [EvWarning "Unknown field type (%s) in column %s"
                  [arg_datatype type; arg_string name]])
  end.

Definition result_column_types (r : nanodbc.result)
  : list r_type * list event :=
  ((fun c => (result_column_type c.1 c.2).1) <$> nanodbc.metadata r,
   concat ((fun c => (result_column_type c.1 c.2).2) <$> nanodbc.metadata r)).

(** [int] arithmetic for [n *= 2] and [++row]: the result reduced to 32
    bits, two's complement (what the usual platforms do on signed overflow,
    which C++ leaves undefined). *)
Definition wrap_int (z : Z) : Z := (z + 2 ^ 31) mod 2 ^ 32 - 2 ^ 31.

(** [out[col][row] = e] through [INTEGER], [REAL] or [SET_STRING_ELT]. *)
Definition assign (out : Rf.List) (col : nat) (row : Z) (e : Rf.element)
  : Rf.List :=
  {| Rf.columns := alter (Rf.store row e) col (Rf.columns out);
     Rf.names := Rf.names out;
     Rf.class_attr := Rf.class_attr out;
     Rf.row_names := Rf.row_names out |}.

(** The [string_t] case of the switch: the element written, and the row
    after the accesses. *)
Definition string_cell (vals : nanodbc.row) (col : nat)
  : R.CHARSXP * nanodbc.row :=
  let '(null, vals) := nanodbc.is_null vals col in
  if null then (R.NA_STRING, vals)
  else
    let '(str, vals) := nanodbc.get_string_at vals col in
    let '(null, vals) := nanodbc.is_null vals col in
    if null then (R.NA_STRING, vals)
    else (R.mkChar str, vals).

(** The [date_t] and [datetime_t] case: the value of [val]. *)
Definition time_cell (vals : nanodbc.row) (col : nat)
  : R.double * nanodbc.row :=
  let '(null, vals) := nanodbc.is_null vals col in
  if null then (R.NA_REAL, vals)
  else
    let '(ts, vals) := nanodbc.get_timestamp_at vals col in
    (as_double ts, vals).

(** The body of the column loop of [result_to_dataframe]: the switch on
    [types[col]] for the cell at ([row], [col]). *)
Definition fill_cell (types : list r_type) (names : list string) (row : Z)
           (st : Rf.List * nanodbc.row * list event) (col : nat)
  : Rf.List * nanodbc.row * list event :=
  let '(out, vals, warnings) := st in
  match types !!! col with
  | integer_t =>
      let '(v, vals) := nanodbc.get_int_or vals col R.NA_INTEGER in
      (assign out col row (Rf.integer v), vals, warnings)
  | date_t =>
      let '(val, vals) := time_cell vals col in
      (assign out col row (Rf.real (R.div_const val (24 * 60 * 60))),
       vals, warnings)
  | datetime_t =>
      let '(val, vals) := time_cell vals col in
      (assign out col row (Rf.real val), vals, warnings)
  | double_t =>
      let '(v, vals) := nanodbc.get_double_or vals col R.NA_REAL in
      (assign out col row (Rf.real v), vals, warnings)
  | string_t =>
      let '(val, vals) := string_cell vals col in
      (assign out col row (Rf.character val), vals, warnings)
  | _ =>
      (out, vals,
       warnings
       ++ [EvWarning "Unknown field type (%s) in column %s"
                     [arg_r_type (types !!! col); arg_string (names !!! col)]])
  end.

(** [for (short col = 0; col < r.columns(); ++col) { switch ... }] *)
Definition fill_row (types : list r_type) (names : list string)
           (ncols : nat) (row : Z) (out : Rf.List) (vals : nanodbc.row)
  : Rf.List * list event :=
  let '(out, _, warnings) :=
    foldl (fill_cell types names row) (out, vals, []) (seq 0 ncols) in
  (out, warnings).

(** Where the row loop of [result_to_dataframe] stands: the capacity [n],
    the row index, the table and the cursor. *)
Record fetch_state : Type := mk_fetch_state {
  fs_n : Z;
  fs_row : Z;
  fs_out : Rf.List;
  fs_r : nanodbc.result
}.

(** [for (auto &vals : r) { ... ++row; }].  The iterator advances the
    cursor to obtain [vals] before the body runs; [break] leaves the loop
    with the cursor where it is. *)
Fixpoint fetch_rows (types : list r_type) (names : list string)
         (n_max : Z) (metadata : list (string * nanodbc.datatype))
         (pending : list nanodbc.row) (position : nat)
         (n row : Z) (out : Rf.List) : fetch_state * list event :=
  match pending with
  | [] => (mk_fetch_state n row out (nanodbc.mk_result metadata [] position), [])
  | vals :: rest =>
      let position := S position in
      let grown :=
        if n <=? row then
          if n_max <? 0 then
            let n := wrap_int (n * 2) in
            Some (n, resize_dataframe out n, [EvResize n])
          else None
        else Some (n, out, []) in
      match grown with
      | None =>
          (mk_fetch_state n row out
             (nanodbc.mk_result metadata rest position), [])
      | Some (n, out, t1) =>
          let '(out, t2) := fill_row types names (length metadata) row out vals in
          let '(st, t3) :=
            fetch_rows types names n_max metadata rest position
                       n (wrap_int (row + 1)) out in
          (st, t1 ++ t2 ++ t3)
      end
  end.

(** [Rcpp::List result_to_dataframe(nanodbc::result & r, int n_max)]: the
    table, the cursor afterwards and the events. *)
Definition result_to_dataframe (r : nanodbc.result) (n_max : Z)
  : Rf.List * nanodbc.result * list event :=
  let '(types, t0) := result_column_types r in
  let n := if n_max <? 0 then 100 else n_max in
  let out := create_dataframe types (column_names r) n in
  let row := 0 in
  let '(st, t1) :=
    fetch_rows types (column_names r) n_max (nanodbc.metadata r)
               (nanodbc.pending r) (nanodbc.position r) n row out in
  let '(out, t2) :=
    if fs_row st <? fs_n st
    then (resize_dataframe (fs_out st) (fs_row st), [EvResize (fs_row st)])
    else (fs_out st, []) in
  (add_classes out types, fs_r st, t0 ++ [EvCreate n] ++ t1 ++ t2).

(** [Rcpp::List fetch(int n_max = -1)]; [r_] is passed by reference, so
    the cursor as [result_to_dataframe] leaves it is the one the object
    keeps, and the events of the materializer are those of the fetch. *)
Definition fetch (n_max : Z) : M Rf.List :=
  execute ;;
  o <- get ;;
  match r_ o with
  | Some r =>
      let '(out, r, t) := result_to_dataframe r n_max in
      modify (set_r_ (Some r)) ;;
      emit_all t ;;
      ret out
  | None => stop "invalid result"
  end.

(** *** The functions the code is compared with *)

(** The element of [times_] pushed for one value of a DateTime column. *)
Definition time_slot (value : R.double) : nanodbc.slot :=
  if R.ISNA value then nanodbc.uninitialised
  else nanodbc.assigned (as_timestamp value).

Definition is_NA_STRING (x : R.CHARSXP) : bool :=
  match x with R.NA_STRING => true | _ => false end.

(** The doubles [as_timestamp] converts: finite, with an integral part
    that [time_t] holds and that [localtime] has a calendar time for. *)
Definition in_time_domain (value : R.double) : bool :=
  match value with
  | R.Fin q =>
      let t := Z.quot (Qnum q) (Z.pos (Qden q)) in
      (- 2 ^ 63 <=? t) && (t <? 2 ^ 63) && negb (localtime_fails t)
  | _ => false
  end.

(** The elements [bind_datetime] and [bind_date] handle: NA, or a value
    [as_timestamp] converts; for a day count, the value is the product with
    [seconds_in_day_], which has to be exact for [R.mul_const] to be the
    product of the source. *)
Definition datetime_ok (value : R.double) : bool :=
  R.ISNA value || in_time_domain value.

Definition date_ok (value : R.double) : bool :=
  R.ISNA value
  || (R.exact_mul_const value seconds_in_day_
      && in_time_domain (R.mul_const value seconds_in_day_)).

(** [struct tm] with [tm_isdst] set to 0, as [as_double] fills it. *)
Definition without_dst (t : tm) : tm :=
  mk_tm (tm_sec t) (tm_min t) (tm_hour t) (tm_mday t) (tm_mon t) (tm_year t) 0.

(** The range of the [short] column counters. *)
Definition short_columns (df : R.DataFrame) : Prop :=
  Z.of_nat (length (R.columns df)) < 2 ^ 15.

(** The values [f (vector[start + i])] for [i] from 0 to [size - 1]. *)
Definition scan {A B} `{Inhabited A} (f : A -> B) (vector : list A)
           (start size : nat) : list B :=
  (fun i => f (vector !!! (start + i)%nat)) <$> seq 0 size.

(** The object apart from its three buffers. *)
Definition same_members (o o' : odbc_result) : Prop :=
  s_ o' = s_ o /\ r_ o' = r_ o /\ sql_ o' = sql_ o.

(** The buffers of the columns other than [column]. *)
Definition same_buffers_but (column : nat) (o o' : odbc_result) : Prop :=
  forall j, j ≠ column ->
    strings_ o' !! j = strings_ o !! j /\ times_ o' !! j = times_ o !! j.

(** The mask while the loop stands at [i]: scanned up to [i], [false]
    from there on. *)
Definition mask_at (mask : list bool) (i size : nat) : list bool :=
  take i mask ++ replicate (size - i) false.

Definition bindable (t : r_type) : bool :=
  match t with
  | integer_t | double_t | string_t | datetime_t | date_t => true
  | _ => false
  end.

(** What binding column [col] of the batch of [size] rows from [start]
    sends when the buffers of that column are empty; nothing for a type
    the switch has no case for. *)
Definition bound (types : list r_type) (df : R.DataFrame)
           (start size col : nat) : option event :=
  let x := R.columns df !!! col in
  match types !!! col with
  | integer_t =>
      Some (EvBindInteger col (window (R.INTEGER x) start size) R.NA_INTEGER)
  | double_t =>
      Some (EvBindDouble col (window (R.REAL x) start size)
                         (scan R.ISNA (R.REAL x) start size))
  | string_t =>
      Some (EvBindStrings col
              (scan R.Rf_translateCharUTF8 (R.STRING x) start size)
              (scan is_NA_STRING (R.STRING x) start size))
  | datetime_t =>
      Some (EvBindTimestamps col (scan time_slot (R.REAL x) start size) size
                             (scan R.ISNA (R.REAL x) start size))
  | date_t =>
      Some (EvBindTimestamps col
              (scan (fun v => time_slot (R.mul_const v seconds_in_day_))
                    (R.REAL x) start size)
              size
              (scan (fun v => R.ISNA (R.mul_const v seconds_in_day_))
                    (R.REAL x) start size))
  | _ => None
  end.

(** The outcome and the events of the column loop over [cols]. *)
Fixpoint bound_columns (types : list r_type) (df : R.DataFrame)
         (start size : nat) (cols : list nat) : outcome unit * list event :=
  match cols with
  | [] => (Ok tt, [])
  | col :: rest =>
      match bound types df start size col with
      | Some e =>
          let '(r, t) := bound_columns types df start size rest in (r, e :: t)
      | None => (Stop "Not yet implemented!", [])
      end
  end.

Definition fresh_from (k : nat) (o : odbc_result) : Prop :=
  forall j, (k <= j)%nat -> strings_ o !! j = None /\ times_ o !! j = None.

(** The number of rows of the batch that starts at [start]. *)
Definition batch_rows (nrows start : nat) : nat :=
  Nat.min batch_size (nrows - start).

(** The sizes of the batches of a table of [n] rows: full batches, then
    the rest if there is one. *)
Definition batch_sizes (n : nat) : list nat :=
  replicate (n / batch_size) batch_size
  ++ (if (n mod batch_size =? 0)%nat then [] else [(n mod batch_size)%nat]).

(** The batches as pairs of a first row and a size. *)
Definition batch_ranges (n : nat) : list (nat * nat) :=
  imap (fun k size => ((k * batch_size)%nat, size)) (batch_sizes n).

(** What one batch sends when every column can be bound. *)
Definition batch_trace (types : list r_type) (df : R.DataFrame) (sql : string)
           (range : nat * nat) : list event :=
  EvStatement sql
  :: (bound_columns types df range.1 range.2 (seq 0 (length (R.columns df)))).2
  ++ [EvExecuteBatch range.2].

(** The semantic type [column_types] pushes for a column, if it has a case
    for its native type. *)
Definition column_type_of (x : R.RObject) : option r_type :=
  match R.payload x with
  | R.LGLSXP _ => Some logical_t
  | R.INTSXP _ => Some integer_t
  | R.REALSXP _ =>
      Some (if R.inherits x "Date" then date_t
            else if R.inherits x "POSIXct" then datetime_t
            else double_t)
  | R.STRSXP _ => Some string_t
  | R.RAWSXP _ => Some raw_t
  | R.OTHERSXP _ => None
  end.

(** A column whose elements the binds handle: every element of a Date or
    DateTime column is NA or can be converted; no condition on the other
    columns. *)
Definition temporal_ok (x : R.RObject) : bool :=
  match column_type_of x with
  | Some date_t => forallb date_ok (R.REAL x)
  | Some datetime_t => forallb datetime_ok (R.REAL x)
  | _ => true
  end.

(** The native types [column_types] has a case for, and among them the
    ones the switch of [insert_dataframe] binds. *)
Definition mapped (x : R.RObject) : bool :=
  match R.payload x with R.OTHERSXP _ => false | _ => true end.

Definition supported (x : R.RObject) : bool :=
  match R.payload x with
  | R.INTSXP _ | R.REALSXP _ | R.STRSXP _ => true
  | _ => false
  end.

Definition is_bind (e : event) : bool :=
  match e with
  | EvBindInteger _ _ _ | EvBindDouble _ _ _ | EvBindStrings _ _ _
  | EvBindTimestamps _ _ _ _ => true
  | _ => false
  end.

(** The sizes of the batches executed in a trace, in order. *)
Definition executed_batch (e : event) : option nat :=
  match e with EvExecuteBatch size => Some size | _ => None end.

Definition executed_batches (t : list event) : list nat :=
  omap executed_batch t.

(** How the column [col] of a batch of [s] rows is bound, by type: an
    integer column with its values and the sentry [NA_INTEGER], without a
    mask; the others with as many values and as many mask entries as the
    batch has rows. *)
Definition bind_shape (s col : nat) (t : r_type) (e : event) : Prop :=
  match t, e with
  | integer_t, EvBindInteger c values sentry =>
      c = col /\ length values = s /\ sentry = R.NA_INTEGER
  | double_t, EvBindDouble c values nulls =>
      c = col /\ length values = s /\ length nulls = s
  | string_t, EvBindStrings c values nulls =>
      c = col /\ length values = s /\ length nulls = s
  | date_t, EvBindTimestamps c values elements nulls
  | datetime_t, EvBindTimestamps c values elements nulls =>
      c = col /\ elements = s /\ length values = s /\ length nulls = s
  | _, _ => False
  end.

(** What the column [x], of type [t], is bound with in the batch of [s]
    rows from [start]: an integer column with its values as they are (a
    missing one is the sentry itself); a real column with its values and a
    mask that is [true] exactly at the NA elements; a character column with
    the translated texts and a mask that is [true] exactly at the
    [NA_STRING] elements; a Date or DateTime column with a mask that is
    [true] exactly at the NA elements and, at each position, the timestamp
    of the element or, for an NA element, the timestamp never assigned. *)
Definition bind_content (t : r_type) (x : R.RObject) (start s : nat)
           (e : event) : Prop :=
  match t, e with
  | integer_t, EvBindInteger _ values _ =>
      values = window (R.INTEGER x) start s
  | double_t, EvBindDouble _ values nulls =>
      values = window (R.REAL x) start s
      /\ nulls = R.ISNA <$> window (R.REAL x) start s
  | string_t, EvBindStrings _ values nulls =>
      values = R.Rf_translateCharUTF8 <$> window (R.STRING x) start s
      /\ nulls = is_NA_STRING <$> window (R.STRING x) start s
  | datetime_t, EvBindTimestamps _ values _ nulls =>
      values = time_slot <$> window (R.REAL x) start s
      /\ nulls = R.ISNA <$> window (R.REAL x) start s
  | date_t, EvBindTimestamps _ values _ nulls =>
      values = (fun d => time_slot (R.mul_const d seconds_in_day_))
                 <$> window (R.REAL x) start s
      /\ nulls = R.ISNA <$> window (R.REAL x) start s
  | _, _ => False
  end.

(** The element the [string_t] case writes for a cell: the missing string
    when the indicator is set before the retrieval or after it. *)
Definition string_value (c : nanodbc.cell) : R.CHARSXP :=
  if nanodbc.indicator c || nanodbc.null_data c
  then R.NA_STRING
  else R.mkChar (nanodbc.get_string c).

(** The value of [val] in the [date_t] and [datetime_t] case. *)
Definition time_value (c : nanodbc.cell) : R.double :=
  if nanodbc.indicator c then R.NA_REAL
  else as_double (nanodbc.get_timestamp c).

(** The element the switch writes for a cell of a column of type [t];
    nothing for the types without a case. *)
Definition stored (t : r_type) (c : nanodbc.cell) : option Rf.element :=
  match t with
  | integer_t =>
      Some (Rf.integer (if nanodbc.indicator c then R.NA_INTEGER
                        else nanodbc.get_int c))
  | double_t =>
      Some (Rf.real (if nanodbc.indicator c then R.NA_REAL
                     else nanodbc.get_double c))
  | date_t => Some (Rf.real (R.div_const (time_value c) (24 * 60 * 60)))
  | datetime_t => Some (Rf.real (time_value c))
  | string_t => Some (Rf.character (string_value c))
  | raw_t | logical_t => None
  end.

(** What the column loop does to the vector of column [j] at [row]. *)
Definition filled (types : list r_type) (vals : nanodbc.row) (row : Z)
           (j : nat) (v : Rf.vector) : Rf.vector :=
  match stored (types !!! j) (nanodbc.cells vals !!! j) with
  | Some e => Rf.store row e v
  | None => v
  end.

Definition is_warning (e : event) : bool :=
  match e with EvWarning _ _ => true | _ => false end.

Definition sxp_of (t : r_type) : Rf.SEXPTYPE :=
  match t with
  | integer_t => Rf.INTSXP
  | date_t | datetime_t | double_t => Rf.REALSXP
  | string_t => Rf.STRSXP
  | raw_t => Rf.VECSXP
  | logical_t => Rf.LGLSXP
  end.

(** The element found in the returned table for a cell of a column of type
    [t]: the one the switch writes, and for the raw type, which the switch
    has no case for, the [R_NilValue] the list was allocated with. *)
Definition materialized (t : r_type) (c : nanodbc.cell) : Rf.element :=
  default Rf.R_NilValue (stored t c).

(** Column [j] of the rows [rows], materialized. *)
Definition column_of (t : r_type) (j : nat) (rows : list nanodbc.row)
  : list Rf.element :=
  (fun vals => materialized t (nanodbc.cells vals !!! j)) <$> rows.

(** The vector of a column of type [t] when the rows [done] have been
    written and the capacity is [n]. *)
Definition col_inv (t : r_type) (j : nat) (done : list nanodbc.row) (n : nat)
           (v : Rf.vector) : Prop :=
  Rf.TYPEOF v = sxp_of t
  /\ length (Rf.elements v) = n
  /\ take (length done) (Rf.elements v) = column_of t j done
  /\ (t = raw_t -> Rf.elements v = replicate n Rf.R_NilValue)
  /\ Rf.class v = [].

Definition table_inv (types : list r_type) (names : list string)
           (done : list nanodbc.row) (n : Z) (out : Rf.List) : Prop :=
  Rf.names out = names
  /\ Rf.class_attr out = "data.frame"
  /\ Rf.row_names out = n
  /\ length (Rf.columns out) = length types
  /\ forall j t v,
       types !! j = Some t -> Rf.columns out !! j = Some v ->
       col_inv t j done (Z.to_nat n) v.

(** The capacities passed to [resize_dataframe] in a trace, in order, and
    the ones passed to [create_dataframe]. *)
Definition resize_of (e : event) : option Z :=
  match e with EvResize n => Some n | _ => None end.

Definition resizes (t : list event) : list Z := omap resize_of t.

Definition create_of (e : event) : option Z :=
  match e with EvCreate n => Some n | _ => None end.

Definition creations (t : list event) : list Z := omap create_of t.

(** The capacities [2 n], [4 n], ... of [k] doublings from [n]. *)
Definition doublings (n : Z) (k : nat) : list Z :=
  (fun i => n * 2 ^ Z.of_nat i) <$> seq 1 k.

(** The largest capacity [int] arithmetic reaches from 100 by doubling
    without overflow: [100 * 2 ^ 24]. *)
Definition max_capacity : Z := 1677721600.

Definition capacity (n : Z) : Prop :=
  exists j, (j <= 24)%nat /\ n = 100 * 2 ^ Z.of_nat j.

(** The classes [add_classes] sets on a column of type [t]. *)
Definition class_of (t : r_type) : list string :=
  match t with
  | date_t => ["Date"]
  | datetime_t => ["POSIXct"; "POSIXt"]
  | _ => []
  end.

(** The returned table holds exactly the rows [rows]: column [j], of type
    [t], is a vector of the type allocated for [t] whose elements are the
    cells of column [j] of [rows], in order, with the class of [t]. *)
Definition holds_rows (types : list r_type) (names : list string)
           (rows : list nanodbc.row) (out : Rf.List) : Prop :=
  Rf.names out = names
  /\ Rf.class_attr out = "data.frame"
  /\ Rf.row_names out = Z.of_nat (length rows)
  /\ length (Rf.columns out) = length types
  /\ forall j t,
       types !! j = Some t ->
       exists v,
         Rf.columns out !! j = Some v
         /\ Rf.TYPEOF v = sxp_of t
         /\ Rf.elements v = column_of t j rows
         /\ Rf.class v = class_of t.

(** The statements run by [s_.execute()] in a trace, in order. *)
Definition executed_statement (e : event) : option string :=
  match e with EvExecute sql => Some sql | _ => None end.

Definition executed_statements (t : list event) : list string :=
  omap executed_statement t.

Definition is_materializer_event (e : event) : bool :=
  match e with
  | EvCreate _ | EvResize _ | EvWarning _ _ => true
  | _ => false
  end.

(** The cursor a fetch on the handle reads: the result it has, or the one
    the statement yields when it is run first. *)
Definition cursor_of (o : odbc_result) : nanodbc.result :=
  match r_ o with Some r => r | None => s_ o end.

(** *** What the statement receives for one column *)

(** The column an event binds, if it is a binding. *)
Definition event_column (e : event) : option nat :=
  match e with
  | EvBindInteger c _ _ | EvBindDouble c _ _ | EvBindStrings c _ _
  | EvBindTimestamps c _ _ _ => Some c
  | _ => None
  end.

(** The buffers selected by [f] in a trace, one after the other. *)
Definition gather {A} (f : event -> option (list A)) (t : list event)
  : list A :=
  concat (omap f t).

(** The value buffers and the null mask bound for column [col]. *)
Definition integers_of (col : nat) (e : event) : option (list Z) :=
  match e with
  | EvBindInteger c values _ => if decide (c = col) then Some values else None
  | _ => None
  end.

Definition doubles_of (col : nat) (e : event) : option (list R.double) :=
  match e with
  | EvBindDouble c values _ => if decide (c = col) then Some values else None
  | _ => None
  end.

Definition strings_of (col : nat) (e : event) : option (list string) :=
  match e with
  | EvBindStrings c values _ => if decide (c = col) then Some values else None
  | _ => None
  end.

Definition timestamps_of (col : nat) (e : event)
  : option (list nanodbc.slot) :=
  match e with
  | EvBindTimestamps c values _ _ =>
      if decide (c = col) then Some values else None
  | _ => None
  end.

Definition nulls_of (col : nat) (e : event) : option (list bool) :=
  match e with
  | EvBindDouble c _ nulls | EvBindStrings c _ nulls
  | EvBindTimestamps c _ _ nulls =>
      if decide (c = col) then Some nulls else None
  | _ => None
  end.

(** [f] selects bindings of column [col] only. *)
Definition selects_column {A} (col : nat) (f : event -> option (list A))
  : Prop :=
  forall e v, f e = Some v -> event_column e = Some col.

(** The outcome and the events of the batch loop from [start], for any
    table: the batches follow each other until [nrows] is reached or a
    column cannot be bound.  [fuel] bounds the number of batches. *)
Fixpoint batches_from (types : list r_type) (df : R.DataFrame) (sql : string)
         (ncols nrows start fuel : nat) : outcome unit * list event :=
  match fuel with
  | O => (Ok tt, [])
  | S fuel =>
      if decide (start < nrows)%nat then
        let size := batch_rows nrows start in
        match bound_columns types df start size (seq 0 ncols) with
        | (Ok _, t) =>
            let '(r, rest) :=
              batches_from types df sql ncols nrows (start + batch_size) fuel in
            (r, EvStatement sql :: t ++ [EvExecuteBatch size] ++ rest)
        | (Stop msg, t) => (Stop msg, EvStatement sql :: t)
        end
      else (Ok tt, [])
  end.

(** The events of the batch loop, and the events an insert can cause. *)
Definition is_batch_event (e : event) : bool :=
  match e with
  | EvStatement _ | EvExecuteBatch _ => true
  | other => is_bind other
  end.

Definition is_insert_event (e : event) : bool :=
  match e with
  | EvTransaction | EvStatement _ | EvExecuteBatch _ | EvCommit => true
  | other => is_bind other
  end.

(** The warning of the default case of [column_types] for a column of
    type code [type], and the one of the default case of the column loop of
    [result_to_dataframe] for a column of semantic type [t]: the same
    format, with the type and the name of the column as its arguments. *)
Definition unknown_datatype (type : nanodbc.datatype) (name : string)
  : event :=
  EvWarning "Unknown field type (%s) in column %s"
            [arg_datatype type; arg_string name].

Definition unknown_r_type (t : r_type) (name : string) : event :=
  EvWarning "Unknown field type (%s) in column %s"
            [arg_r_type t; arg_string name].

Definition is_SQL_other (type : nanodbc.datatype) : bool :=
  match type with nanodbc.SQL_other _ => true | _ => false end.

Definition is_binary (type : nanodbc.datatype) : bool :=
  match type with
  | nanodbc.SQL_BINARY | nanodbc.SQL_VARBINARY
  | nanodbc.SQL_LONGVARBINARY => true
  | _ => false
  end.

(** The warnings for the columns of a result whose type code is unknown,
    and the warnings for its binary columns, in column order. *)
Definition type_warnings (r : nanodbc.result) : list event :=
  (fun c => unknown_datatype c.2 c.1)
    <$> List.filter (fun c => is_SQL_other c.2) (nanodbc.metadata r).

Definition row_warnings (r : nanodbc.result) : list event :=
  (fun c => unknown_r_type raw_t c.1)
    <$> List.filter (fun c => is_binary c.2) (nanodbc.metadata r).

(** The warning the column loop of [result_to_dataframe] raises at one
    column. *)
Definition cell_warnings (types : list r_type) (names : list string)
           (col : nat) : list event :=
  match types !!! col with
  | raw_t | logical_t => [unknown_r_type (types !!! col) (names !!! col)]
  | _ => []
  end.

(** The name of the native type of a column [column_types] has no case
    for, and the first such name among the columns of a table. *)
Definition unsupported_type (x : R.RObject) : option string :=
  match R.payload x with R.OTHERSXP name => Some name | _ => None end.

Definition first_unsupported (columns : list R.RObject) : option string :=
  head (omap unsupported_type columns).

(** *** Running computations *)

Lemma bind_Ok {A B} (m : M A) (k : A -> M B) o a o1 t1 :
  m o = (Ok a, o1, t1) ->
  bind m k o = ((k a o1).1.1, (k a o1).1.2, t1 ++ (k a o1).2).
Proof. unfold bind. intros ->. by destruct (k a o1) as [[? ?] ?]. Qed.

Lemma bind_Stop {A B} (m : M A) (k : A -> M B) o msg o1 t1 :
  m o = (Stop msg, o1, t1) -> bind m k o = (Stop msg, o1, t1).
Proof. unfold bind. by intros ->. Qed.

(** A loop whose body keeps an invariant, raises nothing and causes no
    event does the same as a whole. *)
Lemma for_each_invariant (I : nat -> odbc_result -> Prop) body m :
  forall k o,
    I k o ->
    (forall i o1, (k <= i < k + m)%nat -> I i o1 ->
                  exists o2, body i o1 = (Ok tt, o2, []) /\ I (S i) o2) ->
    exists o', for_each (seq k m) body o = (Ok tt, o', []) /\ I (k + m)%nat o'.
Proof.
  induction m as [|m IH]; intros k o HI Hbody; simpl.
  - exists o. by rewrite Nat.add_0_r.
  - destruct (Hbody k o) as (o1 & Hrun & HI1); [lia | done |].
    destruct (IH (S k) o1) as (o2 & Hrest & HI2); [done | |].
    { intros i o3 Hi. apply Hbody. lia. }
    exists o2. split.
    + erewrite bind_Ok by exact Hrun. by rewrite Hrest.
    + by replace (k + S m)%nat with (S k + m)%nat by lia.
Qed.

(** *** The outbound path: what one bind sends *)

Lemma scan_length {A B} `{Inhabited A} (f : A -> B) vector start size :
  length (scan f vector start size) = size.
Proof. unfold scan. by rewrite length_fmap, length_seq. Qed.

Lemma scan_lookup {A B} `{Inhabited A} (f : A -> B) vector start size i :
  (i < size)%nat ->
  scan f vector start size !! i = Some (f (vector !!! (start + i)%nat)).
Proof.
  intros Hi. unfold scan. rewrite list_lookup_fmap, lookup_seq_lt by done.
  done.
Qed.

Lemma scan_S {A B} `{Inhabited A} (f : A -> B) vector start size :
  scan f vector start (S size)
  = scan f vector start size ++ [f (vector !!! (start + size)%nat)].
Proof. unfold scan. by rewrite seq_S, fmap_app. Qed.

Lemma mask_at_step (mask : list bool) (i size : nat) :
  length mask = size -> (i < size)%nat ->
  mask_at mask (S i) size
  = if (mask !!! i : bool) then <[i := true]> (mask_at mask i size)
    else mask_at mask i size.
Proof.
  intros Hlen Hi. unfold mask_at.
  destruct (lookup_lt_is_Some_2 mask i) as [b Hb]; [lia|].
  rewrite (list_lookup_total_correct _ _ _ Hb).
  rewrite (take_S_r _ _ _ Hb), <- app_assoc.
  replace (size - i)%nat with (S (size - S i)) by lia. simpl.
  assert (length (take i mask) = i) as Hti by (rewrite length_take; lia).
  destruct b; [|done].
  rewrite insert_app_r_alt by lia. by rewrite Hti, Nat.sub_diag.
Qed.

Lemma mask_at_0 (mask : list bool) size : mask_at mask 0 size = replicate size false.
Proof. unfold mask_at. by rewrite take_0, Nat.sub_0_r. Qed.

Lemma mask_at_end (mask : list bool) size :
  length mask = size -> mask_at mask size size = mask.
Proof.
  intros <-. unfold mask_at.
  by rewrite firstn_all, Nat.sub_diag, app_nil_r.
Qed.

Lemma bind_double_spec data column start size o :
  let vector := R.REAL (R.columns data !!! column) in
  exists o',
    bind_double data column start size o
    = (Ok tt, o',
       [EvBindDouble column (window vector start size)
                     (scan R.ISNA vector start size)])
    /\ same_members o o'
    /\ strings_ o' = strings_ o /\ times_ o' = times_ o.
Proof.
  intros vector. unfold bind_double. fold vector.
  set (mask := scan R.ISNA vector start size).
  assert (length mask = size) as Hlen by apply scan_length.
  pose (I := fun (i : nat) (o1 : odbc_result) =>
               o1 = set_nulls_ (<[column := mask_at mask i size]> (nulls_ o)) o).
  destruct (for_each_invariant I
              (fun i => if R.ISNA (vector !!! (start + i)%nat)
                        then mark_null column i else ret tt)
              size 0%nat
              (set_nulls_ (<[column := replicate size false]> (nulls_ o)) o))
    as (o' & Hloop & HI).
  { unfold I. by rewrite mask_at_0. }
  { intros i o1 Hi ->. eexists. split; [|unfold I; reflexivity].
    rewrite mask_at_step by lia.
    rewrite (list_lookup_total_correct mask i (R.ISNA (vector !!! (start + i)%nat)))
      by (apply scan_lookup; lia).
    destruct (R.ISNA _); [|done].
    unfold mark_null, modify, set_nulls_; simpl.
    by rewrite lookup_total_insert_eq, insert_insert_eq. }
  simpl in HI. unfold I in HI. rewrite mask_at_end in HI by done. subst o'.
  exists (set_nulls_ (<[column := mask]> (nulls_ o)) o). split; [|done].
  erewrite bind_Ok by reflexivity. simpl.
  unfold for_range. erewrite bind_Ok by exact Hloop. simpl.
  by rewrite lookup_total_insert_eq.
Qed.

Lemma take_scan_S {A B} `{Inhabited A} (f : A -> B) vector start size i :
  (i < size)%nat ->
  take (S i) (scan f vector start size)
  = take i (scan f vector start size) ++ [f (vector !!! (start + i)%nat)].
Proof. intros Hi. by apply take_S_r, scan_lookup. Qed.

Lemma bind_string_spec data column start size o :
  let vector := R.STRING (R.columns data !!! column) in
  exists o',
    bind_string data column start size o
    = (Ok tt, o',
       [EvBindStrings column
          (strings_ o !!! column ++ scan R.Rf_translateCharUTF8 vector start size)
          (scan is_NA_STRING vector start size)])
    /\ same_members o o'
    /\ same_buffers_but column o o'.
Proof.
  intros vector. unfold bind_string. fold vector.
  set (mask := scan is_NA_STRING vector start size).
  set (vals := scan R.Rf_translateCharUTF8 vector start size).
  assert (length mask = size) as Hlen by apply scan_length.
  pose (I := fun (i : nat) (o1 : odbc_result) =>
               nulls_ o1 = <[column := mask_at mask i size]> (nulls_ o)
               /\ strings_ o1 !!! column = strings_ o !!! column ++ take i vals
               /\ times_ o1 = times_ o
               /\ same_members o o1
               /\ forall j, j ≠ column -> strings_ o1 !! j = strings_ o !! j).
  destruct (for_each_invariant I
              (fun i =>
                 let value := vector !!! (start + i)%nat in
                 (match value with
                  | R.NA_STRING => mark_null column i
                  | _ => ret tt
                  end) ;;
                 push_string column (R.Rf_translateCharUTF8 value))
              size 0%nat
              (set_nulls_ (<[column := replicate size false]> (nulls_ o)) o))
    as (o' & Hloop & HI).
  { unfold I; simpl. rewrite mask_at_0, take_0, app_nil_r. done. }
  { intros i o1 Hi (Hn & Hs & Ht & (? & ? & ?) & Hother).
    eexists. split.
    - unfold bind. instantiate (1 :=
        set_strings_
          (<[column := strings_ o1 !!! column
                       ++ [R.Rf_translateCharUTF8 (vector !!! (start + i)%nat)]]>
             (strings_ o1))
          (set_nulls_ (<[column := mask_at mask (S i) size]> (nulls_ o)) o1)).
      rewrite mask_at_step by lia.
      rewrite (list_lookup_total_correct mask i
                 (is_NA_STRING (vector !!! (start + i)%nat)))
        by (apply scan_lookup; lia).
      destruct (vector !!! (start + i)%nat) eqn:Hv; simpl.
      + unfold set_strings_, set_nulls_; simpl.
        by rewrite Hn, lookup_total_insert_eq, insert_insert_eq.
      + unfold set_strings_, set_nulls_; simpl. by rewrite <- Hn.
    - unfold I; simpl. rewrite lookup_total_insert_eq, Hs.
      unfold vals. rewrite take_scan_S by lia. rewrite <- app_assoc.
      repeat split; try done.
      intros j Hj. rewrite lookup_insert_ne by done. by apply Hother. }
  simpl in HI. destruct HI as (Hn & Hs & Ht & Hm & Hother).
  rewrite mask_at_end in Hn by done.
  rewrite firstn_all2 in Hs by (unfold vals; rewrite scan_length; lia).
  exists o'. split; [|split; [done|]].
  - erewrite bind_Ok by reflexivity. simpl.
    unfold for_range. erewrite bind_Ok by exact Hloop. simpl.
    by rewrite Hn, Hs, lookup_total_insert_eq.
  - intros j Hj. by rewrite Ht, Hother.
Qed.

(** The loop shared by [bind_datetime] and [bind_date]; [conv] is what is
    applied to the element to obtain [value]. *)
Lemma push_times_spec (conv : R.double -> R.double) vector column start size o :
  let mask := scan (fun x => R.ISNA (conv x)) vector start size in
  let vals := scan (fun x => time_slot (conv x)) vector start size in
  exists o',
    for_each (seq 0 size)
      (fun i =>
         let value := conv (vector !!! (start + i)%nat) in
         ts <- (if R.ISNA value
                then mark_null column i ;; ret nanodbc.uninitialised
                else ret (nanodbc.assigned (as_timestamp value))) ;;
         push_time column ts)
      (set_nulls_ (<[column := replicate size false]> (nulls_ o)) o)
    = (Ok tt, o', [])
    /\ nulls_ o' !!! column = mask
    /\ times_ o' !!! column = times_ o !!! column ++ vals
    /\ same_members o o'
    /\ same_buffers_but column o o'.
Proof.
  intros mask vals.
  assert (length mask = size) as Hlen by apply scan_length.
  pose (I := fun (i : nat) (o1 : odbc_result) =>
               nulls_ o1 = <[column := mask_at mask i size]> (nulls_ o)
               /\ times_ o1 !!! column = times_ o !!! column ++ take i vals
               /\ strings_ o1 = strings_ o
               /\ same_members o o1
               /\ forall j, j ≠ column -> times_ o1 !! j = times_ o !! j).
  edestruct (for_each_invariant I) as (o' & Hloop & HI);
    [| |exists o'; split; [exact Hloop|]].
  { unfold I; simpl. rewrite mask_at_0, take_0, app_nil_r. done. }
  { intros i o1 Hi (Hn & Hs & Ht & (? & ? & ?) & Hother).
    eexists. split.
    - unfold bind. instantiate (1 :=
        set_times_
          (<[column := times_ o1 !!! column
                       ++ [time_slot (conv (vector !!! (start + i)%nat))]]>
             (times_ o1))
          (set_nulls_ (<[column := mask_at mask (S i) size]> (nulls_ o)) o1)).
      rewrite mask_at_step by lia.
      rewrite (list_lookup_total_correct mask i
                 (R.ISNA (conv (vector !!! (start + i)%nat))))
        by (unfold mask; rewrite scan_lookup by lia; done).
      unfold time_slot.
      destruct (R.ISNA (conv (vector !!! (start + i)%nat))); simpl.
      + unfold set_times_, set_nulls_; simpl.
        by rewrite Hn, lookup_total_insert_eq, insert_insert_eq.
      + unfold set_times_, set_nulls_; simpl. by rewrite <- Hn.
    - unfold I; simpl. rewrite lookup_total_insert_eq, Hs.
      unfold vals. rewrite take_scan_S by lia. rewrite <- app_assoc.
      repeat split; try done.
      intros j Hj. rewrite lookup_insert_ne by done. by apply Hother. }
  simpl in HI. destruct HI as (Hn & Hs & Ht & Hm & Hother).
  rewrite mask_at_end in Hn by done.
  rewrite firstn_all2 in Hs by (unfold vals; rewrite scan_length; lia).
  repeat split; try apply Hm; try done.
  - by rewrite Hn, lookup_total_insert_eq.
  - by rewrite Ht.
  - by apply Hother.
Qed.

Lemma bind_datetime_spec data column start size o :
  let vector := R.REAL (R.columns data !!! column) in
  exists o',
    bind_datetime data column start size o
    = (Ok tt, o',
       [EvBindTimestamps column
          (times_ o !!! column ++ scan time_slot vector start size) size
          (scan R.ISNA vector start size)])
    /\ same_members o o'
    /\ same_buffers_but column o o'.
Proof.
  intros vector.
  destruct (push_times_spec (fun x => x) vector column start size o)
    as (o' & Hloop & Hn & Ht & Hm & Hother).
  exists o'. split; [|done].
  unfold bind_datetime. fold vector.
  erewrite bind_Ok by reflexivity. simpl.
  unfold for_range. erewrite bind_Ok by exact Hloop. simpl.
  by rewrite Hn, Ht.
Qed.

Lemma bind_date_spec data column start size o :
  let vector := R.REAL (R.columns data !!! column) in
  exists o',
    bind_date data column start size o
    = (Ok tt, o',
       [EvBindTimestamps column
          (times_ o !!! column
           ++ scan (fun x => time_slot (R.mul_const x seconds_in_day_))
                   vector start size)
          size
          (scan (fun x => R.ISNA (R.mul_const x seconds_in_day_))
                vector start size)])
    /\ same_members o o'
    /\ same_buffers_but column o o'.
Proof.
  intros vector.
  destruct (push_times_spec (fun x => R.mul_const x seconds_in_day_)
              vector column start size o)
    as (o' & Hloop & Hn & Ht & Hm & Hother).
  exists o'. split; [|done].
  unfold bind_date. fold vector.
  erewrite bind_Ok by reflexivity. simpl.
  unfold for_range. erewrite bind_Ok by exact Hloop. simpl.
  by rewrite Hn, Ht.
Qed.

(** *** The outbound path: one batch *)

Lemma bound_is_Some types df start size col :
  is_Some (bound types df start size col) <-> bindable (types !!! col) = true.
Proof.
  unfold bound. destruct (types !!! col); simpl; split;
    intros H; try done; try by inversion H.
Qed.

Lemma same_members_refl o : same_members o o.
Proof. done. Qed.

Lemma same_members_trans o1 o2 o3 :
  same_members o1 o2 -> same_members o2 o3 -> same_members o1 o3.
Proof. unfold same_members. intros (-> & -> & ->) (-> & -> & ->). done. Qed.

Lemma bind_column_spec types df start size col o :
  fresh_from col o ->
  exists o',
    bind_column types df start size col o
    = match bound types df start size col with
      | Some e => (Ok tt, o', [e])
      | None => (Stop "Not yet implemented!", o', [])
      end
    /\ same_members o o' /\ fresh_from (S col) o'.
Proof.
  intros Hfresh.
  assert (strings_ o !!! col = []) as Hs.
  { rewrite lookup_total_alt. by rewrite (proj1 (Hfresh col ltac:(lia))). }
  assert (times_ o !!! col = []) as Ht.
  { rewrite lookup_total_alt. by rewrite (proj2 (Hfresh col ltac:(lia))). }
  assert (forall o', same_buffers_but col o o' -> fresh_from (S col) o') as Hkeep.
  { intros o' Hb j Hj. destruct (Hb j ltac:(lia)) as [-> ->].
    apply Hfresh. lia. }
  unfold bind_column, bound. destruct (types !!! col).
  - exists o. split; [done|]. split; [done|]. by apply Hkeep.
  - exists o. split; [done|]. split; [done|]. by apply Hkeep.
  - destruct (bind_double_spec df col start size o) as (o' & -> & Hm & Hs' & Ht').
    exists o'. split; [done|]. split; [done|].
    apply Hkeep. intros j _. by rewrite Hs', Ht'.
  - destruct (bind_string_spec df col start size o) as (o' & -> & Hm & Hb).
    exists o'. rewrite Hs. split; [done|]. split; [done|]. by apply Hkeep.
  - exists o. split; [done|]. split; [done|]. by apply Hkeep.
  - destruct (bind_date_spec df col start size o) as (o' & -> & Hm & Hb).
    exists o'. rewrite Ht. split; [done|]. split; [done|]. by apply Hkeep.
  - destruct (bind_datetime_spec df col start size o) as (o' & -> & Hm & Hb).
    exists o'. rewrite Ht. split; [done|]. split; [done|]. by apply Hkeep.
Qed.

Lemma bind_columns_spec types df start size m :
  forall k o,
    fresh_from k o ->
    exists o',
      for_each (seq k m) (bind_column types df start size) o
      = ((bound_columns types df start size (seq k m)).1, o',
         (bound_columns types df start size (seq k m)).2)
      /\ same_members o o'.
Proof.
  induction m as [|m IH]; intros k o Hfresh; simpl.
  - by exists o.
  - destruct (bind_column_spec types df start size k o Hfresh)
      as (o1 & Hrun & Hm1 & Hfresh1).
    destruct (bound types df start size k) as [e|].
    + destruct (IH (S k) o1 Hfresh1) as (o2 & Hrest & Hm2).
      exists o2. split; [|by eapply same_members_trans].
      erewrite bind_Ok by exact Hrun. rewrite Hrest.
      by destruct (bound_columns types df start size (seq (S k) m)).
    + exists o1. split; [|done]. by erewrite bind_Stop by exact Hrun.
Qed.

Lemma insert_batch_spec types df ncols nrows start o :
  exists o',
    insert_batch types df ncols nrows start o
    = (let '(r, t) := bound_columns types df start (batch_rows nrows start)
                                    (seq 0 ncols) in
       (r, o',
        EvStatement (sql_ o) :: t
        ++ match r with
           | Ok _ => [EvExecuteBatch (batch_rows nrows start)]
           | Stop _ => []
           end))
    /\ sql_ o' = sql_ o.
Proof.
  unfold insert_batch.
  set (size := ((if (nrows <? start + batch_size)%nat
                 then nrows else (start + batch_size)%nat) - start)%nat).
  assert (size = batch_rows nrows start) as ->.
  { unfold size, batch_rows. destruct (Nat.ltb_spec nrows (start + batch_size)); lia. }
  set (o0 := set_nulls_ ∅ (set_times_ ∅ (set_strings_ ∅ o))).
  destruct (bind_columns_spec types df start (batch_rows nrows start) ncols 0%nat o0)
    as (o' & Hrun & Hm).
  { intros j _. unfold o0; simpl. by rewrite !lookup_empty. }
  exists o'. split; [|by destruct Hm as (_ & _ & ->)].
  do 3 (erewrite bind_Ok by reflexivity; simpl).
  unfold for_range. fold o0.
  destruct (bound_columns types df start (batch_rows nrows start) (seq 0 ncols))
    as [[[]|msg] t] eqn:Hb; simpl in Hrun.
  - erewrite bind_Ok by exact Hrun. simpl. done.
  - erewrite bind_Stop by exact Hrun. simpl. by rewrite app_nil_r.
Qed.

(** *** The outbound path: the batches *)

Lemma insert_batches_step types df ncols nrows start :
  insert_batches types df ncols nrows start
  = if decide (start < nrows)%nat
    then insert_batch types df ncols nrows start ;;
         insert_batches types df ncols nrows (start + batch_size)%nat
    else ret tt.
Proof.
  rewrite insert_batches_equation_1.
  by destruct (decide (start < nrows)%nat).
Qed.

Lemma batch_sizes_lookup n k :
  (k * batch_size < n)%nat ->
  batch_sizes n !! k = Some (batch_rows n (k * batch_size)).
Proof.
  unfold batch_sizes, batch_rows, batch_size. intros Hk.
  pose proof (Nat.div_mod_eq n 1024) as Hn.
  pose proof (Nat.mod_upper_bound n 1024 ltac:(lia)) as Hr.
  destruct (decide (k < n / 1024)%nat) as [Hlt|Hge].
  - rewrite lookup_app_l by (rewrite length_replicate; lia).
    rewrite lookup_replicate_2 by lia. f_equal. lia.
  - assert (k = (n / 1024)%nat) as -> by lia.
    rewrite lookup_app_r by (rewrite length_replicate; lia).
    rewrite length_replicate, Nat.sub_diag.
    destruct (Nat.eqb_spec (n mod 1024) 0); [lia|].
    transitivity (Some (n mod 1024)%nat); [done|]. f_equal. lia.
Qed.

Lemma batch_sizes_length n k :
  (n <= k * batch_size)%nat -> (length (batch_sizes n) <= k)%nat.
Proof.
  unfold batch_sizes, batch_size. intros Hk.
  pose proof (Nat.div_mod_eq n 1024) as Hn.
  rewrite length_app, length_replicate.
  destruct (Nat.eqb_spec (n mod 1024) 0); cbn [length]; lia.
Qed.

Lemma batch_ranges_drop_lt n k :
  (k * batch_size < n)%nat ->
  drop k (batch_ranges n)
  = ((k * batch_size)%nat, batch_rows n (k * batch_size))
      :: drop (S k) (batch_ranges n).
Proof.
  intros Hk. apply drop_S. unfold batch_ranges.
  rewrite list_lookup_imap, batch_sizes_lookup by done. done.
Qed.

Lemma batch_ranges_drop_ge n k :
  (n <= k * batch_size)%nat -> drop k (batch_ranges n) = [].
Proof.
  intros Hk. apply drop_ge. unfold batch_ranges.
  rewrite length_imap. by apply batch_sizes_length.
Qed.

Lemma bound_columns_Ok types df start size cols :
  Forall (fun col => bindable (types !!! col) = true) cols ->
  (bound_columns types df start size cols).1 = Ok tt.
Proof.
  induction 1 as [|col cols Hcol _ IH]; simpl; [done|].
  destruct (proj2 (bound_is_Some types df start size col) Hcol) as [e ->].
  by destruct (bound_columns types df start size cols).
Qed.

Lemma bound_columns_Stop types df start size cols :
  Exists (fun col => bindable (types !!! col) = false) cols ->
  (bound_columns types df start size cols).1 = Stop "Not yet implemented!".
Proof.
  induction 1 as [col cols Hcol|col cols _ IH]; simpl.
  - destruct (bound types df start size col) eqn:Hb; [|done].
    assert (bindable (types !!! col) = true)
      by (eapply (proj1 (bound_is_Some _ _ _ _ _)); eauto).
    congruence.
  - destruct (bound types df start size col); [|done].
    by destruct (bound_columns types df start size cols).
Qed.

Lemma insert_batches_spec types df nrows o :
  Forall (fun col => bindable (types !!! col) = true)
         (seq 0 (length (R.columns df))) ->
  forall m k o1,
    (length (batch_ranges nrows) - k = m)%nat ->
    sql_ o1 = sql_ o ->
    exists o',
      insert_batches types df (length (R.columns df)) nrows (k * batch_size) o1
      = (Ok tt, o',
         concat (batch_trace types df (sql_ o) <$> drop k (batch_ranges nrows)))
      /\ sql_ o' = sql_ o.
Proof.
  intros Hok m. induction m as [|m IH]; intros k o1 Hm Hsql;
    rewrite insert_batches_step;
    destruct (decide (k * batch_size < nrows)%nat) as [Hlt|Hge].
  - pose proof (batch_sizes_lookup nrows k Hlt) as Hl.
    apply lookup_lt_Some in Hl. unfold batch_ranges in Hm.
    rewrite length_imap in Hm. lia.
  - exists o1. rewrite batch_ranges_drop_ge by lia. done.
  - destruct (insert_batch_spec types df (length (R.columns df)) nrows
                (k * batch_size) o1) as (o2 & Hrun & Hsql2).
    pose proof (bound_columns_Ok types df (k * batch_size)
                  (batch_rows nrows (k * batch_size)) _ Hok) as Hr.
    destruct (bound_columns types df (k * batch_size)
                (batch_rows nrows (k * batch_size))
                (seq 0 (length (R.columns df)))) as [r t] eqn:Hb.
    simpl in Hr. subst r.
    destruct (IH (S k) o2) as (o3 & Hrest & Hsql3); [lia|congruence|].
    exists o3. split; [|done].
    erewrite bind_Ok by exact Hrun.
    replace (k * batch_size + batch_size)%nat with (S k * batch_size)%nat by lia.
    rewrite Hrest. cbn [fst snd].
    rewrite (batch_ranges_drop_lt nrows k) by done.
    rewrite fmap_cons. cbn [concat].
    unfold batch_trace at 2. cbn [fst snd]. by rewrite Hb, Hsql.
  - exists o1. rewrite batch_ranges_drop_ge by lia. done.
Qed.

(** *** The outbound path: the whole insert *)

Lemma column_type_mapped x :
  mapped x = true ->
  exists t, column_type_of x = Some t
            /\ forall o, column_type x o = (Ok t, o, []).
Proof.
  unfold mapped, column_type_of, column_type.
  destruct (R.payload x); intros Hx; try done; eauto.
  eexists; split; [done|]. intros o.
  by destruct (R.inherits x "Date"), (R.inherits x "POSIXct").
Qed.

Lemma column_type_unmapped x :
  mapped x = false -> exists msg, forall o, column_type x o = (Stop msg, o, []).
Proof.
  unfold mapped, column_type. destruct (R.payload x); intros Hx; try done.
  by eexists.
Qed.

Lemma column_types_from_mapped columns :
  forallb mapped columns = true ->
  forall types o,
    column_types_from columns types o
    = (Ok (types ++ omap column_type_of columns), o, []).
Proof.
  induction columns as [|x columns IH]; simpl; intros Hall types o.
  - by rewrite app_nil_r.
  - apply andb_prop in Hall as [Hx Hall].
    destruct (column_type_mapped x Hx) as (t & -> & Hrun).
    erewrite bind_Ok by apply Hrun. rewrite IH by done. simpl.
    by rewrite <- app_assoc.
Qed.

Lemma column_types_from_unmapped columns :
  forallb mapped columns = false ->
  forall types o,
    exists msg, column_types_from columns types o = (Stop msg, o, []).
Proof.
  induction columns as [|x columns IH]; simpl; intros Hall types o; [done|].
  destruct (mapped x) eqn:Hx.
  - destruct (column_type_mapped x Hx) as (t & _ & Hrun).
    destruct (IH Hall (types ++ [t]) o) as [msg Hrest].
    exists msg. erewrite bind_Ok by apply Hrun. by rewrite Hrest.
  - destruct (column_type_unmapped x Hx) as [msg Hrun].
    exists msg. by erewrite bind_Stop by apply Hrun.
Qed.

Lemma omap_column_type_of_length columns :
  forallb mapped columns = true ->
  length (omap column_type_of columns) = length columns.
Proof.
  induction columns as [|x columns IH]; simpl; intros Hall; [done|].
  apply andb_prop in Hall as [Hx Hall].
  destruct (column_type_mapped x Hx) as (t & -> & _). simpl.
  f_equal. by apply IH.
Qed.

Lemma omap_column_type_of_lookup columns col x :
  forallb mapped columns = true ->
  columns !! col = Some x ->
  omap column_type_of columns !! col = column_type_of x.
Proof.
  revert col. induction columns as [|y columns IH]; intros col Hall Hx; [done|].
  simpl in Hall. apply andb_prop in Hall as [Hy Hall].
  destruct (column_type_mapped y Hy) as (t & Ht & _).
  simpl. rewrite Ht. destruct col as [|col]; simpl in *.
  - by inversion Hx; subst.
  - by apply IH.
Qed.

Lemma supported_mapped x : supported x = true -> mapped x = true.
Proof. unfold supported, mapped. by destruct (R.payload x). Qed.

Lemma supported_bindable x t :
  column_type_of x = Some t -> bindable t = supported x.
Proof.
  unfold column_type_of, supported.
  destruct (R.payload x); intros Ht; inversion Ht; subst; try done.
  by destruct (R.inherits x "Date"), (R.inherits x "POSIXct").
Qed.

Lemma forallb_supported_mapped columns :
  forallb supported columns = true -> forallb mapped columns = true.
Proof.
  rewrite !forallb_forall. intros H x Hx. by apply supported_mapped, H.
Qed.

Lemma bound_is_bind types df start size col e :
  bound types df start size col = Some e -> is_bind e = true.
Proof.
  unfold bound. destruct (types !!! col); intros He; inversion He; done.
Qed.

Lemma bound_columns_binds types df start size cols :
  Forall (fun e => is_bind e = true) (bound_columns types df start size cols).2.
Proof.
  induction cols as [|col cols IH]; simpl; [done|].
  destruct (bound types df start size col) as [e|] eqn:He; [|done].
  destruct (bound_columns types df start size cols) as [r t]. simpl in *.
  constructor; [by eapply bound_is_bind|done].
Qed.

Lemma executed_batches_binds t :
  Forall (fun e => is_bind e = true) t -> executed_batches t = [].
Proof.
  induction 1 as [|e t He _ IH]; [done|].
  unfold executed_batches in *. destruct e; try done; simpl; by rewrite IH.
Qed.




Lemma supported_columns_bindable df :
  forallb supported (R.columns df) = true ->
  Forall (fun col => bindable (omap column_type_of (R.columns df) !!! col) = true)
         (seq 0 (length (R.columns df))).
Proof.
  intros Hall. pose proof (forallb_supported_mapped _ Hall) as Hmapped.
  apply Forall_seq. intros col [_ Hcol]. simpl in Hcol.
  destruct (lookup_lt_is_Some_2 (R.columns df) col Hcol) as [x Hx].
  pose proof (omap_column_type_of_lookup _ _ _ Hmapped Hx) as Hty.
  destruct (column_type_mapped x) as (t & Ht & _).
  { apply supported_mapped. rewrite forallb_forall in Hall.
    apply Hall. eapply list_elem_of_In, list_elem_of_lookup_2, Hx. }
  rewrite Ht in Hty. rewrite (list_lookup_total_correct _ _ _ Hty).
  rewrite (supported_bindable x t Ht). rewrite forallb_forall in Hall.
  apply Hall. eapply list_elem_of_In, list_elem_of_lookup_2, Hx.
Qed.

Lemma unsupported_column_not_bindable df :
  forallb mapped (R.columns df) = true ->
  forallb supported (R.columns df) = false ->
  Exists (fun col => bindable (omap column_type_of (R.columns df) !!! col) = false)
         (seq 0 (length (R.columns df))).
Proof.
  intros Hmapped Hsome.
  assert (exists x, In x (R.columns df) /\ supported x = false) as (x & Hin & Hx).
  { destruct (forallb supported (R.columns df)) eqn:E; [done|].
    clear Hsome Hmapped. induction (R.columns df) as [|y l IH]; [done|].
    simpl in E. destruct (supported y) eqn:Hy.
    - destruct (IH E) as (x & ? & ?). exists x. split; [by right|done].
    - exists y. split; [by left|done]. }
  apply list_elem_of_In, list_elem_of_lookup in Hin as [col Hcol].
  apply Exists_exists. exists col. split.
  - apply elem_of_seq. apply lookup_lt_Some in Hcol. lia.
  - pose proof (omap_column_type_of_lookup _ _ _ Hmapped Hcol) as Hty.
    destruct (column_type_mapped x) as (t & Ht & _).
    { rewrite forallb_forall in Hmapped. apply Hmapped.
      eapply list_elem_of_In, list_elem_of_lookup_2, Hcol. }
    rewrite Ht in Hty. rewrite (list_lookup_total_correct _ _ _ Hty).
    by rewrite (supported_bindable x t Ht).
Qed.


(** C1, as amended.  When the table has a column that the switch of
    [insert_dataframe] cannot bind (anything but an integer, real or
    character vector) and has at least one row, or has a column whose native
    type [column_types] has no case for, the insert ends in an exception:
    no batch is executed and the transaction is not committed.  In the
    second case the exception is raised before the transaction is opened. *)
Theorem insert_dataframe_unsupported df o :
  forallb supported (R.columns df) = false ->
  (0 < R.nrows df)%nat \/ forallb mapped (R.columns df) = false ->
  exists msg o' t,
    insert_dataframe df o = (Stop msg, o', t)
    /\ (EvCommit ∉ t)
    /\ executed_batches t = []
    /\ (forallb mapped (R.columns df) = false -> t = [] /\ o' = o).
Proof.
  intros Hsome Hrows.
  destruct (forallb mapped (R.columns df)) eqn:Hmapped.
  - destruct Hrows as [Hrows|?]; [|done].
    pose proof (unsupported_column_not_bindable df Hmapped Hsome) as Hex.
    set (types := omap column_type_of (R.columns df)) in *.
    destruct (insert_batch_spec types df (length (R.columns df)) (R.nrows df)
                0%nat o) as (o' & Hbatch & _).
    pose proof (bound_columns_Stop types df 0%nat (batch_rows (R.nrows df) 0) _ Hex)
      as Hstop.
    pose proof (bound_columns_binds types df 0%nat (batch_rows (R.nrows df) 0)
                  (seq 0 (length (R.columns df)))) as Hbinds.
    destruct (bound_columns types df 0%nat (batch_rows (R.nrows df) 0)
                (seq 0 (length (R.columns df)))) as [r t].
    simpl in Hstop, Hbinds. subst r.
    exists "Not yet implemented!", o', (EvTransaction :: EvStatement (sql_ o) :: t ++ []).
    split; [|split; [|split; [|done]]].
    + unfold insert_dataframe, column_types.
      erewrite bind_Ok by (by apply column_types_from_mapped).
      cbn [fst snd app]. fold types.
      erewrite bind_Ok by reflexivity. cbn [fst snd app].
      erewrite bind_Stop; [done|].
      rewrite insert_batches_step.
      destruct (decide (0 < R.nrows df)%nat); [|done].
      by erewrite bind_Stop by exact Hbatch.
    + rewrite app_nil_r. intros Hin.
      apply elem_of_cons in Hin as [?|Hin]; [done|].
      apply elem_of_cons in Hin as [?|Hin]; [done|].
      rewrite Forall_forall in Hbinds. by apply Hbinds in Hin.
    + rewrite app_nil_r.
      change (executed_batches (EvTransaction :: EvStatement (sql_ o) :: t))
        with (executed_batches t).
      by apply executed_batches_binds.
  - destruct (column_types_from_unmapped _ Hmapped [] o) as [msg Hrun].
    exists msg, o, []. split; [|split; [|done]].
    + unfold insert_dataframe, column_types.
      by erewrite bind_Stop by exact Hrun.
    + by intros ?%elem_of_nil.
Qed.

(** *** The outbound path: null values *)

Lemma ISNA_mul_const x c : R.ISNA (R.mul_const x c) = R.ISNA x.
Proof. by destruct x. Qed.




Lemma window_length {A} (vector : list A) start size :
  (start + size <= length vector)%nat ->
  length (window vector start size) = size.
Proof. intros H. unfold window. rewrite length_take, length_drop. lia. Qed.

Lemma bound_columns_lookup types df start size cols :
  Forall (fun col => bindable (types !!! col) = true) cols ->
  Forall2 (fun col e => bound types df start size col = Some e)
          cols (bound_columns types df start size cols).2.
Proof.
  induction 1 as [|col cols Hcol _ IH]; simpl; [constructor|].
  destruct (proj2 (bound_is_Some types df start size col) Hcol) as [e He].
  rewrite He.
  destruct (bound_columns types df start size cols) as [r t].
  by constructor.
Qed.

Lemma bound_shape df start size col x t e :
  R.columns df !! col = Some x ->
  R.LENGTH x = R.nrows df ->
  column_type_of x = Some t ->
  (start + size <= R.nrows df)%nat ->
  omap column_type_of (R.columns df) !! col = Some t ->
  bound (omap column_type_of (R.columns df)) df start size col = Some e ->
  bind_shape size col t e.
Proof.
  intros Hx Hlen Ht Hsize Hty. unfold bound.
  rewrite (list_lookup_total_correct _ _ _ Hty).
  rewrite (list_lookup_total_correct _ _ _ Hx).
  unfold column_type_of in Ht. unfold R.LENGTH in Hlen.
  unfold R.INTEGER, R.REAL, R.STRING.
  destruct (R.payload x) eqn:Hp; inversion Ht; subst t; clear Ht.
  - done.
  - intros [= <-]. simpl. rewrite window_length by lia. done.
  - destruct (R.inherits x "Date"); [|destruct (R.inherits x "POSIXct")];
      intros [= <-]; simpl; rewrite ?scan_length, ?window_length by lia; done.
  - intros [= <-]. simpl. by rewrite !scan_length.
  - done.
Qed.

Lemma scan_window {A B} `{Inhabited A} (f : A -> B) vector start size :
  (start + size <= length vector)%nat ->
  scan f vector start size = f <$> window vector start size.
Proof.
  intros Hlen. apply list_eq. intros i. unfold window.
  destruct (decide (i < size)%nat) as [Hi|Hi].
  - rewrite scan_lookup by done.
    rewrite list_lookup_fmap, lookup_take_lt by done. rewrite lookup_drop.
    destruct (lookup_lt_is_Some_2 vector (start + i)) as [x Hx]; [lia|].
    by rewrite Hx, (list_lookup_total_correct _ _ _ Hx).
  - rewrite !lookup_ge_None_2; [done| |].
    + rewrite length_fmap, length_take. lia.
    + rewrite scan_length. lia.
Qed.

Lemma bound_content df start size col x t e :
  R.columns df !! col = Some x ->
  R.LENGTH x = R.nrows df ->
  column_type_of x = Some t ->
  (start + size <= R.nrows df)%nat ->
  omap column_type_of (R.columns df) !! col = Some t ->
  bound (omap column_type_of (R.columns df)) df start size col = Some e ->
  bind_content t x start size e.
Proof.
  intros Hx Hlen Ht Hsize Hty. unfold bound.
  rewrite (list_lookup_total_correct _ _ _ Hty).
  rewrite (list_lookup_total_correct _ _ _ Hx).
  unfold column_type_of in Ht. unfold R.LENGTH in Hlen.
  unfold R.INTEGER, R.REAL, R.STRING.
  destruct (R.payload x) eqn:Hp; inversion Ht; subst t; clear Ht.
  - done.
  - intros [= <-]. simpl. unfold R.INTEGER. by rewrite Hp.
  - destruct (R.inherits x "Date"); [|destruct (R.inherits x "POSIXct")];
      intros [= <-]; simpl; unfold R.REAL; rewrite Hp;
      rewrite ?scan_window by lia; split; try done.
    apply list_fmap_ext. intros _ d _. apply ISNA_mul_const.
  - intros [= <-]. simpl. unfold R.STRING. rewrite Hp.
    by rewrite !scan_window by lia.
  - done.
Qed.

(** C8.  In every batch of a well-formed table whose columns can all be
    bound (with fewer than [2 ^ 15] columns, and Date and DateTime columns
    that hold only NA or values [as_timestamp] converts), each column is
    bound once, in column order, between the creation of the statement and
    its execution, and by type: an Integer column with its values and the
    fixed sentry [NA_INTEGER] (which lies below every R integer) and no
    mask; a Double, String, Date or DateTime column with a null mask of
    exactly as many entries as the batch has rows and a value buffer of the
    same length, so with an entry for the null positions too.  The mask
    marks the null positions: its entry is [true] exactly where the element
    of the column is NA, and the value buffer holds the value of each
    element ([bind_content]). *)
Theorem bind_null_representation df o start :
  R.well_formed df ->
  forallb supported (R.columns df) = true ->
  short_columns df ->
  forallb temporal_ok (R.columns df) = true ->
  (start < R.nrows df)%nat ->
  let types := omap column_type_of (R.columns df) in
  let s := batch_rows (R.nrows df) start in
  exists o' binds,
    insert_batch types df (length (R.columns df)) (R.nrows df) start o
    = (Ok tt, o', EvStatement (sql_ o) :: binds ++ [EvExecuteBatch s])
    /\ length binds = length (R.columns df)
    /\ (forall col t, types !! col = Some t ->
          exists e x,
            binds !! col = Some e
            /\ R.columns df !! col = Some x
            /\ bind_shape s col t e
            /\ bind_content t x start s e
            /\ (t = integer_t <-> nulls_of col e = None))
    /\ R.NA_INTEGER < - 2147483647.
Proof.
  intros Hwf Hall Hshort Hvalues Hstart types s.
  pose proof (forallb_supported_mapped _ Hall) as Hmapped.
  pose proof (supported_columns_bindable df Hall) as Hbindable.
  destruct (insert_batch_spec types df (length (R.columns df)) (R.nrows df)
              start o) as (o' & Hrun & _).
  pose proof (bound_columns_Ok types df start s _ Hbindable) as Hok.
  pose proof (bound_columns_lookup types df start s _ Hbindable) as Hlook.
  fold s in Hrun.
  destruct (bound_columns types df start s (seq 0 (length (R.columns df))))
    as [r binds].
  simpl in Hok, Hlook. subst r.
  exists o', binds. split; [exact Hrun|].
  split; [by rewrite <- (Forall2_length _ _ _ Hlook), length_seq|].
  split; [|done].
  intros col t Hty.
  assert (col < length (R.columns df))%nat as Hcol.
  { apply lookup_lt_Some in Hty. unfold types in Hty.
    by rewrite omap_column_type_of_length in Hty. }
  destruct (lookup_lt_is_Some_2 (R.columns df) col Hcol) as [x Hx].
  destruct (Forall2_lookup_l _ _ _ col col Hlook) as (e & He & Hbound).
  { by rewrite lookup_seq_lt. }
  assert (R.LENGTH x = R.nrows df) as Hlen.
  { unfold R.well_formed in Hwf. rewrite Forall_forall in Hwf.
    apply Hwf. eapply list_elem_of_lookup_2, Hx. }
  assert (column_type_of x = Some t) as Hxt
    by (rewrite <- (omap_column_type_of_lookup _ _ _ Hmapped Hx); exact Hty).
  assert (start + s <= R.nrows df)%nat as Hs by (unfold s, batch_rows; lia).
  pose proof (bound_shape df start s col x t e Hx Hlen Hxt Hs Hty Hbound)
    as Hshape.
  pose proof (bound_content df start s col x t e Hx Hlen Hxt Hs Hty Hbound)
    as Hcontent.
  exists e, x. do 4 (split; [done|]).
  destruct t, e; try done; simpl in Hshape; destruct Hshape as (-> & _);
    simpl; case_decide; try done; by split.
Qed.

(** *** The inbound path: one cell *)

Lemma lookup_total_alter_retrieved (cells : list nanodbc.cell) col :
  nanodbc.indicator (cells !!! col) = false ->
  alter nanodbc.retrieved col cells !!! col = nanodbc.retrieved (cells !!! col).
Proof.
  intros Hc. destruct (cells !! col) as [c|] eqn:Hl.
  - rewrite (list_lookup_total_correct _ _ _ Hl).
    apply list_lookup_total_correct.
    by rewrite list_lookup_alter_eq, Hl.
  - rewrite list_lookup_total_alt, Hl in Hc. done.
Qed.

Lemma string_cell_value vals col :
  (string_cell vals col).1 = string_value (nanodbc.cells vals !!! col).
Proof.
  unfold string_cell, string_value. simpl.
  destruct (nanodbc.indicator (nanodbc.cells vals !!! col)) eqn:Hi; simpl;
    [done|].
  rewrite lookup_total_alter_retrieved by done. simpl.
  by destruct (nanodbc.null_data (nanodbc.cells vals !!! col)).
Qed.

Lemma string_cell_accesses vals col :
  nanodbc.accesses (string_cell vals col).2
  = nanodbc.accesses vals
    ++ (if nanodbc.indicator (nanodbc.cells vals !!! col)
        then [nanodbc.acc_is_null col]
        else [nanodbc.acc_is_null col; nanodbc.acc_get col;
              nanodbc.acc_is_null col]).
Proof.
  unfold string_cell. simpl.
  destruct (nanodbc.indicator (nanodbc.cells vals !!! col)) eqn:Hi; simpl;
    [done|].
  rewrite lookup_total_alter_retrieved by done. simpl.
  destruct (nanodbc.null_data (nanodbc.cells vals !!! col)); simpl;
    by rewrite <- ?app_assoc.
Qed.

(** C9.  In the [string_t] case of the column loop, for the cell [c] of the
    current row at a column of string type, and a row index inside the
    column of the table: the null test is made on the cell before the value
    is retrieved and, when it says not null, the value is retrieved and the
    test is made again, on the indicator the retrieval has updated.  The
    element written into the table at that row and column is the missing
    string when either test says null, so also for a cell whose null status
    only shows after the retrieval, and the text otherwise.  The other
    columns of the table are left as they are and no warning is raised. *)
Theorem string_cell_tests_null_twice types names row out vals w col v :
  types !! col = Some string_t ->
  Rf.columns out !! col = Some v ->
  0 <= row < Z.of_nat (length (Rf.elements v)) ->
  let c := nanodbc.cells vals !!! col in
  let written := (fill_cell types names row (out, vals, w) col).1.1 in
  let vals' := (fill_cell types names row (out, vals, w) col).1.2 in
  written = assign out col row (Rf.character (string_value c))
  /\ (exists v',
        Rf.columns written !! col = Some v'
        /\ Rf.elements v' !! Z.to_nat row
           = Some (Rf.character (string_value c))
        /\ length (Rf.elements v') = length (Rf.elements v))
  /\ (forall j, j ≠ col -> Rf.columns written !! j = Rf.columns out !! j)
  /\ (fill_cell types names row (out, vals, w) col).2 = w
  /\ nanodbc.accesses vals'
     = nanodbc.accesses vals
       ++ (if nanodbc.indicator c
           then [nanodbc.acc_is_null col]
           else [nanodbc.acc_is_null col; nanodbc.acc_get col;
                 nanodbc.acc_is_null col])
  /\ (if nanodbc.indicator c then True
      else (nanodbc.is_null (nanodbc.get_string_at vals col).2 col).1
           = nanodbc.null_data c)
  /\ (string_value c = R.NA_STRING
      <-> nanodbc.indicator c = true \/ nanodbc.null_data c = true)
  /\ (nanodbc.indicator c = false -> nanodbc.null_data c = true ->
      exists v',
        Rf.columns written !! col = Some v'
        /\ Rf.elements v' !! Z.to_nat row = Some (Rf.character R.NA_STRING)).
Proof.
  intros Hty Hv Hrow c written vals'.
  assert (fill_cell types names row (out, vals, w) col
          = (assign out col row (Rf.character (string_cell vals col).1),
             (string_cell vals col).2, w)) as Hrun.
  { unfold fill_cell. rewrite (list_lookup_total_correct _ _ _ Hty).
    by destruct (string_cell vals col). }
  assert (written = assign out col row (Rf.character (string_value c)))
    as Hwritten
    by (unfold written; by rewrite Hrun, string_cell_value).
  assert (Rf.columns written !! col
          = Some (Rf.store row (Rf.character (string_value c)) v)) as Hcol.
  { rewrite Hwritten. unfold assign. simpl.
    by rewrite list_lookup_alter_eq, Hv. }
  assert (Rf.elements (Rf.store row (Rf.character (string_value c)) v)
            !! Z.to_nat row
          = Some (Rf.character (string_value c))) as Helem.
  { unfold Rf.store. simpl. apply list_lookup_insert_eq. lia. }
  split; [exact Hwritten|].
  split.
  { eexists. split; [exact Hcol|]. split; [exact Helem|].
    unfold Rf.store. simpl. by rewrite length_insert. }
  split.
  { intros j Hj. rewrite Hwritten. unfold assign. simpl.
    by rewrite list_lookup_alter_ne. }
  split; [by rewrite Hrun|].
  split; [unfold vals'; rewrite Hrun; apply string_cell_accesses|].
  split.
  { destruct (nanodbc.indicator c) eqn:Hi; [done|]. simpl.
    by rewrite lookup_total_alter_retrieved. }
  split.
  { unfold string_value.
    destruct (nanodbc.indicator c), (nanodbc.null_data c); simpl;
      split; auto; try done; by intros [?|?]. }
  intros Hi Hnull. eexists. split; [exact Hcol|].
  rewrite Helem. unfold string_value. by rewrite Hi, Hnull.
Qed.

Lemma fill_cell_spec types names row out vals w col :
  exists vals' w' f,
    fill_cell types names row (out, vals, w) col
    = ({| Rf.columns :=
            alter (filled types vals row col) col (Rf.columns out);
          Rf.names := Rf.names out;
          Rf.class_attr := Rf.class_attr out;
          Rf.row_names := Rf.row_names out |}, vals', w ++ w')
    /\ nanodbc.cells vals' = alter f col (nanodbc.cells vals)
    /\ Forall (fun e => is_warning e = true) w'.
Proof.
  unfold fill_cell, filled, stored, assign.
  destruct (types !!! col); simpl.
  - eexists vals, [EvWarning _ _], (fun c => c).
    rewrite !(list_alter_id (fun x => x)) by (intros; reflexivity). destruct out. repeat split; auto.
  - exists (nanodbc.accessed vals (nanodbc.acc_get col)), [], (fun c => c).
    rewrite !(list_alter_id (fun x => x)) by (intros; reflexivity). rewrite app_nil_r. done.
  - exists (nanodbc.accessed vals (nanodbc.acc_get col)), [], (fun c => c).
    rewrite !(list_alter_id (fun x => x)) by (intros; reflexivity). rewrite app_nil_r. done.
  - rewrite <- (string_cell_value vals col).
    unfold string_cell. simpl.
    destruct (nanodbc.indicator (nanodbc.cells vals !!! col)) eqn:Hi; simpl.
    + eexists _, [], (fun c => c). rewrite !(list_alter_id (fun x => x)) by (intros; reflexivity).
      rewrite app_nil_r. done.
    + destruct (nanodbc.indicator (alter nanodbc.retrieved col (nanodbc.cells vals) !!! col));
        eexists _, [], nanodbc.retrieved; rewrite app_nil_r; done.
  - eexists vals, [EvWarning _ _], (fun c => c).
    rewrite !(list_alter_id (fun x => x)) by (intros; reflexivity). destruct out. repeat split; auto.
  - unfold time_cell, time_value. simpl.
    destruct (nanodbc.indicator (nanodbc.cells vals !!! col)); simpl.
    + eexists _, [], (fun c => c). rewrite !(list_alter_id (fun x => x)) by (intros; reflexivity).
      rewrite app_nil_r. done.
    + eexists _, [], nanodbc.retrieved. rewrite app_nil_r. done.
  - unfold time_cell, time_value. simpl.
    destruct (nanodbc.indicator (nanodbc.cells vals !!! col)); simpl.
    + eexists _, [], (fun c => c). rewrite !(list_alter_id (fun x => x)) by (intros; reflexivity).
      rewrite app_nil_r. done.
    + eexists _, [], nanodbc.retrieved. rewrite app_nil_r. done.
Qed.

(** *** The inbound path: one row *)

Lemma filled_ext types vals vals' row j :
  nanodbc.cells vals' !! j = nanodbc.cells vals !! j ->
  filled types vals' row j = filled types vals row j.
Proof.
  intros H. unfold filled. by rewrite !list_lookup_total_alt, H.
Qed.

Lemma fill_cells_spec types names row out vals c :
  exists out' vals' w,
    foldl (fill_cell types names row) (out, vals, []) (seq 0 c)
    = (out', vals', w)
    /\ (forall j, Rf.columns out' !! j
                  = if decide (j < c)%nat
                    then filled types vals row j <$> Rf.columns out !! j
                    else Rf.columns out !! j)
    /\ Rf.names out' = Rf.names out
    /\ Rf.class_attr out' = Rf.class_attr out
    /\ Rf.row_names out' = Rf.row_names out
    /\ (forall j, (c <= j)%nat ->
          nanodbc.cells vals' !! j = nanodbc.cells vals !! j)
    /\ Forall (fun e => is_warning e = true) w.
Proof.
  induction c as [|c IH].
  - exists out, vals, []. simpl. repeat split; auto.
  - destruct IH as (out1 & vals1 & w1 & Hrun & Hcols & Hn & Hc & Hr & Hcells & Hw).
    rewrite seq_S, foldl_app, Hrun. cbn [foldl Nat.add].
    destruct (fill_cell_spec types names row out1 vals1 w1 c)
      as (vals2 & w2 & f & -> & Hcells2 & Hw2).
    eexists _, vals2, (w1 ++ w2). split; [done|]. simpl.
    split; [|split; [done|split; [done|split; [done|split]]]].
    + intros j. rewrite list_lookup_alter.
      rewrite (filled_ext types vals vals1 row c) by (apply Hcells; lia).
      rewrite !Hcols.
      repeat case_decide; try lia; try done. by subst.
    + intros j Hj. rewrite Hcells2, list_lookup_alter_ne by lia.
      apply Hcells. lia.
    + by apply Forall_app.
Qed.

Lemma fill_row_spec types names ncols row out vals :
  (length (Rf.columns out) <= ncols)%nat ->
  exists w,
    fill_row types names ncols row out vals
    = ({| Rf.columns := imap (filled types vals row) (Rf.columns out);
          Rf.names := Rf.names out;
          Rf.class_attr := Rf.class_attr out;
          Rf.row_names := Rf.row_names out |}, w)
    /\ Forall (fun e => is_warning e = true) w.
Proof.
  intros Hlen. unfold fill_row.
  destruct (fill_cells_spec types names row out vals ncols)
    as (out' & vals' & w & -> & Hcols & Hn & Hc & Hr & _ & Hw).
  exists w. split; [|done]. f_equal.
  destruct out' as [cols' ? ? ?]. simpl in *. subst. f_equal.
  apply list_eq. intros j. rewrite Hcols, list_lookup_imap.
  case_decide; [done|].
  rewrite lookup_ge_None_2 by lia. done.
Qed.

(** *** The inbound path: the table while it is filled *)

Lemma create_column_alloc t n : create_column t n = Rf.allocVector (sxp_of t) n.
Proof. by destruct t. Qed.

Lemma column_of_raw j rows :
  column_of raw_t j rows = replicate (length rows) Rf.R_NilValue.
Proof. unfold column_of. induction rows; simpl; [done|]. by f_equal. Qed.

Lemma stored_None t c : t ≠ logical_t -> stored t c = None -> t = raw_t.
Proof. by destruct t. Qed.

Lemma create_dataframe_inv types names n :
  0 <= n -> table_inv types names [] n (create_dataframe types names n).
Proof.
  intros Hn. unfold table_inv, create_dataframe. simpl.
  rewrite length_fmap. do 4 (split; [done|]).
  intros j t v Ht Hv. rewrite list_lookup_fmap, Ht in Hv. simpl in Hv.
  injection Hv as <-. rewrite create_column_alloc.
  unfold col_inv, Rf.allocVector. cbn [Rf.TYPEOF Rf.elements Rf.class].
  rewrite length_replicate. split; [done|]. split; [done|].
  split; [done|]. split; [by intros ->|done].
Qed.

Lemma resize_dataframe_grow types names done n n' out :
  table_inv types names done n out ->
  Z.of_nat (length done) <= n <= n' ->
  table_inv types names done n' (resize_dataframe out n').
Proof.
  intros (Hna & Hcl & Hrn & Hlen & Hcols) Hn.
  unfold table_inv, resize_dataframe. simpl. rewrite length_fmap.
  do 4 (split; [done|]).
  intros j t v Ht Hv. rewrite list_lookup_fmap in Hv.
  destruct (Rf.columns out !! j) as [v0|] eqn:Hv0; [|done].
  simpl in Hv. injection Hv as <-.
  destruct (Hcols j t v0 Ht Hv0) as (Hty & Hl & Htake & Hraw & _).
  unfold col_inv, Rf.lengthgets. cbn [Rf.TYPEOF Rf.elements Rf.class].
  split; [done|]. split; [|split; [|split; [|done]]].
  - rewrite length_app, length_take, length_replicate. lia.
  - rewrite take_app_le by (rewrite length_take; lia).
    rewrite take_take. rewrite Nat.min_l by lia. done.
  - intros ->. rewrite Hraw by done. rewrite Hty. simpl.
    rewrite take_replicate, length_replicate, <- replicate_add.
    f_equal. lia.
Qed.

Lemma resize_dataframe_shrink types names done n out :
  table_inv types names done n out ->
  Z.of_nat (length done) <= n ->
  table_inv types names done (Z.of_nat (length done))
            (resize_dataframe out (Z.of_nat (length done))).
Proof.
  intros (Hna & Hcl & Hrn & Hlen & Hcols) Hn.
  unfold table_inv, resize_dataframe. simpl. rewrite length_fmap.
  do 4 (split; [done|]).
  intros j t v Ht Hv. rewrite list_lookup_fmap in Hv.
  destruct (Rf.columns out !! j) as [v0|] eqn:Hv0; [|done].
  simpl in Hv. injection Hv as <-.
  destruct (Hcols j t v0 Ht Hv0) as (Hty & Hl & Htake & Hraw & _).
  unfold col_inv, Rf.lengthgets. cbn [Rf.TYPEOF Rf.elements Rf.class].
  rewrite Nat2Z.id.
  split; [done|]. split; [|split; [|split; [|done]]].
  - rewrite length_app, length_take, length_replicate. lia.
  - rewrite take_app_le by (rewrite length_take; lia).
    rewrite take_take. rewrite Nat.min_l by lia. done.
  - intros ->. rewrite Hraw by done. rewrite Hty. simpl.
    rewrite take_replicate, length_replicate, <- replicate_add.
    f_equal. lia.
Qed.

Lemma take_S_insert {A} (l : list A) i x :
  (i < length l)%nat -> take (S i) (<[i := x]> l) = take i l ++ [x].
Proof.
  intros Hi. rewrite (take_S_r _ _ x) by (by apply list_lookup_insert_eq).
  by rewrite take_insert_ge.
Qed.

Lemma fill_row_inv types names done n out vals :
  Forall (fun t => t ≠ logical_t) types ->
  table_inv types names done n out ->
  Z.of_nat (length done) < n ->
  table_inv types names (done ++ [vals]) n
    {| Rf.columns :=
         imap (filled types vals (Z.of_nat (length done))) (Rf.columns out);
       Rf.names := Rf.names out;
       Rf.class_attr := Rf.class_attr out;
       Rf.row_names := Rf.row_names out |}.
Proof.
  intros Hlgl (Hna & Hcl & Hrn & Hlen & Hcols) Hn.
  unfold table_inv. simpl. rewrite length_imap.
  split; [done|]. split; [done|]. split; [done|]. split; [done|].
  intros j t v Ht Hv. rewrite list_lookup_imap in Hv.
  destruct (Rf.columns out !! j) as [v0|] eqn:Hv0; [|done].
  simpl in Hv. injection Hv as <-.
  destruct (Hcols j t v0 Ht Hv0) as (Hty & Hl & Htake & Hraw & Hclass).
  assert (t ≠ logical_t) as Hnl.
  { rewrite Forall_forall in Hlgl. apply Hlgl.
    eapply list_elem_of_lookup_2, Ht. }
  unfold filled. rewrite (list_lookup_total_correct _ _ _ Ht).
  unfold col_inv, column_of. rewrite length_app, fmap_app. simpl.
  replace (length done + 1)%nat with (S (length done)) by lia.
  destruct (stored t (nanodbc.cells vals !!! j)) as [e|] eqn:Hst; simpl.
  - rewrite length_insert, Nat2Z.id.
    split; [done|]. split; [done|]. split; [|split; [|done]].
    + rewrite take_S_insert by lia. unfold column_of in Htake.
      rewrite Htake. unfold materialized. by rewrite Hst.
    + intros ->. done.
  - pose proof (stored_None _ _ Hnl Hst) as ->.
    split; [done|]. split; [done|]. split; [|done].
    rewrite Hraw by done. rewrite take_replicate.
    rewrite Nat.min_l by lia.
    change (S (length done)) with (1 + length done)%nat.
    rewrite Nat.add_comm, replicate_add.
    pose proof (column_of_raw j done) as Hc. unfold column_of in Hc.
    rewrite Hc. unfold materialized. by rewrite Hst.
Qed.

(** *** The inbound path: the row loop *)

Lemma wrap_int_small z : - 2 ^ 31 <= z < 2 ^ 31 -> wrap_int z = z.
Proof. intros Hz. unfold wrap_int. rewrite Z.mod_small; lia. Qed.

Lemma capacity_bounds n : capacity n -> 100 <= n <= max_capacity.
Proof.
  intros (j & Hj & ->). unfold max_capacity.
  assert (2 ^ 0 <= 2 ^ Z.of_nat j <= 2 ^ 24) as H.
  { split; apply Z.pow_le_mono_r; lia. }
  change (2 ^ 0) with 1 in H. change (2 ^ 24) with 16777216 in H. lia.
Qed.

Lemma capacity_double n : capacity n -> n < max_capacity -> capacity (n * 2).
Proof.
  intros (j & Hj & ->) Hlt. unfold max_capacity in Hlt.
  assert (j ≠ 24%nat) as Hne.
  { intros ->. change (2 ^ Z.of_nat 24) with 16777216 in Hlt. lia. }
  exists (S j). split; [lia|].
  rewrite Nat2Z.inj_succ, Z.pow_succ_r by lia. lia.
Qed.

Lemma resizes_app t1 t2 : resizes (t1 ++ t2) = resizes t1 ++ resizes t2.
Proof. apply omap_app. Qed.

Lemma resizes_warnings w :
  Forall (fun e => is_warning e = true) w -> resizes w = [].
Proof.
  induction 1 as [|e w He _ IH]; [done|].
  unfold resizes in *. destruct e; try done; simpl; by rewrite IH.
Qed.

Lemma creations_app t1 t2 : creations (t1 ++ t2) = creations t1 ++ creations t2.
Proof. apply omap_app. Qed.

Lemma creations_warnings w :
  Forall (fun e => is_warning e = true) w -> creations w = [].
Proof.
  induction 1 as [|e w He _ IH]; [done|].
  unfold creations in *. destruct e; try done; simpl; by rewrite IH.
Qed.

Lemma doublings_S n k : doublings n (S k) = n * 2 :: doublings (n * 2) k.
Proof.
  unfold doublings. cbn [seq]. rewrite fmap_cons.
  apply (f_equal2 cons); [change (Z.of_nat 1) with 1; lia|].
  rewrite <- fmap_S_seq, <- list_fmap_compose.
  apply list_fmap_ext. intros _ i _. simpl.
  rewrite Nat2Z.inj_succ, Z.pow_succ_r by lia. lia.
Qed.

(** One row written into a table that has room for it. *)
Lemma fill_row_step types names (metadata : list (string * nanodbc.datatype))
      done n out vals :
  Forall (fun t => t ≠ logical_t) types ->
  length types = length metadata ->
  table_inv types names done n out ->
  Z.of_nat (length done) < n ->
  exists out' w,
    fill_row types names (length metadata) (Z.of_nat (length done)) out vals
    = (out', w)
    /\ table_inv types names (done ++ [vals]) n out'
    /\ Forall (fun e => is_warning e = true) w.
Proof.
  intros Hlgl Hlen Hinv Hn.
  destruct (fill_row_spec types names (length metadata)
              (Z.of_nat (length done)) out vals) as (w & Hrun & Hw).
  { destruct Hinv as (_ & _ & _ & Hl & _). lia. }
  eexists _, w. split; [exact Hrun|]. split; [|done].
  by apply fill_row_inv.
Qed.

Lemma fetch_rows_unbounded types names n_max metadata :
  n_max < 0 ->
  Forall (fun t => t ≠ logical_t) types ->
  length types = length metadata ->
  forall pending done position n out,
    table_inv types names done n out ->
    Z.of_nat (length done) <= n ->
    capacity n ->
    Z.of_nat (length done + length pending) <= max_capacity ->
    exists st t k,
      fetch_rows types names n_max metadata pending position n
                 (Z.of_nat (length done)) out = (st, t)
      /\ fs_row st = Z.of_nat (length done + length pending)
      /\ fs_n st = n * 2 ^ Z.of_nat k
      /\ fs_row st <= fs_n st
      /\ capacity (fs_n st)
      /\ (k = 0%nat
          \/ fs_n st < 2 * Z.of_nat (length done + length pending))
      /\ table_inv types names (done ++ pending) (fs_n st) (fs_out st)
      /\ fs_r st
         = nanodbc.mk_result metadata [] (position + length pending)
      /\ resizes t = doublings n k
      /\ creations t = [].
Proof.
  intros Hneg Hlgl Hlen.
  induction pending as [|vals rest IH];
    intros done position n out Hinv Hrow Hcap Hmax.
  - eexists _, [], 0%nat. cbn [fetch_rows length fs_row fs_n fs_out fs_r].
    rewrite !Nat.add_0_r, app_nil_r. change (2 ^ Z.of_nat 0) with 1.
    split; [done|]. cbn [fs_row fs_n fs_out fs_r].
    split; [done|]. split; [lia|]. split; [done|].
    split; [done|]. split; [by left|]. done.
  - pose proof (capacity_bounds n Hcap) as Hb. unfold max_capacity in *.
    cbn [fetch_rows]. simpl length in Hmax.
    destruct (Z.leb_spec n (Z.of_nat (length done))) as [Hfull|Hroom].
    + destruct (Z.ltb_spec n_max 0) as [_|?]; [|lia].
      assert (capacity (n * 2)) as Hcap2
        by (apply capacity_double; unfold max_capacity; [done|lia]).
      pose proof (capacity_bounds _ Hcap2) as Hb2. unfold max_capacity in Hb2.
      rewrite (wrap_int_small (n * 2)) by lia.
      destruct (fill_row_step types names metadata done (n * 2)
                  (resize_dataframe out (n * 2)) vals Hlgl Hlen)
        as (out1 & w & -> & Hinv1 & Hw);
        [eapply resize_dataframe_grow; [exact Hinv|lia] | lia |].
      rewrite (wrap_int_small (Z.of_nat (length done) + 1)) by lia.
      replace (Z.of_nat (length done) + 1)
        with (Z.of_nat (length (done ++ [vals])))
        by (rewrite length_app; simpl; lia).
      destruct (IH (done ++ [vals]) (S position) (n * 2) out1 Hinv1)
        as (st & t & k & -> & Hr & Hn & Hle & Hc & Hk & Hi & Hres & Ht & Hcr).
      { rewrite length_app. simpl. lia. }
      { done. }
      { rewrite length_app. simpl. lia. }
      rewrite length_app in Hr, Hk. simpl in Hr, Hk.
      exists st, ([EvResize (n * 2)] ++ w ++ t), (S k). cbn [length].
      split; [done|]. split; [rewrite Hr; f_equal; lia|].
      split; [rewrite Hn, Nat2Z.inj_succ, Z.pow_succ_r by lia; lia|].
      split; [done|]. split; [done|]. split.
      { right. destruct Hk as [->|Hk].
        - rewrite Hn. change (2 ^ Z.of_nat 0) with 1. lia.
        - simpl. lia. }
      split; [by rewrite <- app_assoc in Hi|].
      split; [rewrite Hres; f_equal; simpl; lia|].
      split.
      * rewrite !resizes_app, (resizes_warnings w Hw), Ht, doublings_S. done.
      * rewrite !creations_app, (creations_warnings w Hw), Hcr. done.
    + destruct (fill_row_step types names metadata done n out vals Hlgl Hlen)
        as (out1 & w & -> & Hinv1 & Hw); [done|lia|].
      rewrite (wrap_int_small (Z.of_nat (length done) + 1)) by lia.
      replace (Z.of_nat (length done) + 1)
        with (Z.of_nat (length (done ++ [vals])))
        by (rewrite length_app; simpl; lia).
      destruct (IH (done ++ [vals]) (S position) n out1 Hinv1)
        as (st & t & k & -> & Hr & Hn & Hle & Hc & Hk & Hi & Hres & Ht & Hcr).
      { rewrite length_app. simpl. lia. }
      { done. }
      { rewrite length_app. simpl. lia. }
      rewrite length_app in Hr, Hk. simpl in Hr, Hk.
      exists st, ([] ++ w ++ t), k. cbn [length].
      split; [done|]. split; [rewrite Hr; f_equal; lia|].
      split; [done|]. split; [done|]. split; [done|]. split.
      { destruct Hk as [->|Hk]; [by left|right]. simpl. lia. }
      split; [by rewrite <- app_assoc in Hi|].
      split; [rewrite Hres; f_equal; simpl; lia|].
      split.
      * rewrite !resizes_app, (resizes_warnings w Hw), Ht. done.
      * rewrite !creations_app, (creations_warnings w Hw), Hcr. done.
Qed.

Lemma fetch_rows_bounded types names n_max metadata :
  0 <= n_max < 2 ^ 31 ->
  Forall (fun t => t ≠ logical_t) types ->
  length types = length metadata ->
  forall pending done position out,
    table_inv types names done n_max out ->
    Z.of_nat (length done) <= n_max ->
    let room := (Z.to_nat n_max - length done)%nat in
    exists st t,
      fetch_rows types names n_max metadata pending position n_max
                 (Z.of_nat (length done)) out = (st, t)
      /\ fs_n st = n_max
      /\ fs_row st
         = Z.of_nat (length done + Nat.min room (length pending))
      /\ table_inv types names (done ++ take room pending) n_max (fs_out st)
      /\ fs_r st
         = nanodbc.mk_result metadata (drop (S room) pending)
             (position + Nat.min (S room) (length pending))
      /\ resizes t = []
      /\ creations t = [].
Proof.
  intros Hmax Hlgl Hlen.
  induction pending as [|vals rest IH]; intros done position out Hinv Hrow room.
  - eexists _, []. cbn [fetch_rows length]. split; [done|].
    cbn [fs_row fs_n fs_out fs_r].
    rewrite take_nil, drop_nil, app_nil_r, !Nat.min_0_r, !Nat.add_0_r. done.
  - cbn [fetch_rows].
    destruct (Z.leb_spec n_max (Z.of_nat (length done))) as [Hfull|Hroom].
    + destruct (Z.ltb_spec n_max 0) as [?|_]; [lia|].
      assert (room = 0%nat) as -> by (unfold room; lia).
      eexists _, []. split; [done|]. cbn [fs_row fs_n fs_out fs_r length].
      rewrite take_0, app_nil_r, Nat.add_0_r.
      split; [done|]. split; [done|]. split; [done|].
      split; [|done]. f_equal. simpl. lia.
    + destruct (fill_row_step types names metadata done n_max out vals Hlgl Hlen)
        as (out1 & w & -> & Hinv1 & Hw); [done|lia|].
      rewrite (wrap_int_small (Z.of_nat (length done) + 1)) by lia.
      replace (Z.of_nat (length done) + 1)
        with (Z.of_nat (length (done ++ [vals])))
        by (rewrite length_app; simpl; lia).
      destruct (IH (done ++ [vals]) (S position) out1 Hinv1)
        as (st & t & -> & Hn & Hr & Hi & Hres & Ht & Hcr).
      { rewrite length_app. simpl. lia. }
      rewrite length_app in Hr, Hi, Hres. cbn [length] in Hr, Hi, Hres.
      assert (room = S (Z.to_nat n_max - (length done + 1))) as Hroom'
        by (unfold room; lia).
      rewrite Hroom'.
      exists st, ([] ++ w ++ t). cbn [length take drop].
      split; [done|]. split; [done|].
      split; [rewrite Hr; f_equal; lia|].
      split; [by rewrite <- app_assoc in Hi|].
      split; [rewrite Hres; f_equal; lia|].
      split.
      * rewrite !resizes_app, (resizes_warnings w Hw), Ht. done.
      * rewrite !creations_app, (creations_warnings w Hw), Hcr. done.
Qed.

(** *** The inbound path: the types of a result *)

Lemma result_column_types_length r :
  length (result_column_types r).1 = length (nanodbc.metadata r).
Proof. unfold result_column_types. simpl. by rewrite length_fmap. Qed.

Lemma result_column_types_not_logical r :
  Forall (fun t => t ≠ logical_t) (result_column_types r).1.
Proof.
  unfold result_column_types. simpl. apply Forall_fmap, Forall_forall.
  intros [name type] _. simpl. by destruct type.
Qed.

Lemma result_column_types_warnings r :
  Forall (fun e => is_warning e = true) (result_column_types r).2.
Proof.
  unfold result_column_types. simpl.
  induction (nanodbc.metadata r) as [|[name type] l IH]; simpl; [done|].
  apply Forall_app. split; [|done]. destruct type; simpl; auto.
Qed.

Lemma add_classes_holds types names rows out :
  table_inv types names rows (Z.of_nat (length rows)) out ->
  holds_rows types names rows (add_classes out types).
Proof.
  intros (Hna & Hcl & Hrn & Hlen & Hcols).
  unfold holds_rows, add_classes. simpl. rewrite length_imap.
  do 4 (split; [done|]).
  intros j t Ht.
  destruct (lookup_lt_is_Some_2 (Rf.columns out) j) as [v Hv].
  { rewrite Hlen. by eapply lookup_lt_Some. }
  destruct (Hcols j t v Ht Hv) as (Hty & Hl & Htake & _ & Hc).
  rewrite Nat2Z.id in Hl. rewrite <- Hl, firstn_all in Htake.
  exists (add_class t v). rewrite list_lookup_imap, Hv. simpl.
  rewrite (list_lookup_total_correct _ _ _ Ht). split; [done|].
  destruct t; simpl; auto.
Qed.

(** *** The inbound path: the whole fetch *)

(** C5.  For a cursor with R pending rows (R within the capacities [int]
    doubling reaches from 100 without overflow) and a negative [n_max], the
    table is created with capacity 100; the capacity is doubled, by
    [resize_dataframe], each time a row arrives when the row index has
    reached it, [k] times in all, where [100 * 2 ^ k] is the first of these
    capacities that holds R rows; after the cursor is exhausted the table is
    resized to R when R is less than the capacity; and the table returned
    holds exactly the R rows of the cursor, in order, so every value written
    before a resize is still there. *)
Theorem fetch_unbounded_grows r n_max :
  n_max < 0 ->
  Z.of_nat (length (nanodbc.pending r)) <= max_capacity ->
  let rows := nanodbc.pending r in
  let R := Z.of_nat (length rows) in
  exists out t k,
    result_to_dataframe r n_max
    = (out,
       nanodbc.mk_result (nanodbc.metadata r) []
                         (nanodbc.position r + length rows),
       t)
    /\ holds_rows (result_column_types r).1 (column_names r) rows out
    /\ Rf.row_names out = R
    /\ creations t = [100]
    /\ resizes t
       = doublings 100 k ++ (if R <? 100 * 2 ^ Z.of_nat k then [R] else [])
    /\ R <= 100 * 2 ^ Z.of_nat k
    /\ (k = 0%nat \/ 100 * 2 ^ Z.of_nat k < 2 * R).
Proof.
  intros Hneg Hmax rows R. unfold result_to_dataframe.
  pose proof (result_column_types_length r) as Hlen.
  pose proof (result_column_types_not_logical r) as Hlgl.
  pose proof (result_column_types_warnings r) as Hw0.
  destruct (result_column_types r) as [types t0]. simpl in Hlen, Hlgl, Hw0.
  destruct (Z.ltb_spec n_max 0) as [_|?]; [|lia].
  destruct (fetch_rows_unbounded types (column_names r) n_max
              (nanodbc.metadata r) Hneg Hlgl Hlen (nanodbc.pending r) []
              (nanodbc.position r) 100
              (create_dataframe types (column_names r) 100))
    as (st & t1 & k & Hrun & Hr & Hn & Hle & Hc & Hk & Hi & Hres & Ht & Hcr).
  { apply create_dataframe_inv. lia. }
  { simpl. lia. }
  { exists 0%nat. split; [lia|done]. }
  { simpl. exact Hmax. }
  change (Z.of_nat (length (@nil nanodbc.row))) with 0 in Hrun.
  rewrite Hrun. simpl in Hr, Hk, Hi. fold rows in Hr, Hk, Hi. fold R in Hr, Hk.
  rewrite Hres, Hr, Hn.
  destruct (Z.ltb_spec R (100 * 2 ^ Z.of_nat k)) as [Hlt|Hge].
  - eexists _, _, k. split; [reflexivity|].
    assert (table_inv types (column_names r) rows R
              (resize_dataframe (fs_out st) R)) as Hshrunk.
    { unfold R. eapply resize_dataframe_shrink; [exact Hi|].
      fold R. rewrite <- Hr. exact Hle. }
    pose proof (add_classes_holds _ _ _ _ Hshrunk) as Hholds.
    split; [exact Hholds|]. split; [apply Hholds|].
    rewrite !creations_app, !resizes_app.
    rewrite (creations_warnings t0 Hw0), (resizes_warnings t0 Hw0), Hcr, Ht.
    rewrite (proj2 (Z.ltb_lt _ _) Hlt).
    split; [done|]. split; [done|]. split; [lia|].
    destruct Hk as [->|Hk]; [by left|right]. lia.
  - assert (fs_n st = R) as HnR by lia.
    eexists _, _, k. split; [reflexivity|].
    rewrite HnR in Hi.
    pose proof (add_classes_holds _ _ _ _ Hi) as Hholds.
    split; [exact Hholds|]. split; [apply Hholds|].
    rewrite !creations_app, !resizes_app.
    rewrite (creations_warnings t0 Hw0), (resizes_warnings t0 Hw0), Hcr, Ht.
    rewrite (proj2 (Z.ltb_ge _ _) Hge).
    split; [done|]. split; [done|]. split; [lia|].
    destruct Hk as [->|Hk]; [by left|right]. lia.
Qed.

(** What a bounded fetch does when the cursor has more rows than the cap. *)
Lemma result_to_dataframe_bounded r k :
  0 <= k < 2 ^ 31 ->
  (Z.to_nat k < length (nanodbc.pending r))%nat ->
  exists out t,
    result_to_dataframe r k
    = (out,
       nanodbc.mk_result (nanodbc.metadata r)
                         (drop (S (Z.to_nat k)) (nanodbc.pending r))
                         (nanodbc.position r + S (Z.to_nat k)),
       t)
    /\ holds_rows (result_column_types r).1 (column_names r)
                  (take (Z.to_nat k) (nanodbc.pending r)) out
    /\ creations t = [k]
    /\ resizes t = [].
Proof.
  intros Hk Hmore. unfold result_to_dataframe.
  pose proof (result_column_types_length r) as Hlen.
  pose proof (result_column_types_not_logical r) as Hlgl.
  pose proof (result_column_types_warnings r) as Hw0.
  destruct (result_column_types r) as [types t0]. simpl in Hlen, Hlgl, Hw0.
  destruct (Z.ltb_spec k 0) as [?|_]; [lia|].
  destruct (fetch_rows_bounded types (column_names r) k
              (nanodbc.metadata r) Hk Hlgl Hlen (nanodbc.pending r) []
              (nanodbc.position r)
              (create_dataframe types (column_names r) k))
    as (st & t1 & Hrun & Hn & Hr & Hi & Hres & Ht & Hcr).
  { apply create_dataframe_inv. lia. }
  { simpl. lia. }
  change (Z.of_nat (length (@nil nanodbc.row))) with 0 in Hrun.
  rewrite Hrun.
  cbn [length app] in Hr, Hi, Hres. rewrite Nat.sub_0_r in Hr, Hi, Hres.
  rewrite Nat.min_l, Nat.add_0_l in Hr by lia.
  rewrite Nat.min_l in Hres by lia.
  rewrite Hres, Hr, Hn.
  destruct (Z.ltb_spec (Z.of_nat (Z.to_nat k)) k) as [?|_]; [lia|].
  eexists _, _. split; [reflexivity|].
  assert (k = Z.of_nat (length (take (Z.to_nat k) (nanodbc.pending r)))) as Hkk
    by (rewrite length_take; lia).
  rewrite Hkk in Hi at 2.
  pose proof (add_classes_holds _ _ _ _ Hi) as Hholds.
  split; [exact Hholds|].
  rewrite !creations_app, !resizes_app.
  rewrite (creations_warnings t0 Hw0), (resizes_warnings t0 Hw0), Hcr, Ht.
  done.
Qed.

(** C6.  For a cursor with more than [k] pending rows and a cap
    [n_max = k >= 0], the table returned holds exactly the first [k] rows of
    the cursor, in cursor order; it is created with capacity [k] and never
    resized. *)
Theorem fetch_bounded_first_rows r k :
  0 <= k < 2 ^ 31 ->
  (Z.to_nat k < length (nanodbc.pending r))%nat ->
  exists out r' t,
    result_to_dataframe r k = (out, r', t)
    /\ holds_rows (result_column_types r).1 (column_names r)
                  (take (Z.to_nat k) (nanodbc.pending r)) out
    /\ Rf.row_names out = k
    /\ creations t = [k]
    /\ resizes t = [].
Proof.
  intros Hk Hmore.
  destruct (result_to_dataframe_bounded r k Hk Hmore)
    as (out & t & Hrun & Hholds & Hcr & Hres).
  eexists out, _, t. split; [exact Hrun|]. split; [done|].
  split; [|done].
  destruct Hholds as (_ & _ & -> & _). rewrite length_take. lia.
Qed.

(** *** The executor *)

Lemma warning_is_materializer_event w :
  Forall (fun e => is_warning e = true) w ->
  Forall (fun e => is_materializer_event e = true) w.
Proof. intros H. eapply Forall_impl; [exact H|]. by intros []. Qed.

Lemma fill_row_events types names ncols row out vals :
  Forall (fun e => is_warning e = true)
         (fill_row types names ncols row out vals).2.
Proof.
  unfold fill_row.
  by destruct (fill_cells_spec types names row out vals ncols)
    as (out' & vals' & w & -> & _ & _ & _ & _ & _ & Hw).
Qed.

Lemma fetch_rows_events types names n_max metadata pending :
  forall position n row out,
    Forall (fun e => is_materializer_event e = true)
           (fetch_rows types names n_max metadata pending position n row out).2.
Proof.
  induction pending as [|vals rest IH]; intros position n row out;
    cbn [fetch_rows]; [done|].
  destruct (n <=? row); [destruct (n_max <? 0)|]; try done.
  - pose proof (fill_row_events types names (length metadata) row
                  (resize_dataframe out (wrap_int (n * 2))) vals) as Hw.
    destruct (fill_row _ _ _ _ _ _) as [out1 w].
    specialize (IH (S position) (wrap_int (n * 2)) (wrap_int (row + 1)) out1).
    destruct (fetch_rows _ _ _ _ _ _ _ _ _) as [st t]. simpl in *.
    constructor; [done|]. apply Forall_app.
    split; [by apply warning_is_materializer_event|done].
  - pose proof (fill_row_events types names (length metadata) row out vals)
      as Hw.
    destruct (fill_row _ _ _ _ _ _) as [out1 w].
    specialize (IH (S position) n (wrap_int (row + 1)) out1).
    destruct (fetch_rows _ _ _ _ _ _ _ _ _) as [st t]. simpl in *.
    apply Forall_app.
    split; [by apply warning_is_materializer_event|done].
Qed.

Lemma result_to_dataframe_events r n_max :
  Forall (fun e => is_materializer_event e = true)
         (result_to_dataframe r n_max).2.
Proof.
  unfold result_to_dataframe.
  pose proof (result_column_types_warnings r) as Hw0.
  destruct (result_column_types r) as [types t0]. simpl in Hw0.
  pose proof (fetch_rows_events types (column_names r) n_max
                (nanodbc.metadata r) (nanodbc.pending r) (nanodbc.position r)
                (if n_max <? 0 then 100 else n_max) 0
                (create_dataframe types (column_names r)
                   (if n_max <? 0 then 100 else n_max))) as H1.
  destruct (fetch_rows _ _ _ _ _ _ _ _ _) as [st t1]. simpl in H1.
  destruct (fs_row st <? fs_n st); simpl.
  all: apply Forall_app; split;
    [by apply warning_is_materializer_event|].
  all: constructor; [done|]. all: apply Forall_app; split; [done|].
  all: by repeat constructor.
Qed.

Lemma executed_statements_materializer t :
  Forall (fun e => is_materializer_event e = true) t ->
  executed_statements t = [].
Proof.
  induction 1 as [|e t He _ IH]; [done|].
  unfold executed_statements in *. destruct e; try done; simpl; by rewrite IH.
Qed.

Lemma execute_spec o :
  execute o
  = match r_ o with
    | Some _ => (Ok tt, o, [])
    | None => (Ok tt, set_r_ (Some (s_ o)) o, [EvExecute (sql_ o)])
    end.
Proof.
  unfold execute. erewrite bind_Ok by reflexivity. simpl.
  destruct (r_ o); [done|]. by erewrite bind_Ok by reflexivity.
Qed.

Lemma fetch_spec n_max o :
  fetch n_max o
  = (Ok (result_to_dataframe (cursor_of o) n_max).1.1,
     set_r_ (Some (result_to_dataframe (cursor_of o) n_max).1.2) o,
     (match r_ o with Some _ => [] | None => [EvExecute (sql_ o)] end)
     ++ (result_to_dataframe (cursor_of o) n_max).2).
Proof.
  unfold fetch, cursor_of. pose proof (execute_spec o) as Hexec.
  destruct (r_ o) as [r|] eqn:Ho; erewrite bind_Ok by exact Hexec; simpl.
  - erewrite bind_Ok by reflexivity. simpl. rewrite Ho.
    destruct (result_to_dataframe r n_max) as [[out r'] t].
    unfold bind, modify, emit_all, ret. simpl. by rewrite app_nil_r.
  - erewrite bind_Ok by reflexivity. simpl.
    destruct (result_to_dataframe (s_ o) n_max) as [[out r'] t].
    unfold bind, modify, emit_all, ret. simpl. by rewrite app_nil_r.
Qed.

(** C10.  For a cursor with more than [k] pending rows and a cap
    [n_max = k >= 0], the fetch advances the cursor [k + 1] times: the row
    at position [k] has been taken from the cursor when the cap stops the
    loop.  It is not in the returned table, which holds the [k] rows before
    it, and not among the rows left in the cursor; and as the handle keeps
    that cursor, and [execute] does not run the statement again, every later
    fetch on the handle materializes the rows after it. *)
Theorem fetch_bounded_consumes_next_row r k :
  0 <= k < 2 ^ 31 ->
  (Z.to_nat k < length (nanodbc.pending r))%nat ->
  exists out r' t lost,
    result_to_dataframe r k = (out, r', t)
    /\ nanodbc.position r' = (nanodbc.position r + S (Z.to_nat k))%nat
    /\ nanodbc.pending r !! Z.to_nat k = Some lost
    /\ nanodbc.pending r
       = take (Z.to_nat k) (nanodbc.pending r) ++ lost :: nanodbc.pending r'
    /\ holds_rows (result_column_types r).1 (column_names r)
                  (take (Z.to_nat k) (nanodbc.pending r)) out
    /\ forall o n2,
         r_ o = Some r ->
         fetch k o = (Ok out, set_r_ (Some r') o, t)
         /\ fetch n2 (set_r_ (Some r') o)
            = (Ok (result_to_dataframe r' n2).1.1,
               set_r_ (Some (result_to_dataframe r' n2).1.2) o,
               (result_to_dataframe r' n2).2).
Proof.
  intros Hk Hmore.
  destruct (result_to_dataframe_bounded r k Hk Hmore)
    as (out & t & Hrun & Hholds & _).
  destruct (lookup_lt_is_Some_2 (nanodbc.pending r) (Z.to_nat k) Hmore)
    as [lost Hlost].
  eexists out, _, t, lost. split; [exact Hrun|]. simpl.
  split; [done|]. split; [done|].
  split; [by rewrite <- (drop_S _ _ _ Hlost), take_drop|].
  split; [done|].
  intros o n2 Ho. rewrite !fetch_spec. unfold cursor_of. simpl.
  rewrite Ho, Hrun. done.
Qed.

(** C7.  [execute] runs the statement only when the handle has no result
    yet: on an executed handle it changes nothing and causes no event, so a
    second call is a no-op and two calls do what one does.  [fetch] calls
    [execute] first and materializes the cursor the handle then has: the
    statement is run by a fetch exactly when it had not been run before. *)
Theorem execute_idempotent n_max o :
  execute o
  = match r_ o with
    | Some _ => (Ok tt, o, [])
    | None => (Ok tt, set_r_ (Some (s_ o)) o, [EvExecute (sql_ o)])
    end
  /\ execute (execute o).1.2 = (Ok tt, (execute o).1.2, [])
  /\ (execute ;; execute) o = execute o
  /\ r_ (execute o).1.2 = Some (cursor_of o)
  /\ fetch n_max o
     = (Ok (result_to_dataframe (cursor_of o) n_max).1.1,
        set_r_ (Some (result_to_dataframe (cursor_of o) n_max).1.2) o,
        (match r_ o with Some _ => [] | None => [EvExecute (sql_ o)] end)
        ++ (result_to_dataframe (cursor_of o) n_max).2)
  /\ executed_statements (fetch n_max o).2
     = match r_ o with Some _ => [] | None => [sql_ o] end.
Proof.
  pose proof (execute_spec o) as Hexec.
  pose proof (fetch_spec n_max o) as Hfetch.
  split; [exact Hexec|]. split; [|split; [|split; [|split; [exact Hfetch|]]]].
  - rewrite Hexec.
    destruct (r_ o) eqn:Ho; simpl; rewrite execute_spec; simpl;
      by rewrite ?Ho.
  - unfold bind at 1. rewrite Hexec.
    destruct (r_ o) eqn:Ho; rewrite execute_spec; simpl; by rewrite ?Ho.
  - rewrite Hexec. unfold cursor_of. by destruct (r_ o) eqn:Ho.
  - rewrite Hfetch. cbn [snd].
    pose proof (executed_statements_materializer _
                  (result_to_dataframe_events (cursor_of o) n_max)) as Hnone.
    unfold executed_statements in *. rewrite omap_app, Hnone.
    by destruct (r_ o).
Qed.

(** *** The outbound path: what a column receives over all batches *)

Lemma gather_app {A} (f : event -> option (list A)) t1 t2 :
  gather f (t1 ++ t2) = gather f t1 ++ gather f t2.
Proof. unfold gather. by rewrite omap_app, concat_app. Qed.

Lemma gather_cons {A} (f : event -> option (list A)) e t :
  gather f (e :: t) = default [] (f e) ++ gather f t.
Proof. unfold gather. simpl. by destruct (f e). Qed.

Lemma bound_event_column types df start size col e :
  bound types df start size col = Some e -> event_column e = Some col.
Proof.
  unfold bound. destruct (types !!! col); intros He; inversion He; done.
Qed.

Lemma gather_bound_columns {A} (f : event -> option (list A)) types df
      start size j n :
  selects_column j f ->
  forall a,
    Forall (fun col => bindable (types !!! col) = true) (seq a n) ->
    gather f (bound_columns types df start size (seq a n)).2
    = if decide (a <= j < a + n)%nat
      then default [] (bound types df start size j ≫= f)
      else [].
Proof.
  intros Hsel. induction n as [|n IH]; intros a Hall.
  - simpl. case_decide; [lia|done].
  - cbn [seq] in *. apply Forall_cons in Hall as [Ha Hall].
    cbn [bound_columns].
    destruct (proj2 (bound_is_Some types df start size a) Ha) as [e He].
    rewrite He. specialize (IH (S a) Hall).
    destruct (bound_columns types df start size (seq (S a) n)) as [r t].
    cbn [snd] in *. rewrite gather_cons, IH.
    destruct (decide (a = j)) as [->|Hne].
    + rewrite He. cbn [mbind option_bind].
      repeat case_decide; try lia. by rewrite app_nil_r.
    + assert (f e = None) as ->.
      { destruct (f e) as [v|] eqn:Hf; [|done].
        apply Hsel in Hf. apply bound_event_column in He. congruence. }
      simpl. repeat case_decide; try lia; done.
Qed.

Lemma gather_batch_traces {A} (f : event -> option (list A)) types df sql j
      ranges :
  selects_column j f ->
  (j < length (R.columns df))%nat ->
  Forall (fun col => bindable (types !!! col) = true)
         (seq 0 (length (R.columns df))) ->
  gather f (concat (batch_trace types df sql <$> ranges))
  = concat ((fun range =>
               default [] (bound types df range.1 range.2 j ≫= f))
            <$> ranges).
Proof.
  intros Hsel Hj Hall. induction ranges as [|[start size] ranges IH]; [done|].
  rewrite !fmap_cons. cbn [concat]. rewrite gather_app, IH. f_equal.
  unfold batch_trace. cbn [fst snd].
  rewrite gather_cons, gather_app, gather_cons.
  rewrite (gather_bound_columns f types df start size j _ Hsel 0%nat Hall).
  rewrite decide_True by lia.
  assert (forall e, event_column e = None -> f e = None) as Hnone.
  { intros e He. destruct (f e) as [v|] eqn:Hf; [|done].
    apply Hsel in Hf. congruence. }
  rewrite !Hnone by done. simpl. by rewrite app_nil_r.
Qed.

Lemma concat_windows_from {A} (vector : list A) n :
  length vector = n ->
  forall m k,
    (length (batch_ranges n) - k = m)%nat ->
    concat ((fun range => window vector range.1 range.2)
            <$> drop k (batch_ranges n))
    = drop (k * batch_size) vector.
Proof.
  intros Hlen m. induction m as [|m IH]; intros k Hm.
  - destruct (decide (k * batch_size < n)%nat) as [Hlt|Hge].
    + pose proof (batch_sizes_lookup n k Hlt) as Hl.
      apply lookup_lt_Some in Hl. unfold batch_ranges in Hm.
      rewrite length_imap in Hm. lia.
    + rewrite batch_ranges_drop_ge by lia. simpl.
      rewrite drop_ge by lia. done.
  - destruct (decide (k * batch_size < n)%nat) as [Hlt|Hge].
    + rewrite batch_ranges_drop_lt by done. rewrite fmap_cons. cbn [concat fst snd].
      rewrite IH by lia. unfold window, batch_rows.
      replace (S k * batch_size)%nat with (k * batch_size + batch_size)%nat
        by lia.
      destruct (Nat.min_spec batch_size (n - k * batch_size)) as [[? ->]|[? ->]].
      * rewrite <- drop_drop. apply take_drop.
      * rewrite (drop_ge vector (k * batch_size + batch_size)) by lia.
        rewrite app_nil_r. apply take_ge. rewrite length_drop. lia.
    + rewrite batch_ranges_drop_ge by lia. simpl.
      rewrite drop_ge by lia. done.
Qed.

Lemma concat_windows {A} (vector : list A) n :
  length vector = n ->
  concat ((fun range => window vector range.1 range.2) <$> batch_ranges n)
  = vector.
Proof.
  intros Hlen.
  pose proof (concat_windows_from vector n Hlen
                (length (batch_ranges n)) 0%nat ltac:(lia)) as H.
  by rewrite !drop_0 in H.
Qed.

Lemma batch_ranges_within n range :
  range ∈ batch_ranges n -> (range.1 + range.2 <= n)%nat.
Proof.
  intros [k Hk]%list_elem_of_lookup. unfold batch_ranges in Hk.
  rewrite list_lookup_imap in Hk.
  destruct (batch_sizes n !! k) as [size|] eqn:Hs; [|done].
  simpl in Hk. injection Hk as <-. simpl.
  destruct (decide (k * batch_size < n)%nat) as [Hlt|Hge].
  - rewrite batch_sizes_lookup in Hs by done. injection Hs as <-.
    unfold batch_rows. lia.
  - apply lookup_lt_Some in Hs.
    pose proof (batch_sizes_length n k ltac:(lia)). lia.
Qed.

Lemma fmap_concat_lists {A B} (f : A -> B) (ls : list (list A)) :
  f <$> concat ls = concat ((fun l : list A => f <$> l) <$> ls).
Proof.
  induction ls as [|l ls IH]; [done|]. simpl. by rewrite fmap_app, IH.
Qed.

Lemma concat_scans {A B} `{Inhabited A} (f : A -> B) (vector : list A) n :
  length vector = n ->
  concat ((fun range => scan f vector range.1 range.2) <$> batch_ranges n)
  = f <$> vector.
Proof.
  intros Hlen.
  transitivity (f <$> concat ((fun range => window vector range.1 range.2)
                              <$> batch_ranges n));
    [|by rewrite concat_windows].
  rewrite fmap_concat_lists, <- list_fmap_compose. f_equal.
  apply Forall_fmap_ext_1, Forall_forall. intros range Hin. simpl.
  apply scan_window. apply batch_ranges_within in Hin. lia.
Qed.

(** The insert of a table whose columns can all be bound. *)
Lemma insert_dataframe_supported_run df o :
  forallb supported (R.columns df) = true ->
  exists o',
    insert_dataframe df o
    = (Ok tt, o',
       EvTransaction
       :: concat (batch_trace (omap column_type_of (R.columns df)) df (sql_ o)
                  <$> batch_ranges (R.nrows df))
       ++ [EvCommit]).
Proof.
  intros Hall. pose proof (forallb_supported_mapped _ Hall) as Hmapped.
  destruct (insert_batches_spec (omap column_type_of (R.columns df)) df
              (R.nrows df) o (supported_columns_bindable df Hall)
              (length (batch_ranges (R.nrows df))) 0%nat o)
    as (o' & Hloop & _); [lia|done|].
  exists o'. unfold insert_dataframe, column_types.
  erewrite bind_Ok by (by apply column_types_from_mapped).
  cbn [fst snd app].
  erewrite bind_Ok by reflexivity. cbn [fst snd app].
  erewrite bind_Ok by exact Hloop. by cbn [fst snd app].
Qed.

(** What the statement receives for column [j] over the whole insert. *)
Lemma gather_insert_dataframe {A} (f : event -> option (list A)) df o j :
  selects_column j f ->
  forallb supported (R.columns df) = true ->
  (j < length (R.columns df))%nat ->
  gather f (insert_dataframe df o).2
  = concat ((fun range =>
               default []
                 (bound (omap column_type_of (R.columns df)) df
                        range.1 range.2 j ≫= f))
            <$> batch_ranges (R.nrows df)).
Proof.
  intros Hsel Hall Hj.
  destruct (insert_dataframe_supported_run df o Hall) as (o' & ->).
  cbn [snd]. rewrite gather_cons, gather_app, gather_cons.
  assert (forall e, event_column e = None -> f e = None) as Hnone.
  { intros e He. destruct (f e) as [v|] eqn:Hf; [|done].
    apply Hsel in Hf. congruence. }
  rewrite !Hnone by done. simpl. rewrite app_nil_r.
  apply gather_batch_traces; [done|done|].
  by apply supported_columns_bindable.
Qed.

Lemma column_type_lookup df j x :
  forallb supported (R.columns df) = true ->
  R.columns df !! j = Some x ->
  exists t,
    column_type_of x = Some t
    /\ omap column_type_of (R.columns df) !!! j = t.
Proof.
  intros Hall Hx. pose proof (forallb_supported_mapped _ Hall) as Hmapped.
  pose proof (omap_column_type_of_lookup _ _ _ Hmapped Hx) as Hty.
  destruct (column_type_mapped x) as (t & Ht & _).
  { rewrite forallb_forall in Hmapped. apply Hmapped.
    eapply list_elem_of_In, list_elem_of_lookup_2, Hx. }
  exists t. split; [done|]. rewrite Ht in Hty.
  by apply list_lookup_total_correct.
Qed.

Lemma selects_integers j : selects_column j (integers_of j).
Proof. intros [] v; simpl; try done. by case_decide; [subst|]. Qed.

Lemma selects_doubles j : selects_column j (doubles_of j).
Proof. intros [] v; simpl; try done. by case_decide; [subst|]. Qed.

Lemma selects_strings j : selects_column j (strings_of j).
Proof. intros [] v; simpl; try done. by case_decide; [subst|]. Qed.

Lemma selects_timestamps j : selects_column j (timestamps_of j).
Proof. intros [] v; simpl; try done. by case_decide; [subst|]. Qed.

Lemma selects_nulls j : selects_column j (nulls_of j).
Proof. intros [] v; simpl; try done; by case_decide; [subst|]. Qed.

(** X1.  For a well-formed table whose columns can all be bound, with
    fewer than [2 ^ 15] columns and Date and DateTime columns that hold only
    NA or values [as_timestamp] converts (the tables on which the insert
    returns): over all the batches of the insert, an integer column is
    handed to the statement exactly once and in order: the value buffers
    bound for the column, one after the other, are the column. *)
Theorem insert_binds_integer_column df o j x v :
  R.well_formed df ->
  forallb supported (R.columns df) = true ->
  short_columns df ->
  forallb temporal_ok (R.columns df) = true ->
  R.columns df !! j = Some x ->
  R.payload x = R.INTSXP v ->
  gather (integers_of j) (insert_dataframe df o).2 = v.
Proof.
  intros Hwf Hall Hshort Hvalues Hx Hp.
  rewrite (gather_insert_dataframe _ df o j (selects_integers j) Hall)
    by (by eapply lookup_lt_Some).
  destruct (column_type_lookup df j x Hall Hx) as (t & Ht & Hty).
  unfold column_type_of in Ht. rewrite Hp in Ht. injection Ht as <-.
  assert (length v = R.nrows df) as Hlen.
  { unfold R.well_formed in Hwf. rewrite Forall_forall in Hwf.
    specialize (Hwf x ltac:(by eapply list_elem_of_lookup_2)).
    unfold R.LENGTH in Hwf. by rewrite Hp in Hwf. }
  transitivity (concat ((fun range => window v range.1 range.2)
                        <$> batch_ranges (R.nrows df)));
    [|by rewrite concat_windows].
  f_equal. apply list_fmap_ext. intros i range _. unfold bound.
  rewrite Hty, (list_lookup_total_correct _ _ _ Hx). simpl.
  rewrite decide_True by done. unfold R.INTEGER. by rewrite Hp.
Qed.

Lemma column_length df j x :
  R.well_formed df -> R.columns df !! j = Some x -> R.LENGTH x = R.nrows df.
Proof.
  intros Hwf Hx. unfold R.well_formed in Hwf. rewrite Forall_forall in Hwf.
  apply Hwf. by eapply list_elem_of_lookup_2.
Qed.

(** X2.  For such a table, a plain real column is handed to the statement
    exactly once and in order over the batches, and the masks bound with it
    flag exactly the elements that are R's NA: a NaN that is not NA is bound
    as a value. *)
Theorem insert_binds_double_column df o j x v :
  R.well_formed df ->
  forallb supported (R.columns df) = true ->
  short_columns df ->
  forallb temporal_ok (R.columns df) = true ->
  R.columns df !! j = Some x ->
  R.payload x = R.REALSXP v ->
  R.inherits x "Date" = false ->
  R.inherits x "POSIXct" = false ->
  gather (doubles_of j) (insert_dataframe df o).2 = v
  /\ gather (nulls_of j) (insert_dataframe df o).2 = R.ISNA <$> v.
Proof.
  intros Hwf Hall Hshort Hvalues Hx Hp Hd Hc.
  assert (j < length (R.columns df))%nat as Hj by (by eapply lookup_lt_Some).
  rewrite (gather_insert_dataframe _ df o j (selects_doubles j) Hall Hj).
  rewrite (gather_insert_dataframe _ df o j (selects_nulls j) Hall Hj).
  destruct (column_type_lookup df j x Hall Hx) as (t & Ht & Hty).
  unfold column_type_of in Ht. rewrite Hp, Hd, Hc in Ht. injection Ht as <-.
  pose proof (column_length df j x Hwf Hx) as Hlen.
  unfold R.LENGTH in Hlen. rewrite Hp in Hlen.
  split.
  - transitivity (concat ((fun range => window v range.1 range.2)
                          <$> batch_ranges (R.nrows df)));
      [|by rewrite concat_windows].
    f_equal. apply list_fmap_ext. intros i range _. unfold bound.
    rewrite Hty, (list_lookup_total_correct _ _ _ Hx). simpl.
    rewrite decide_True by done. unfold R.REAL. by rewrite Hp.
  - rewrite <- (concat_scans R.ISNA v (R.nrows df) Hlen).
    f_equal. apply list_fmap_ext. intros i range _. unfold bound.
    rewrite Hty, (list_lookup_total_correct _ _ _ Hx). simpl.
    rewrite decide_True by done. unfold R.REAL. by rewrite Hp.
Qed.

(** X3.  For such a table, a character column is handed to the statement
    exactly once and in order over the batches, each element as its UTF-8
    text, and the masks flag exactly the missing strings: the missing string
    is bound as the text NA with its flag set, the text NA itself with its
    flag clear. *)
Theorem insert_binds_string_column df o j x v :
  R.well_formed df ->
  forallb supported (R.columns df) = true ->
  short_columns df ->
  forallb temporal_ok (R.columns df) = true ->
  R.columns df !! j = Some x ->
  R.payload x = R.STRSXP v ->
  gather (strings_of j) (insert_dataframe df o).2
  = R.Rf_translateCharUTF8 <$> v
  /\ gather (nulls_of j) (insert_dataframe df o).2 = is_NA_STRING <$> v.
Proof.
  intros Hwf Hall Hshort Hvalues Hx Hp.
  assert (j < length (R.columns df))%nat as Hj by (by eapply lookup_lt_Some).
  rewrite (gather_insert_dataframe _ df o j (selects_strings j) Hall Hj).
  rewrite (gather_insert_dataframe _ df o j (selects_nulls j) Hall Hj).
  destruct (column_type_lookup df j x Hall Hx) as (t & Ht & Hty).
  unfold column_type_of in Ht. rewrite Hp in Ht. injection Ht as <-.
  pose proof (column_length df j x Hwf Hx) as Hlen.
  unfold R.LENGTH in Hlen. rewrite Hp in Hlen.
  split.
  - rewrite <- (concat_scans R.Rf_translateCharUTF8 v (R.nrows df) Hlen).
    f_equal. apply list_fmap_ext. intros i range _. unfold bound.
    rewrite Hty, (list_lookup_total_correct _ _ _ Hx). simpl.
    rewrite decide_True by done. unfold R.STRING. by rewrite Hp.
  - rewrite <- (concat_scans is_NA_STRING v (R.nrows df) Hlen).
    f_equal. apply list_fmap_ext. intros i range _. unfold bound.
    rewrite Hty, (list_lookup_total_correct _ _ _ Hx). simpl.
    rewrite decide_True by done. unfold R.STRING. by rewrite Hp.
Qed.

(** X4.  For such a table, a real column of class Date is handed to the
    statement exactly once and in order over the batches: for each element
    the timestamp of [as_timestamp] applied to the day count times 86400
    (an exact product, by [temporal_ok]), or an unassigned timestamp when
    the element is NA, and the masks flag exactly the NA elements.  The
    class Date wins over POSIXct. *)
Theorem insert_binds_date_column df o j x v :
  R.well_formed df ->
  forallb supported (R.columns df) = true ->
  short_columns df ->
  forallb temporal_ok (R.columns df) = true ->
  R.columns df !! j = Some x ->
  R.payload x = R.REALSXP v ->
  R.inherits x "Date" = true ->
  gather (timestamps_of j) (insert_dataframe df o).2
  = (fun d => time_slot (R.mul_const d seconds_in_day_)) <$> v
  /\ gather (nulls_of j) (insert_dataframe df o).2 = R.ISNA <$> v.
Proof.
  intros Hwf Hall Hshort Hvalues Hx Hp Hd.
  assert (j < length (R.columns df))%nat as Hj by (by eapply lookup_lt_Some).
  rewrite (gather_insert_dataframe _ df o j (selects_timestamps j) Hall Hj).
  rewrite (gather_insert_dataframe _ df o j (selects_nulls j) Hall Hj).
  destruct (column_type_lookup df j x Hall Hx) as (t & Ht & Hty).
  unfold column_type_of in Ht. rewrite Hp, Hd in Ht. injection Ht as <-.
  pose proof (column_length df j x Hwf Hx) as Hlen.
  unfold R.LENGTH in Hlen. rewrite Hp in Hlen.
  split.
  - rewrite <- (concat_scans
                  (fun d => time_slot (R.mul_const d seconds_in_day_))
                  v (R.nrows df) Hlen).
    f_equal. apply list_fmap_ext. intros i range _. unfold bound.
    rewrite Hty, (list_lookup_total_correct _ _ _ Hx). simpl.
    rewrite decide_True by done. unfold R.REAL. by rewrite Hp.
  - transitivity ((fun d => R.ISNA (R.mul_const d seconds_in_day_)) <$> v);
      [|apply list_fmap_ext; intros; apply ISNA_mul_const].
    rewrite <- (concat_scans
                  (fun d => R.ISNA (R.mul_const d seconds_in_day_))
                  v (R.nrows df) Hlen).
    f_equal. apply list_fmap_ext. intros i range _. unfold bound.
    rewrite Hty, (list_lookup_total_correct _ _ _ Hx). simpl.
    rewrite decide_True by done. unfold R.REAL. by rewrite Hp.
Qed.

(** X5.  For such a table, a real column of class POSIXct (and not Date)
    is handed to the statement exactly once and in order over the batches:
    for each element, which [temporal_ok] makes NA or a value
    [as_timestamp] converts, the timestamp of [as_timestamp], or an
    unassigned timestamp when the element is NA, and the masks flag exactly
    the NA elements. *)
Theorem insert_binds_datetime_column df o j x v :
  R.well_formed df ->
  forallb supported (R.columns df) = true ->
  short_columns df ->
  forallb temporal_ok (R.columns df) = true ->
  R.columns df !! j = Some x ->
  R.payload x = R.REALSXP v ->
  R.inherits x "Date" = false ->
  R.inherits x "POSIXct" = true ->
  gather (timestamps_of j) (insert_dataframe df o).2 = time_slot <$> v
  /\ gather (nulls_of j) (insert_dataframe df o).2 = R.ISNA <$> v.
Proof.
  intros Hwf Hall Hshort Hvalues Hx Hp Hd Hc.
  assert (j < length (R.columns df))%nat as Hj by (by eapply lookup_lt_Some).
  rewrite (gather_insert_dataframe _ df o j (selects_timestamps j) Hall Hj).
  rewrite (gather_insert_dataframe _ df o j (selects_nulls j) Hall Hj).
  destruct (column_type_lookup df j x Hall Hx) as (t & Ht & Hty).
  unfold column_type_of in Ht. rewrite Hp, Hd, Hc in Ht. injection Ht as <-.
  pose proof (column_length df j x Hwf Hx) as Hlen.
  unfold R.LENGTH in Hlen. rewrite Hp in Hlen.
  split.
  - rewrite <- (concat_scans time_slot v (R.nrows df) Hlen).
    f_equal. apply list_fmap_ext. intros i range _. unfold bound.
    rewrite Hty, (list_lookup_total_correct _ _ _ Hx). simpl.
    rewrite decide_True by done. unfold R.REAL. by rewrite Hp.
  - rewrite <- (concat_scans R.ISNA v (R.nrows df) Hlen).
    f_equal. apply list_fmap_ext. intros i range _. unfold bound.
    rewrite Hty, (list_lookup_total_correct _ _ _ Hx). simpl.
    rewrite decide_True by done. unfold R.REAL. by rewrite Hp.
Qed.

(** *** The outbound path: any table *)

Lemma insert_batch_run types df ncols nrows start o :
  exists o',
    insert_batch types df ncols nrows start o
    = (let '(r, t) := bound_columns types df start (batch_rows nrows start)
                                    (seq 0 ncols) in
       (r, o',
        EvStatement (sql_ o) :: t
        ++ match r with
           | Ok _ => [EvExecuteBatch (batch_rows nrows start)]
           | Stop _ => []
           end))
    /\ same_members o o'.
Proof.
  unfold insert_batch.
  set (size := ((if (nrows <? start + batch_size)%nat
                 then nrows else (start + batch_size)%nat) - start)%nat).
  assert (size = batch_rows nrows start) as ->.
  { unfold size, batch_rows. destruct (Nat.ltb_spec nrows (start + batch_size)); lia. }
  set (o0 := set_nulls_ ∅ (set_times_ ∅ (set_strings_ ∅ o))).
  destruct (bind_columns_spec types df start (batch_rows nrows start) ncols 0%nat o0)
    as (o' & Hrun & Hm).
  { intros j _. unfold o0; simpl. by rewrite !lookup_empty. }
  exists o'. split; [|exact Hm].
  do 3 (erewrite bind_Ok by reflexivity; simpl).
  unfold for_range. fold o0.
  destruct (bound_columns types df start (batch_rows nrows start) (seq 0 ncols))
    as [[[]|msg] t] eqn:Hb; simpl in Hrun.
  - erewrite bind_Ok by exact Hrun. simpl. done.
  - erewrite bind_Stop by exact Hrun. simpl. by rewrite app_nil_r.
Qed.

Lemma insert_batches_run types df ncols nrows sql :
  forall fuel start o,
    (nrows - start <= fuel)%nat ->
    sql_ o = sql ->
    exists o',
      insert_batches types df ncols nrows start o
      = ((batches_from types df sql ncols nrows start fuel).1, o',
         (batches_from types df sql ncols nrows start fuel).2)
      /\ same_members o o'.
Proof.
  induction fuel as [|fuel IH]; intros start o Hfuel Hsql;
    rewrite insert_batches_step; cbn [batches_from];
    destruct (decide (start < nrows)%nat) as [Hlt|Hge]; try lia.
  - by exists o.
  - destruct (insert_batch_run types df ncols nrows start o)
      as (o1 & Hrun & Hm1).
    destruct (bound_columns types df start (batch_rows nrows start)
                (seq 0 ncols)) as [[[]|msg] t].
    + destruct (IH (start + batch_size)%nat o1) as (o2 & Hrest & Hm2).
      { unfold batch_size. lia. }
      { destruct Hm1 as (_ & _ & ->). done. }
      exists o2. split; [|by eapply same_members_trans].
      erewrite bind_Ok by exact Hrun. rewrite Hrest, Hsql.
      destruct (batches_from types df sql ncols nrows (start + batch_size) fuel)
        as [r rest].
      simpl. by rewrite <- app_assoc.
    + exists o1. split; [|done].
      cbn iota beta in Hrun. rewrite app_nil_r, Hsql in Hrun.
      by erewrite bind_Stop by exact Hrun.
  - by exists o.
Qed.

Lemma batches_from_events types df sql ncols nrows :
  forall fuel start,
    Forall (fun e => is_batch_event e = true)
           (batches_from types df sql ncols nrows start fuel).2.
Proof.
  induction fuel as [|fuel IH]; intros start; cbn [batches_from]; [done|].
  destruct (decide (start < nrows)%nat); [|done].
  pose proof (bound_columns_binds types df start (batch_rows nrows start)
                (seq 0 ncols)) as Hb.
  assert (Forall (fun e => is_batch_event e = true)
            (bound_columns types df start (batch_rows nrows start)
                           (seq 0 ncols)).2) as Hb'.
  { eapply Forall_impl; [exact Hb|]. by intros []. }
  destruct (bound_columns types df start (batch_rows nrows start)
              (seq 0 ncols)) as [[[]|msg] t]; simpl in Hb'.
  - specialize (IH (start + batch_size)%nat).
    destruct (batches_from types df sql ncols nrows (start + batch_size) fuel)
      as [r rest]. simpl in *.
    constructor; [done|]. apply Forall_app. split; [done|].
    by constructor.
  - simpl. by constructor.
Qed.

(** The insert of any table. *)
Lemma insert_dataframe_run df o :
  let types := omap column_type_of (R.columns df) in
  let run := batches_from types df (sql_ o) (length (R.columns df))
                          (R.nrows df) 0 (R.nrows df) in
  exists o',
    same_members o o'
    /\ insert_dataframe df o
       = if forallb mapped (R.columns df)
         then (run.1, o',
               EvTransaction
               :: run.2 ++ match run.1 with Ok _ => [EvCommit] | Stop _ => [] end)
         else ((insert_dataframe df o).1.1, o, []).
Proof.
  intros types run. unfold insert_dataframe, column_types.
  destruct (forallb mapped (R.columns df)) eqn:Hmapped.
  - destruct (insert_batches_run types df (length (R.columns df)) (R.nrows df)
                (sql_ o) (R.nrows df) 0%nat o) as (o' & Hloop & Hm);
      [lia|done|].
    exists o'. split; [done|].
    erewrite bind_Ok by (by apply column_types_from_mapped).
    cbn [fst snd app]. fold types.
    erewrite bind_Ok by reflexivity. cbn [fst snd app].
    fold run in Hloop. destruct run as [[[]|msg] t]; simpl in Hloop.
    + erewrite bind_Ok by exact Hloop. done.
    + erewrite bind_Stop by exact Hloop. simpl. by rewrite app_nil_r.
  - destruct (column_types_from_unmapped _ Hmapped [] o) as [msg Hrun].
    exists o. split; [done|].
    by erewrite bind_Stop by exact Hrun.
Qed.

(** X6.  What an insert sends, and whether it succeeds, depends on the
    table and on the SQL text only: the parameter buffers left in the object
    by an earlier insert, its statement and its result cursor have no
    influence. *)
Theorem insert_ignores_earlier_buffers df o s r strings times nulls :
  let o' := mk_odbc_result s r (sql_ o) strings times nulls in
  (insert_dataframe df o').1.1 = (insert_dataframe df o).1.1
  /\ (insert_dataframe df o').2 = (insert_dataframe df o).2.
Proof.
  intros o'.
  destruct (forallb mapped (R.columns df)) eqn:Hmapped.
  - destruct (insert_dataframe_run df o) as (o1 & _ & H1).
    destruct (insert_dataframe_run df o') as (o2 & _ & H2).
    rewrite Hmapped in H1, H2. rewrite H1, H2. done.
  - destruct (column_types_from_unmapped _ Hmapped [] o) as [msg1 Hrun1].
    destruct (column_types_from_unmapped _ Hmapped [] o') as [msg2 Hrun2].
    unfold insert_dataframe, column_types.
    erewrite !bind_Stop by (exact Hrun1 || exact Hrun2). simpl.
    assert (Stop msg2 = @Stop (list r_type) msg1) as Hmsg; [|by inversion Hmsg].
    clear -Hrun1 Hrun2.
    revert Hrun1 Hrun2. generalize (@nil r_type) as types.
    induction (R.columns df) as [|x l IH]; intros types H1 H2; simpl in *.
    + unfold ret in H1. by inversion H1.
    + destruct (mapped x) eqn:Hx.
      * destruct (column_type_mapped x Hx) as (t & _ & Hr).
        erewrite bind_Ok in H1 by apply Hr.
        erewrite bind_Ok in H2 by apply Hr.
        apply (IH (types ++ [t])).
        -- destruct (column_types_from l (types ++ [t]) o) as [[? ?] ?].
           simpl in H1. by inversion H1.
        -- destruct (column_types_from l (types ++ [t]) o') as [[? ?] ?].
           simpl in H2. by inversion H2.
      * destruct (column_type_unmapped x Hx) as [msg Hr].
        erewrite bind_Stop in H1 by apply Hr.
        erewrite bind_Stop in H2 by apply Hr.
        congruence.
Qed.

(** X7.  For every table: the transaction is committed exactly when the
    insert returns normally, and then the commit is the last thing sent and
    the only commit; an insert only opens a transaction, creates statements,
    binds, executes batches and commits; and it leaves the statement, the
    result cursor and the SQL text of the object as they were, so it never
    runs the query of the object. *)
Theorem insert_commits_iff_ok df o :
  let r := (insert_dataframe df o).1.1 in
  let o' := (insert_dataframe df o).1.2 in
  let t := (insert_dataframe df o).2 in
  (EvCommit ∈ t <-> r = Ok tt)
  /\ (r = Ok tt ->
      exists sent,
        t = EvTransaction :: sent ++ [EvCommit]
        /\ Forall (fun e => is_batch_event e = true) sent)
  /\ Forall (fun e => is_insert_event e = true) t
  /\ same_members o o'.
Proof.
  intros r o' t. subst r o' t.
  destruct (insert_dataframe_run df o) as (o1 & Hm & Hrun).
  destruct (forallb mapped (R.columns df)) eqn:Hmapped.
  - rewrite Hrun. cbn [fst snd].
    pose proof (batches_from_events (omap column_type_of (R.columns df)) df
                  (sql_ o) (length (R.columns df)) (R.nrows df) (R.nrows df)
                  0%nat) as Hev.
    destruct (batches_from _ df (sql_ o) _ _ 0 _) as [[[]|msg] sent].
    all: cbn [fst snd] in *.
    + split; [split; [done|]|].
      * intros _. apply elem_of_cons. right. apply elem_of_app. right.
        by apply list_elem_of_singleton.
      * split; [intros _; by exists sent|]. split; [|done].
        constructor; [done|]. apply Forall_app. split; [|by repeat constructor].
        eapply Forall_impl; [exact Hev|]. by intros [].
    + rewrite app_nil_r. split; [split; [|done]|].
      * intros [?|Hin]%elem_of_cons; [done|].
        rewrite Forall_forall in Hev. by apply Hev in Hin.
      * split; [done|]. split; [|done].
        constructor; [done|].
        eapply Forall_impl; [exact Hev|]. by intros [].
  - destruct (column_types_from_unmapped _ Hmapped [] o) as [msg Hstop].
    assert (insert_dataframe df o = (Stop msg, o, [])) as ->.
    { unfold insert_dataframe, column_types.
      by erewrite bind_Stop by exact Hstop. }
    cbn [fst snd]. split; [split; [by intros ?%elem_of_nil|done]|].
    split; [done|]. split; [done|]. done.
Qed.

(** *** The inbound path: any cursor *)

Lemma fetch_rows_cursor types names n_max metadata pending :
  forall position n row out,
    exists m : nat,
      (m <= length pending)%nat
      /\ fs_r (fetch_rows types names n_max metadata pending position n row out).1
         = nanodbc.mk_result metadata (drop m pending) (position + m).
Proof.
  induction pending as [|vals rest IH]; intros position n row out;
    cbn [fetch_rows].
  - exists 0%nat. simpl. by rewrite Nat.add_0_r.
  - destruct (n <=? row); [destruct (n_max <? 0)|].
    + destruct (fill_row _ _ _ _ _ _) as [out1 w].
      destruct (IH (S position) (wrap_int (n * 2)) (wrap_int (row + 1)) out1)
        as (m & Hm & Hr).
      destruct (fetch_rows _ _ _ _ _ _ _ _ _) as [st t]. simpl in *.
      exists (S m). split; [lia|]. rewrite Hr. simpl. f_equal. lia.
    + exists 1%nat. simpl. split; [lia|]. rewrite drop_0. f_equal. lia.
    + destruct (fill_row _ _ _ _ _ _) as [out1 w].
      destruct (IH (S position) n (wrap_int (row + 1)) out1) as (m & Hm & Hr).
      destruct (fetch_rows _ _ _ _ _ _ _ _ _) as [st t]. simpl in *.
      exists (S m). split; [lia|]. rewrite Hr. simpl. f_equal. lia.
Qed.

Lemma fetch_rows_no_create types names n_max metadata pending :
  forall position n row out,
    creations
      (fetch_rows types names n_max metadata pending position n row out).2 = [].
Proof.
  induction pending as [|vals rest IH]; intros position n row out;
    cbn [fetch_rows]; [done|].
  destruct (n <=? row); [destruct (n_max <? 0)|]; try done.
  - pose proof (fill_row_events types names (length metadata) row
                  (resize_dataframe out (wrap_int (n * 2))) vals) as Hw.
    destruct (fill_row _ _ _ _ _ _) as [out1 w].
    specialize (IH (S position) (wrap_int (n * 2)) (wrap_int (row + 1)) out1).
    destruct (fetch_rows _ _ _ _ _ _ _ _ _) as [st t]. simpl in *.
    by rewrite creations_app, (creations_warnings w Hw), IH.
  - pose proof (fill_row_events types names (length metadata) row out vals)
      as Hw.
    destruct (fill_row _ _ _ _ _ _) as [out1 w].
    specialize (IH (S position) n (wrap_int (row + 1)) out1).
    destruct (fetch_rows _ _ _ _ _ _ _ _ _) as [st t]. simpl in *.
    by rewrite creations_app, (creations_warnings w Hw), IH.
Qed.

(** X8.  For every cursor and every [n_max]: the cursor only moves forward.
    Its metadata is kept, the rows it still has after the fetch are what is
    left of the rows it had after dropping the first [m], for some [m] not
    above their number, and its position has advanced by [m].  The table is
    created once, with capacity 100 for a negative [n_max] and [n_max]
    otherwise. *)
Theorem fetch_cursor_forward_only r n_max :
  exists m : nat,
    (m <= length (nanodbc.pending r))%nat
    /\ (result_to_dataframe r n_max).1.2
       = nanodbc.mk_result (nanodbc.metadata r) (drop m (nanodbc.pending r))
                           (nanodbc.position r + m)
    /\ creations (result_to_dataframe r n_max).2
       = [if n_max <? 0 then 100 else n_max].
Proof.
  unfold result_to_dataframe.
  pose proof (result_column_types_warnings r) as Hw0.
  destruct (result_column_types r) as [types t0]. simpl in Hw0.
  set (n := if n_max <? 0 then 100 else n_max).
  destruct (fetch_rows_cursor types (column_names r) n_max
              (nanodbc.metadata r) (nanodbc.pending r) (nanodbc.position r) n 0
              (create_dataframe types (column_names r) n)) as (m & Hm & Hr).
  pose proof (fetch_rows_no_create types (column_names r) n_max
                (nanodbc.metadata r) (nanodbc.pending r) (nanodbc.position r)
                n 0 (create_dataframe types (column_names r) n)) as Hcr.
  destruct (fetch_rows _ _ _ _ _ _ _ _ _) as [st t1]. simpl in Hr, Hcr.
  exists m. split; [done|].
  destruct (fs_row st <? fs_n st); cbn [fst snd].
  all: split; [done|].
  all: rewrite !creations_app, (creations_warnings t0 Hw0), Hcr; done.
Qed.

(** X9.  A fetch with a cap [n_max = k >= 0], on any cursor: the table
    holds the first [k] rows of the cursor, or all of them when it has fewer;
    the cursor is advanced over [k + 1] rows, or over all of them; the table
    is created with capacity [k] and resized once, to the number of rows,
    exactly when the cursor had fewer than [k]. *)
Theorem fetch_bounded_any_cursor r k :
  0 <= k < 2 ^ 31 ->
  let rows := take (Z.to_nat k) (nanodbc.pending r) in
  exists out t,
    result_to_dataframe r k
    = (out,
       nanodbc.mk_result (nanodbc.metadata r)
         (drop (S (Z.to_nat k)) (nanodbc.pending r))
         (nanodbc.position r
          + Nat.min (S (Z.to_nat k)) (length (nanodbc.pending r))),
       t)
    /\ holds_rows (result_column_types r).1 (column_names r) rows out
    /\ creations t = [k]
    /\ resizes t
       = if Z.of_nat (length rows) <? k then [Z.of_nat (length rows)] else [].
Proof.
  intros Hk rows. unfold result_to_dataframe.
  pose proof (result_column_types_length r) as Hlen.
  pose proof (result_column_types_not_logical r) as Hlgl.
  pose proof (result_column_types_warnings r) as Hw0.
  destruct (result_column_types r) as [types t0]. simpl in Hlen, Hlgl, Hw0.
  destruct (Z.ltb_spec k 0) as [?|_]; [lia|].
  destruct (fetch_rows_bounded types (column_names r) k
              (nanodbc.metadata r) Hk Hlgl Hlen (nanodbc.pending r) []
              (nanodbc.position r)
              (create_dataframe types (column_names r) k))
    as (st & t1 & Hrun & Hn & Hr & Hi & Hres & Ht & Hcr).
  { apply create_dataframe_inv. lia. }
  { simpl. lia. }
  change (Z.of_nat (length (@nil nanodbc.row))) with 0 in Hrun.
  rewrite Hrun.
  cbn [length app] in Hr, Hi, Hres. rewrite Nat.sub_0_r in Hr, Hi, Hres.
  rewrite Nat.add_0_l in Hr. fold rows in Hi.
  assert (length rows
          = Nat.min (Z.to_nat k) (length (nanodbc.pending r))) as Hrows
    by (unfold rows; by rewrite length_take).
  rewrite <- Hrows in Hr. rewrite Hres, Hr, Hn.
  destruct (Z.ltb_spec (Z.of_nat (length rows)) k) as [Hlt|Hge].
  - eexists _, _. split; [reflexivity|].
    assert (table_inv types (column_names r) rows (Z.of_nat (length rows))
              (resize_dataframe (fs_out st) (Z.of_nat (length rows))))
      as Hshrunk by (eapply resize_dataframe_shrink; [exact Hi|lia]).
    split; [by apply add_classes_holds|].
    rewrite !creations_app, !resizes_app.
    rewrite (creations_warnings t0 Hw0), (resizes_warnings t0 Hw0), Hcr, Ht.
    done.
  - assert (k = Z.of_nat (length rows)) as Hkk by lia.
    eexists _, _. split; [reflexivity|].
    split; [apply add_classes_holds; rewrite <- Hkk; exact Hi|].
    rewrite !creations_app, !resizes_app.
    rewrite (creations_warnings t0 Hw0), (resizes_warnings t0 Hw0), Hcr, Ht.
    done.
Qed.

(** X10.  A fetch on a handle whose cursor is exhausted, with any [n_max]:
    it returns a table with no row that has the columns of the result, with
    their names, types and classes; runs no statement; and leaves the handle
    as it was. *)
Theorem fetch_exhausted_cursor o r n_max :
  r_ o = Some r ->
  nanodbc.pending r = [] ->
  exists out t,
    fetch n_max o = (Ok out, o, t)
    /\ holds_rows (result_column_types r).1 (column_names r) [] out
    /\ executed_statements t = [].
Proof.
  intros Ho Hpending. rewrite fetch_spec.
  pose proof (executed_statements_materializer _
                (result_to_dataframe_events (cursor_of o) n_max)) as Hnone.
  unfold cursor_of in *. rewrite Ho in *. cbn [app].
  revert Hnone. unfold result_to_dataframe. rewrite Hpending.
  destruct (result_column_types r) as [types t0]. cbn [fetch_rows fst snd].
  cbn [fs_row fs_n fs_out fs_r].
  set (n := if n_max <? 0 then 100 else n_max).
  assert (0 <= n) as Hn by (unfold n; destruct (Z.ltb_spec n_max 0); lia).
  pose proof (create_dataframe_inv types (column_names r) n Hn) as Hinv.
  assert (set_r_ (Some (nanodbc.mk_result (nanodbc.metadata r) []
                          (nanodbc.position r))) o = o) as Hsame.
  { destruct o, r. simpl in *. subst. done. }
  destruct (Z.ltb_spec 0 n) as [Hpos|Hzero]; cbn [fst snd]; intros Hnone.
  - eexists _, _. rewrite Hsame. split; [reflexivity|]. split; [|done].
    apply (add_classes_holds types (column_names r) []).
    apply (resize_dataframe_shrink types (column_names r) [] n); [done|].
    simpl. lia.
  - eexists _, _. rewrite Hsame. split; [reflexivity|]. split; [|done].
    apply (add_classes_holds types (column_names r) []).
    assert (n = 0) as Hn0 by lia. rewrite Hn0 in Hinv |- *. exact Hinv.
Qed.

Lemma result_to_dataframe_unbounded r n_max :
  n_max < 0 ->
  Z.of_nat (length (nanodbc.pending r)) <= max_capacity ->
  exists out t,
    result_to_dataframe r n_max
    = (out,
       nanodbc.mk_result (nanodbc.metadata r) []
         (nanodbc.position r + length (nanodbc.pending r)),
       t)
    /\ holds_rows (result_column_types r).1 (column_names r)
                  (nanodbc.pending r) out.
Proof.
  intros Hneg Hmax. unfold result_to_dataframe.
  pose proof (result_column_types_length r) as Hlen.
  pose proof (result_column_types_not_logical r) as Hlgl.
  destruct (result_column_types r) as [types t0]. simpl in Hlen, Hlgl.
  destruct (Z.ltb_spec n_max 0) as [_|?]; [|lia].
  destruct (fetch_rows_unbounded types (column_names r) n_max
              (nanodbc.metadata r) Hneg Hlgl Hlen (nanodbc.pending r) []
              (nanodbc.position r) 100
              (create_dataframe types (column_names r) 100))
    as (st & t1 & k & Hrun & Hr & Hn & Hle & Hc & Hk & Hi & Hres & Ht & Hcr).
  { apply create_dataframe_inv. lia. }
  { simpl. lia. }
  { exists 0%nat. split; [lia|done]. }
  { simpl. exact Hmax. }
  change (Z.of_nat (length (@nil nanodbc.row))) with 0 in Hrun.
  rewrite Hrun. simpl in Hr, Hi. rewrite Hres.
  destruct (Z.ltb_spec (fs_row st) (fs_n st)) as [Hlt|Hge].
  - eexists _, _. split; [reflexivity|].
    apply add_classes_holds. rewrite Hr.
    eapply resize_dataframe_shrink; [exact Hi|lia].
  - eexists _, _. split; [reflexivity|].
    apply add_classes_holds.
    replace (Z.of_nat (length (nanodbc.pending r))) with (fs_n st) by lia.
    done.
Qed.

(** X12.  Reading a result in two steps.  On a handle whose cursor has more
    than [k] rows, a fetch capped at [k] followed by an unbounded fetch
    return the first [k] rows and the rows after row [k]: the row at
    position [k], taken from the cursor when the cap stopped the first
    fetch, is in neither table.  The two fetches run no statement, and the
    cursor is exhausted afterwards. *)
Theorem fetch_capped_then_rest o r k n2 :
  r_ o = Some r ->
  0 <= k < 2 ^ 31 ->
  (Z.to_nat k < length (nanodbc.pending r))%nat ->
  Z.of_nat (length (nanodbc.pending r)) <= max_capacity ->
  n2 < 0 ->
  let first := take (Z.to_nat k) (nanodbc.pending r) in
  let rest := drop (S (Z.to_nat k)) (nanodbc.pending r) in
  exists out1 o1 t1 out2 o2 t2 lost,
    fetch k o = (Ok out1, o1, t1)
    /\ fetch n2 o1 = (Ok out2, o2, t2)
    /\ nanodbc.pending r = first ++ lost :: rest
    /\ holds_rows (result_column_types r).1 (column_names r) first out1
    /\ holds_rows (result_column_types r).1 (column_names r) rest out2
    /\ executed_statements (t1 ++ t2) = []
    /\ nanodbc.pending (cursor_of o2) = [].
Proof.
  intros Ho Hk Hmore Hmax Hneg first rest.
  destruct (result_to_dataframe_bounded r k Hk Hmore)
    as (out1 & t1 & Hrun1 & Hholds1 & _).
  set (r1 := nanodbc.mk_result (nanodbc.metadata r) rest
               (nanodbc.position r + S (Z.to_nat k))) in *.
  destruct (result_to_dataframe_unbounded r1 n2 Hneg)
    as (out2 & t2 & Hrun2 & Hholds2).
  { unfold r1, rest. simpl. rewrite length_drop. lia. }
  destruct (lookup_lt_is_Some_2 (nanodbc.pending r) (Z.to_nat k) Hmore)
    as [lost Hlost].
  pose proof (executed_statements_materializer _
                (result_to_dataframe_events r k)) as Hnone1.
  pose proof (executed_statements_materializer _
                (result_to_dataframe_events r1 n2)) as Hnone2.
  rewrite Hrun1 in Hnone1. rewrite Hrun2 in Hnone2.
  cbn [snd] in Hnone1, Hnone2.
  assert (holds_rows (result_column_types r).1 (column_names r) rest out2)
    as Hholds2' by exact Hholds2.
  assert (fetch k o = (Ok out1, set_r_ (Some r1) o, t1)) as Hfetch1.
  { rewrite fetch_spec. unfold cursor_of. by rewrite Ho, Hrun1. }
  assert (exists r2,
            nanodbc.pending r2 = []
            /\ fetch n2 (set_r_ (Some r1) o)
               = (Ok out2, set_r_ (Some r2) (set_r_ (Some r1) o), t2))
    as (r2 & Hr2 & Hfetch2).
  { eexists. split; [|rewrite fetch_spec; unfold cursor_of;
                      cbn [r_ set_r_]; by rewrite Hrun2].
    done. }
  exists out1, (set_r_ (Some r1) o), t1, out2,
    (set_r_ (Some r2) (set_r_ (Some r1) o)), t2, lost.
  split; [done|]. split; [done|].
  split; [unfold first, rest; by rewrite <- (drop_S _ _ _ Hlost), take_drop|].
  split; [done|]. split; [done|]. split; [|done].
  unfold executed_statements in *. by rewrite omap_app, Hnone1, Hnone2.
Qed.

(** *** The types of a table and of a result *)

Lemma column_types_from_run columns :
  forall types o,
    column_types_from columns types o
    = match first_unsupported columns with
      | None => (Ok (types ++ omap column_type_of columns), o, [])
      | Some name => (Stop ("Unsupported column type " +:+ name), o, [])
      end.
Proof.
  unfold first_unsupported.
  induction columns as [|x columns IH]; intros types o; cbn [column_types_from].
  - simpl. by rewrite app_nil_r.
  - destruct (mapped x) eqn:Hx.
    + destruct (column_type_mapped x Hx) as (t & Ht & Hrun).
      erewrite bind_Ok by apply Hrun. cbn [fst snd app]. rewrite IH.
      cbn [omap list_omap]. rewrite Ht.
      assert (unsupported_type x = None) as ->
        by (unfold unsupported_type, mapped in *; by destruct (R.payload x)).
      destruct (head (omap unsupported_type columns)); [done|].
      by rewrite <- app_assoc.
    + unfold mapped, column_type, unsupported_type in *.
      cbn [omap list_omap]. unfold unsupported_type.
      destruct (R.payload x); done.
Qed.

(** X13.  [column_types] for a table of fewer than [2 ^ 15] columns (the
    range of the [short] counter of its loop): when a column has a native
    type without a case, the call stops with the message that names the type of
    the first such column, whatever the types of the other columns; otherwise
    it returns one type per column, the one of column [j] determined by
    column [j] alone.  In both cases it sends nothing and leaves the object
    as it was. *)
Theorem column_types_of_table df o :
  short_columns df ->
  column_types df o
  = match first_unsupported (R.columns df) with
    | None => (Ok (omap column_type_of (R.columns df)), o, [])
    | Some name => (Stop ("Unsupported column type " +:+ name), o, [])
    end
  /\ (first_unsupported (R.columns df) = None ->
      length (omap column_type_of (R.columns df)) = length (R.columns df)
      /\ forall j x,
           R.columns df !! j = Some x ->
           column_type_of x = omap column_type_of (R.columns df) !! j)
  /\ (forall name,
        first_unsupported (R.columns df) = Some name <->
        exists j x,
          R.columns df !! j = Some x
          /\ R.payload x = R.OTHERSXP name
          /\ forall i y, (i < j)%nat -> R.columns df !! i = Some y ->
                         mapped y = true).
Proof.
  intros Hshort.
  split; [apply column_types_from_run|]. split.
  - unfold first_unsupported. intros Hnone.
    assert (forallb mapped (R.columns df) = true) as Hall.
    { induction (R.columns df) as [|x l IH]; [done|]. simpl in *.
      unfold unsupported_type, mapped in *.
      destruct (R.payload x); try done; by apply IH. }
    split; [by apply omap_column_type_of_length|].
    intros j x Hx. symmetry. by apply omap_column_type_of_lookup.
  - intros name. unfold first_unsupported.
    induction (R.columns df) as [|x l IH]; simpl.
    + split; [done|]. by intros (j & y & Hy & _).
    + destruct (unsupported_type x) as [name'|] eqn:Hx; simpl.
      * split.
        -- intros [= ->]. exists 0%nat, x. split; [done|]. split; [|lia].
           unfold unsupported_type in Hx.
           destruct (R.payload x); try done. by injection Hx as ->.
        -- intros ([|j] & y & Hy & Hp & Hbefore).
           ++ simpl in Hy. injection Hy as ->.
              unfold unsupported_type in Hx. rewrite Hp in Hx. done.
           ++ specialize (Hbefore 0%nat x ltac:(lia) eq_refl).
              unfold unsupported_type, mapped in *.
              destruct (R.payload x); done.
      * rewrite IH. split.
        -- intros (j & y & Hy & Hp & Hbefore). exists (S j), y.
           split; [done|]. split; [done|].
           intros [|i] z Hi Hz.
           ++ simpl in Hz. injection Hz as <-.
              unfold unsupported_type, mapped in *.
              destruct (R.payload x); done.
           ++ apply (Hbefore i); [lia|done].
        -- intros ([|j] & y & Hy & Hp & Hbefore).
           ++ simpl in Hy. injection Hy as ->.
              unfold unsupported_type in Hx. rewrite Hp in Hx. done.
           ++ exists j, y. split; [done|]. split; [done|].
              intros i z Hi Hz. apply (Hbefore (S i)); [lia|done].
Qed.

Lemma result_column_types_type_warnings r :
  (result_column_types r).2 = type_warnings r.
Proof.
  unfold result_column_types, type_warnings. cbn [snd].
  induction (nanodbc.metadata r) as [|[name type] l IH]; [done|].
  cbn [fmap list_fmap concat List.filter fst snd]. fold (@fmap list _).
  destruct type; cbn [result_column_type is_SQL_other snd app]; try exact IH.
  unfold unknown_datatype at 1. cbn [fmap list_fmap fst snd]. by f_equal.
Qed.

(** X14.  [column_types] for a result: one type per column; never the
    logical type; the raw type exactly for the binary type codes; the string
    type for a column whose type code is not among the ones the switch
    names; and a warning for exactly these columns, in column order, each a
    call of [Rcpp::warning] with the format of the source and, as its
    arguments, the type code and the name of the column. *)
Theorem column_types_of_result r :
  length (result_column_types r).1 = nanodbc.columns r
  /\ Forall (fun t => t ≠ logical_t) (result_column_types r).1
  /\ (forall j name code,
        nanodbc.metadata r !! j = Some (name, nanodbc.SQL_other code) ->
        (result_column_types r).1 !! j = Some string_t)
  /\ (forall j name type,
        nanodbc.metadata r !! j = Some (name, type) ->
        (result_column_types r).1 !! j = Some raw_t <-> is_binary type = true)
  /\ (result_column_types r).2 = type_warnings r.
Proof.
  split; [apply result_column_types_length|].
  split; [apply result_column_types_not_logical|].
  split; [|split; [|apply result_column_types_type_warnings]].
  - intros j name code Hj. unfold result_column_types. cbn [fst].
    by rewrite list_lookup_fmap, Hj.
  - intros j name type Hj. unfold result_column_types. cbn [fst].
    rewrite list_lookup_fmap, Hj. simpl. destruct type; simpl; split; done.
Qed.

(** *** The warnings of a fetch *)

Lemma fill_cell_warnings types names row st col :
  (fill_cell types names row st col).2 = st.2 ++ cell_warnings types names col.
Proof.
  destruct st as [[out vals] w].
  unfold fill_cell, cell_warnings, unknown_r_type.
  destruct (types !!! col); cbn [snd];
    try destruct (nanodbc.get_int_or _ _ _);
    try destruct (nanodbc.get_double_or _ _ _);
    try destruct (time_cell _ _); try destruct (string_cell _ _);
    cbn [snd]; by rewrite ?app_nil_r.
Qed.

Lemma foldl_fill_cell_warnings types names row cols :
  forall st,
    (foldl (fill_cell types names row) st cols).2
    = st.2 ++ concat (cell_warnings types names <$> cols).
Proof.
  induction cols as [|col cols IH]; intros st; simpl.
  - by rewrite app_nil_r.
  - by rewrite IH, fill_cell_warnings, <- app_assoc.
Qed.

Lemma fill_row_warnings types names ncols row out vals :
  (fill_row types names ncols row out vals).2
  = concat (cell_warnings types names <$> seq 0 ncols).
Proof.
  unfold fill_row.
  pose proof (foldl_fill_cell_warnings types names row (seq 0 ncols)
                (out, vals, [])) as H.
  by destruct (foldl _ _ _) as [[out' vals'] w].
Qed.

Lemma cell_warnings_row r :
  concat (cell_warnings (result_column_types r).1 (column_names r)
            <$> seq 0 (length (nanodbc.metadata r)))
  = row_warnings r.
Proof.
  unfold result_column_types, column_names, row_warnings. cbn [fst].
  transitivity
    (concat ((fun c : string * nanodbc.datatype =>
                if is_binary c.2 then [unknown_r_type raw_t c.1] else [])
               <$> nanodbc.metadata r)).
  - f_equal. apply list_eq. intros i. rewrite !list_lookup_fmap.
    destruct (decide (i < length (nanodbc.metadata r))%nat) as [Hi|Hi].
    + rewrite lookup_seq_lt by done.
      destruct (lookup_lt_is_Some_2 _ _ Hi) as [c Hc]. rewrite Hc. simpl.
      f_equal. unfold cell_warnings.
      assert (((fun c => (result_column_type c.1 c.2).1)
                 <$> nanodbc.metadata r) !! i
              = Some (result_column_type c.1 c.2).1) as Htype
        by (by rewrite list_lookup_fmap, Hc).
      assert ((nanodbc.metadata r).*1 !! i = Some c.1) as Hname
        by (by rewrite list_lookup_fmap, Hc).
      rewrite (list_lookup_total_correct _ _ _ Htype),
        (list_lookup_total_correct _ _ _ Hname).
      destruct c as [name type]. by destruct type.
    + rewrite lookup_seq_ge by lia. by rewrite lookup_ge_None_2 by lia.
  - induction (nanodbc.metadata r) as [|[name type] l IH]; [done|].
    simpl. destruct (is_binary type); simpl; [f_equal|]; exact IH.
Qed.

Lemma filter_warnings w :
  Forall (fun e => is_warning e = true) w -> List.filter is_warning w = w.
Proof. induction 1 as [|e w He _ IH]; [done|]. simpl. by rewrite He, IH. Qed.

Lemma type_warnings_warnings r :
  Forall (fun e => is_warning e = true) (type_warnings r).
Proof. unfold type_warnings. apply Forall_fmap, Forall_forall. done. Qed.

Lemma row_warnings_warnings r :
  Forall (fun e => is_warning e = true) (row_warnings r).
Proof. unfold row_warnings. apply Forall_fmap, Forall_forall. done. Qed.

Lemma fetch_rows_warnings types names n_max metadata rw :
  rw = concat (cell_warnings types names <$> seq 0 (length metadata)) ->
  List.filter is_warning rw = rw ->
  forall pending position n row out,
    0 <= row ->
    row + Z.of_nat (length pending) < 2 ^ 31 ->
    exists m : nat,
      fs_row (fetch_rows types names n_max metadata pending position n row
                         out).1
      = row + Z.of_nat m
      /\ List.filter is_warning
           (fetch_rows types names n_max metadata pending position n row out).2
         = concat (replicate m rw).
Proof.
  intros Hrw Hfilter.
  induction pending as [|vals rest IH]; intros position n row out Hrow Hmax;
    cbn [fetch_rows].
  - exists 0%nat. simpl. split; [lia|done].
  - cbn [length] in Hmax.
    destruct (n <=? row); [destruct (n_max <? 0)|].
    + pose proof (fill_row_warnings types names (length metadata) row
                    (resize_dataframe out (wrap_int (n * 2))) vals) as Hw.
      destruct (fill_row _ _ _ _ _ _) as [out1 w]. cbn [snd] in Hw.
      rewrite (wrap_int_small (row + 1)) by lia.
      destruct (IH (S position) (wrap_int (n * 2)) (row + 1) out1)
        as (m & Hr & Hf); [lia|lia|].
      destruct (fetch_rows _ _ _ _ _ _ _ _ _) as [st t]. cbn [fst snd] in *.
      exists (S m). split; [lia|].
      cbn [app List.filter is_warning replicate concat].
      by rewrite List.filter_app, Hf, Hw, <- Hrw, Hfilter.
    + exists 0%nat. simpl. split; [lia|done].
    + pose proof (fill_row_warnings types names (length metadata) row out vals)
        as Hw.
      destruct (fill_row _ _ _ _ _ _) as [out1 w]. cbn [snd] in Hw.
      rewrite (wrap_int_small (row + 1)) by lia.
      destruct (IH (S position) n (row + 1) out1)
        as (m & Hr & Hf); [lia|lia|].
      destruct (fetch_rows _ _ _ _ _ _ _ _ _) as [st t]. cbn [fst snd] in *.
      exists (S m). split; [lia|].
      cbn [app List.filter is_warning replicate concat].
      by rewrite List.filter_app, Hf, Hw, <- Hrw, Hfilter.
Qed.

(** X15.  The warnings of a fetch: first one for each column of unknown
    type code, from [column_types], with the type code and the name of the
    column as arguments; then, for every row written into the table, one for
    each binary column, in column order, with the raw type and the name of
    the column as arguments, as the switch of the column loop has no case
    for the raw type.  The rows written are all the
    rows of the cursor for a negative [n_max], and the first [n_max] of them
    at most otherwise; the row that a cap consumes without writing it causes
    no warning. *)
Theorem fetch_warns_for_each_binary_cell r n_max :
  n_max < 2 ^ 31 ->
  Z.of_nat (length (nanodbc.pending r)) <= max_capacity ->
  let rows :=
    if n_max <? 0 then length (nanodbc.pending r)
    else Nat.min (Z.to_nat n_max) (length (nanodbc.pending r)) in
  List.filter is_warning (result_to_dataframe r n_max).2
  = type_warnings r ++ concat (replicate rows (row_warnings r)).
Proof.
  intros Hn Hmax rows. unfold result_to_dataframe.
  pose proof (result_column_types_length r) as Hlen.
  pose proof (result_column_types_not_logical r) as Hlgl.
  pose proof (result_column_types_type_warnings r) as Ht0.
  pose proof (cell_warnings_row r) as Hrw.
  destruct (result_column_types r) as [types t0].
  cbn [fst snd] in Hlen, Hlgl, Ht0, Hrw. subst t0.
  set (n := if n_max <? 0 then 100 else n_max).
  destruct (fetch_rows_warnings types (column_names r) n_max
              (nanodbc.metadata r) (row_warnings r) (eq_sym Hrw)
              (filter_warnings _ (row_warnings_warnings r))
              (nanodbc.pending r) (nanodbc.position r) n 0
              (create_dataframe types (column_names r) n))
    as (m & Hm & Hf); [lia|unfold max_capacity in Hmax; lia|].
  assert (m = rows) as ->.
  { unfold rows, n in *. destruct (Z.ltb_spec n_max 0) as [Hneg|Hpos].
    - destruct (fetch_rows_unbounded types (column_names r) n_max
                  (nanodbc.metadata r) Hneg Hlgl Hlen (nanodbc.pending r) []
                  (nanodbc.position r) 100
                  (create_dataframe types (column_names r) 100))
        as (st & t1 & k & Hrun & Hr & _).
      { apply create_dataframe_inv. lia. }
      { simpl. lia. }
      { exists 0%nat. split; [lia|done]. }
      { simpl. exact Hmax. }
      change (Z.of_nat (length (@nil nanodbc.row))) with 0 in Hrun.
      rewrite Hrun in Hm. simpl in Hm, Hr. lia.
    - destruct (fetch_rows_bounded types (column_names r) n_max
                  (nanodbc.metadata r) (conj Hpos Hn) Hlgl Hlen
                  (nanodbc.pending r) [] (nanodbc.position r)
                  (create_dataframe types (column_names r) n_max))
        as (st & t1 & Hrun & _ & Hr & _).
      { apply create_dataframe_inv. lia. }
      { simpl. lia. }
      change (Z.of_nat (length (@nil nanodbc.row))) with 0 in Hrun.
      rewrite Hrun in Hm. cbn [fst length] in Hm, Hr.
      rewrite Nat.sub_0_r in Hr. lia. }
  destruct (fetch_rows _ _ _ _ _ _ _ _ _) as [st t1]. cbn [fst snd] in *.
  assert (List.filter is_warning (type_warnings r) = type_warnings r) as Hft
    by apply filter_warnings, type_warnings_warnings.
  destruct (fs_row st <? fs_n st); cbn [fst snd].
  all: rewrite !List.filter_app, Hft, Hf; cbn [List.filter is_warning app].
  all: by rewrite ?app_nil_r.
Qed.

(** *** The temporal codec *)

Lemma as_double_as_timestamp q :
  as_double (as_timestamp (R.Fin q))
  = R.add (mktime00 (without_dst (localtime (to_time_t (R.Fin q)))))
          (R.Fin (q - inject_Z (to_time_t (R.Fin q)))).
Proof.
  unfold as_double, as_timestamp, without_dst. cbn [R.modf to_time_t].
  cbn [nanodbc.year nanodbc.month nanodbc.day nanodbc.hour nanodbc.min
       nanodbc.sec nanodbc.fract].
  cbn [inject_Z Qnum Qden]. by rewrite !Z.quot_1_r, !Z.add_simpl_r.
Qed.

(** X16.  The round trip of a DateTime value.  For a finite [d] that
    [as_timestamp] converts, when [mktime00] gives back the time [localtime]
    was given (as it does in a process whose time zone is UTC),
    [as_double (as_timestamp d)] is [d]: the integral part through the
    calendar fields, the fraction through [fract]. *)
Theorem codec_round_trip_datetime q :
  in_time_domain (R.Fin q) = true ->
  mktime00 (without_dst (localtime (to_time_t (R.Fin q))))
  = R.Fin (inject_Z (to_time_t (R.Fin q))) ->
  exists q', as_double (as_timestamp (R.Fin q)) = R.Fin q' /\ q' == q.
Proof.
  intros _ Hinverse. rewrite as_double_as_timestamp, Hinverse.
  eexists. split; [reflexivity|]. ring.
Qed.

(** X17.  The round trip of a Date value.  For a finite day count [d] whose
    product with 86400 is exact and is a value [as_timestamp] converts, when
    [mktime00] gives back the time [localtime] was given, the day count read
    back, [as_double (as_timestamp (d * 86400)) / 86400], is [d]. *)
Theorem codec_round_trip_date q :
  date_ok (R.Fin q) = true ->
  mktime00 (without_dst
              (localtime (to_time_t (R.mul_const (R.Fin q) seconds_in_day_))))
  = R.Fin (inject_Z (to_time_t (R.mul_const (R.Fin q) seconds_in_day_))) ->
  exists q',
    R.div_const
      (as_double (as_timestamp (R.mul_const (R.Fin q) seconds_in_day_)))
      (24 * 60 * 60)
    = R.Fin q'
    /\ q' == q.
Proof.
  intros _ Hinverse. cbn [R.mul_const] in *.
  rewrite as_double_as_timestamp, Hinverse.
  eexists. split; [reflexivity|].
  unfold seconds_in_day_. change (24 * 60 * 60) with 86400. field.
Qed.

End odbc_result.

(** C2.  [as_double] is not the inverse of [as_timestamp] in a process whose
    time zone is off UTC: [as_timestamp] takes the calendar fields from
    [localtime], the calendar time of the zone, and [as_double] gives them to
    [Rcpp::mktime00], which reads them as UTC.  Five hours behind UTC, the
    instant 0 comes back as -18000 and the day count 18262 as 18262 less
    five hours; with the zone UTC both come back as they were. *)
Theorem as_double_shifts_off_UTC :
  in_time_domain UTC.localtime_fails (R.Fin 0) = true
  /\ as_double UTC.mktime00
       (as_timestamp UTC_minus_5.localtime UTC.time_t_of_non_finite (R.Fin 0))
     = R.Fin (-18000)
  /\ as_double UTC.mktime00
       (as_timestamp UTC.localtime UTC.time_t_of_non_finite (R.Fin 0))
     = R.Fin 0
  /\ date_ok UTC.localtime_fails (R.Fin 18262) = true
  /\ R.div_const
       (as_double UTC.mktime00
          (as_timestamp UTC_minus_5.localtime UTC.time_t_of_non_finite
             (R.mul_const (R.Fin 18262) seconds_in_day_)))
       (24 * 60 * 60)
     = R.Fin (1577818800 # 86400)
  /\ ~ (1577818800 # 86400 == 18262)
  /\ R.div_const
       (as_double UTC.mktime00
          (as_timestamp UTC.localtime UTC.time_t_of_non_finite
             (R.mul_const (R.Fin 18262) seconds_in_day_)))
       (24 * 60 * 60)
     = R.Fin (1577836800 # 86400)
  /\ 1577836800 # 86400 == 18262.
Proof. repeat split; try reflexivity; discriminate. Qed.

(** C1, as the claim states it, fails: a table with a logical column and
    no row is inserted without an exception, and its empty transaction is
    committed. *)
Lemma insert_dataframe_unsupported_no_rows :
  forallb supported (R.columns Examples.logical_0) = false
  /\ insert_dataframe UTC.localtime UTC.time_t_of_non_finite
       Examples.logical_0 Examples.handle
     = (Ok tt, Examples.handle, [EvTransaction; EvCommit]).
Proof. split; reflexivity. Qed.

(* ===================================================================== *)
(** ** The theorems at concrete inputs *)
(* ===================================================================== *)

Lemma insert_dataframe_unsupported_witness :
  forallb supported (R.columns Examples.logical_1) = false
  /\ (0 < R.nrows Examples.logical_1)%nat
  /\ exists msg o' t,
       insert_dataframe UTC.localtime UTC.time_t_of_non_finite
         Examples.logical_1 Examples.handle = (Stop msg, o', t)
       /\ (EvCommit ∉ t)
       /\ executed_batches t = [].
Proof.
  split; [reflexivity|]. split; [simpl; lia|].
  destruct (insert_dataframe_unsupported UTC.localtime
              UTC.time_t_of_non_finite Examples.logical_1 Examples.handle)
    as (msg & o' & t & Hrun & Hcommit & Hexec & _).
  - reflexivity.
  - left. simpl. lia.
  - exists msg, o', t. auto.
Defined.



Lemma mixed_3_well_formed : R.well_formed Examples.mixed_3.
Proof. repeat constructor. Qed.

Lemma bind_null_representation_witness :
  R.well_formed Examples.mixed_3
  /\ forallb supported (R.columns Examples.mixed_3) = true
  /\ short_columns Examples.mixed_3
  /\ forallb (temporal_ok UTC.localtime_fails) (R.columns Examples.mixed_3)
     = true
  /\ (0 < R.nrows Examples.mixed_3)%nat
  /\ exists o' binds e,
       insert_batch UTC.localtime UTC.time_t_of_non_finite
         (omap column_type_of (R.columns Examples.mixed_3)) Examples.mixed_3
         5 3 0 Examples.handle
       = (Ok tt, o',
          EvStatement (sql_ Examples.handle) :: binds ++ [EvExecuteBatch 3])
       /\ length binds = 5%nat
       /\ binds !! 1%nat = Some e
       /\ bind_content UTC.localtime UTC.time_t_of_non_finite double_t
            (R.mkRObject (R.REALSXP [R.Fin 1; R.NA_REAL; R.NaN]) []) 0 3 e.
Proof.
  split; [exact mixed_3_well_formed|]. split; [reflexivity|].
  split; [reflexivity|]. split; [reflexivity|]. split; [simpl; lia|].
  destruct (bind_null_representation UTC.localtime UTC.time_t_of_non_finite
              UTC.localtime_fails Examples.mixed_3 Examples.handle 0)
    as (o' & binds & Hrun & Hlen & Hbinds & _).
  - exact mixed_3_well_formed.
  - reflexivity.
  - reflexivity.
  - reflexivity.
  - simpl. lia.
  - destruct (Hbinds 1%nat double_t eq_refl)
      as (e & x & He & Hx & _ & Hcontent & _).
    injection Hx as <-.
    exists o', binds, e. auto.
Defined.

Lemma fetch_unbounded_grows_witness :
  -1 < 0
  /\ Z.of_nat (length (nanodbc.pending (Examples.result_of 250)))
     <= max_capacity
  /\ exists out t,
       result_to_dataframe UTC.mktime00 (Examples.result_of 250) (-1)
       = (out, nanodbc.mk_result (nanodbc.metadata (Examples.result_of 250))
                 [] 250, t)
       /\ Rf.row_names out = 250
       /\ creations t = [100].
Proof.
  split; [lia|]. split; [vm_compute; discriminate|].
  destruct (fetch_unbounded_grows UTC.mktime00 (Examples.result_of 250) (-1))
    as (out & t & k & Hrun & _ & Hrows & Hcreate & _).
  - lia.
  - vm_compute. discriminate.
  - exists out, t. auto.
Defined.

Lemma fetch_bounded_first_rows_witness :
  0 <= 2 < 2 ^ 31
  /\ (Z.to_nat 2 < length (nanodbc.pending (Examples.result_of 5)))%nat
  /\ exists out r' t,
       result_to_dataframe UTC.mktime00 (Examples.result_of 5) 2 = (out, r', t)
       /\ Rf.row_names out = 2
       /\ resizes t = [].
Proof.
  split; [lia|]. split; [simpl; lia|].
  destruct (fetch_bounded_first_rows UTC.mktime00 (Examples.result_of 5) 2)
    as (out & r' & t & Hrun & _ & Hrows & _ & Hres).
  - lia.
  - simpl. lia.
  - exists out, r', t. auto.
Defined.

Lemma fetch_bounded_consumes_next_row_witness :
  0 <= 2 < 2 ^ 31
  /\ (Z.to_nat 2 < length (nanodbc.pending (Examples.result_of 5)))%nat
  /\ exists out r' t lost,
       result_to_dataframe UTC.mktime00 (Examples.result_of 5) 2 = (out, r', t)
       /\ nanodbc.position r' = 3%nat
       /\ nanodbc.pending (Examples.result_of 5) !! 2%nat = Some lost.
Proof.
  split; [lia|]. split; [simpl; lia|].
  destruct (fetch_bounded_consumes_next_row UTC.mktime00
              (Examples.result_of 5) 2)
    as (out & r' & t & lost & Hrun & Hpos & Hlost & _).
  - lia.
  - simpl. lia.
  - exists out, r', t, lost. auto.
Defined.

Lemma insert_binds_integer_column_witness :
  R.well_formed Examples.mixed_3
  /\ forallb supported (R.columns Examples.mixed_3) = true
  /\ short_columns Examples.mixed_3
  /\ forallb (temporal_ok UTC.localtime_fails) (R.columns Examples.mixed_3)
     = true
  /\ R.columns Examples.mixed_3 !! 0%nat
     = Some (R.mkRObject (R.INTSXP [1; R.NA_INTEGER; 3]) [])
  /\ gather (integers_of 0)
       (insert_dataframe UTC.localtime UTC.time_t_of_non_finite
          Examples.mixed_3 Examples.handle).2
     = [1; R.NA_INTEGER; 3].
Proof.
  split; [exact mixed_3_well_formed|]. split; [reflexivity|].
  split; [reflexivity|]. split; [reflexivity|]. split; [reflexivity|].
  apply (insert_binds_integer_column UTC.localtime UTC.time_t_of_non_finite
           UTC.localtime_fails Examples.mixed_3 Examples.handle 0
           (R.mkRObject (R.INTSXP [1; R.NA_INTEGER; 3]) [])).
  - exact mixed_3_well_formed.
  - reflexivity.
  - reflexivity.
  - reflexivity.
  - reflexivity.
  - reflexivity.
Defined.

Lemma insert_binds_double_column_witness :
  R.well_formed Examples.mixed_3
  /\ forallb supported (R.columns Examples.mixed_3) = true
  /\ short_columns Examples.mixed_3
  /\ forallb (temporal_ok UTC.localtime_fails) (R.columns Examples.mixed_3)
     = true
  /\ R.columns Examples.mixed_3 !! 1%nat
     = Some (R.mkRObject (R.REALSXP [R.Fin 1; R.NA_REAL; R.NaN]) [])
  /\ gather (doubles_of 1)
       (insert_dataframe UTC.localtime UTC.time_t_of_non_finite
          Examples.mixed_3 Examples.handle).2
     = [R.Fin 1; R.NA_REAL; R.NaN]
  /\ gather (nulls_of 1)
       (insert_dataframe UTC.localtime UTC.time_t_of_non_finite
          Examples.mixed_3 Examples.handle).2
     = [false; true; false].
Proof.
  split; [exact mixed_3_well_formed|]. split; [reflexivity|].
  split; [reflexivity|]. split; [reflexivity|]. split; [reflexivity|].
  apply (insert_binds_double_column UTC.localtime UTC.time_t_of_non_finite
           UTC.localtime_fails Examples.mixed_3 Examples.handle 1
           (R.mkRObject (R.REALSXP [R.Fin 1; R.NA_REAL; R.NaN]) [])).
  - exact mixed_3_well_formed.
  - reflexivity.
  - reflexivity.
  - reflexivity.
  - reflexivity.
  - reflexivity.
  - reflexivity.
  - reflexivity.
Defined.

Lemma insert_binds_string_column_witness :
  R.well_formed Examples.mixed_3
  /\ forallb supported (R.columns Examples.mixed_3) = true
  /\ short_columns Examples.mixed_3
  /\ forallb (temporal_ok UTC.localtime_fails) (R.columns Examples.mixed_3)
     = true
  /\ R.columns Examples.mixed_3 !! 2%nat
     = Some (R.mkRObject
               (R.STRSXP [R.mkChar "a"; R.NA_STRING; R.mkChar "c"]) [])
  /\ gather (strings_of 2)
       (insert_dataframe UTC.localtime UTC.time_t_of_non_finite
          Examples.mixed_3 Examples.handle).2
     = ["a"; "NA"; "c"]
  /\ gather (nulls_of 2)
       (insert_dataframe UTC.localtime UTC.time_t_of_non_finite
          Examples.mixed_3 Examples.handle).2
     = [false; true; false].
Proof.
  split; [exact mixed_3_well_formed|]. split; [reflexivity|].
  split; [reflexivity|]. split; [reflexivity|]. split; [reflexivity|].
  apply (insert_binds_string_column UTC.localtime UTC.time_t_of_non_finite
           UTC.localtime_fails Examples.mixed_3 Examples.handle 2
           (R.mkRObject
              (R.STRSXP [R.mkChar "a"; R.NA_STRING; R.mkChar "c"]) [])
           [R.mkChar "a"; R.NA_STRING; R.mkChar "c"]).
  - exact mixed_3_well_formed.
  - reflexivity.
  - reflexivity.
  - reflexivity.
  - reflexivity.
  - reflexivity.
Defined.

Lemma insert_binds_date_column_witness :
  R.well_formed Examples.mixed_3
  /\ forallb supported (R.columns Examples.mixed_3) = true
  /\ short_columns Examples.mixed_3
  /\ forallb (temporal_ok UTC.localtime_fails) (R.columns Examples.mixed_3)
     = true
  /\ R.columns Examples.mixed_3 !! 3%nat
     = Some (R.mkRObject (R.REALSXP [R.Fin 18262; R.NA_REAL; R.Fin 0])
                         ["Date"])
  /\ gather (timestamps_of 3)
       (insert_dataframe UTC.localtime UTC.time_t_of_non_finite
          Examples.mixed_3 Examples.handle).2
     = (fun d => time_slot UTC.localtime UTC.time_t_of_non_finite
                   (R.mul_const d seconds_in_day_))
         <$> [R.Fin 18262; R.NA_REAL; R.Fin 0]
  /\ gather (nulls_of 3)
       (insert_dataframe UTC.localtime UTC.time_t_of_non_finite
          Examples.mixed_3 Examples.handle).2
     = [false; true; false].
Proof.
  split; [exact mixed_3_well_formed|]. split; [reflexivity|].
  split; [reflexivity|]. split; [reflexivity|]. split; [reflexivity|].
  apply (insert_binds_date_column UTC.localtime UTC.time_t_of_non_finite
           UTC.localtime_fails Examples.mixed_3 Examples.handle 3
           (R.mkRObject (R.REALSXP [R.Fin 18262; R.NA_REAL; R.Fin 0])
                        ["Date"])
           [R.Fin 18262; R.NA_REAL; R.Fin 0]).
  - exact mixed_3_well_formed.
  - reflexivity.
  - reflexivity.
  - reflexivity.
  - reflexivity.
  - reflexivity.
  - reflexivity.
Defined.

Lemma insert_binds_datetime_column_witness :
  R.well_formed Examples.mixed_3
  /\ forallb supported (R.columns Examples.mixed_3) = true
  /\ short_columns Examples.mixed_3
  /\ forallb (temporal_ok UTC.localtime_fails) (R.columns Examples.mixed_3)
     = true
  /\ R.columns Examples.mixed_3 !! 4%nat
     = Some (R.mkRObject
               (R.REALSXP [R.Fin 1577836800; R.NA_REAL; R.Fin (1 # 2)])
               ["POSIXct"; "POSIXt"])
  /\ gather (timestamps_of 4)
       (insert_dataframe UTC.localtime UTC.time_t_of_non_finite
          Examples.mixed_3 Examples.handle).2
     = time_slot UTC.localtime UTC.time_t_of_non_finite
         <$> [R.Fin 1577836800; R.NA_REAL; R.Fin (1 # 2)]
  /\ gather (nulls_of 4)
       (insert_dataframe UTC.localtime UTC.time_t_of_non_finite
          Examples.mixed_3 Examples.handle).2
     = [false; true; false].
Proof.
  split; [exact mixed_3_well_formed|]. split; [reflexivity|].
  split; [reflexivity|]. split; [reflexivity|]. split; [reflexivity|].
  apply (insert_binds_datetime_column UTC.localtime UTC.time_t_of_non_finite
           UTC.localtime_fails Examples.mixed_3 Examples.handle 4
           (R.mkRObject
              (R.REALSXP [R.Fin 1577836800; R.NA_REAL; R.Fin (1 # 2)])
              ["POSIXct"; "POSIXt"])
           [R.Fin 1577836800; R.NA_REAL; R.Fin (1 # 2)]).
  - exact mixed_3_well_formed.
  - reflexivity.
  - reflexivity.
  - reflexivity.
  - reflexivity.
  - reflexivity.
  - reflexivity.
  - reflexivity.
Defined.

Lemma fetch_bounded_any_cursor_witness :
  0 <= 5 < 2 ^ 31
  /\ exists out t,
       result_to_dataframe UTC.mktime00 (Examples.result_of 2) 5
       = (out,
          nanodbc.mk_result (nanodbc.metadata (Examples.result_of 2)) [] 2,
          t)
       /\ creations t = [5]
       /\ resizes t = [2].
Proof.
  split; [lia|].
  destruct (fetch_bounded_any_cursor UTC.mktime00 (Examples.result_of 2) 5)
    as (out & t & Hrun & _ & Hcreate & Hres).
  - lia.
  - exists out, t. split; [exact Hrun|]. split; [exact Hcreate|exact Hres].
Defined.

Lemma fetch_exhausted_cursor_witness :
  r_ (set_r_ (Some (Examples.result_of 0)) Examples.handle)
  = Some (Examples.result_of 0)
  /\ nanodbc.pending (Examples.result_of 0) = []
  /\ exists out t,
       fetch UTC.mktime00 7
             (set_r_ (Some (Examples.result_of 0)) Examples.handle)
       = (Ok out, set_r_ (Some (Examples.result_of 0)) Examples.handle, t)
       /\ executed_statements t = [].
Proof.
  split; [reflexivity|]. split; [reflexivity|].
  destruct (fetch_exhausted_cursor UTC.mktime00
              (set_r_ (Some (Examples.result_of 0)) Examples.handle)
              (Examples.result_of 0) 7)
    as (out & t & Hrun & _ & Hnone).
  - reflexivity.
  - reflexivity.
  - exists out, t. split; [exact Hrun|exact Hnone].
Defined.

Lemma fetch_capped_then_rest_witness :
  r_ (set_r_ (Some (Examples.result_of 5)) Examples.handle)
  = Some (Examples.result_of 5)
  /\ 0 <= 2 < 2 ^ 31
  /\ (Z.to_nat 2 < length (nanodbc.pending (Examples.result_of 5)))%nat
  /\ Z.of_nat (length (nanodbc.pending (Examples.result_of 5)))
     <= max_capacity
  /\ -1 < 0
  /\ exists out1 o1 t1 out2 o2 t2,
       fetch UTC.mktime00 2
             (set_r_ (Some (Examples.result_of 5)) Examples.handle)
       = (Ok out1, o1, t1)
       /\ fetch UTC.mktime00 (-1) o1 = (Ok out2, o2, t2)
       /\ executed_statements (t1 ++ t2) = []
       /\ nanodbc.pending (cursor_of o2) = [].
Proof.
  split; [reflexivity|]. split; [lia|]. split; [simpl; lia|].
  split; [vm_compute; discriminate|]. split; [lia|].
  destruct (fetch_capped_then_rest UTC.mktime00
              (set_r_ (Some (Examples.result_of 5)) Examples.handle)
              (Examples.result_of 5) 2 (-1))
    as (out1 & o1 & t1 & out2 & o2 & t2 & lost & H1 & H2 & _ & _ & _ & Hnone
        & Hend).
  - reflexivity.
  - lia.
  - simpl. lia.
  - vm_compute. discriminate.
  - lia.
  - exists out1, o1, t1, out2, o2, t2. auto.
Defined.

Lemma fetch_warns_for_each_binary_cell_witness :
  2 < 2 ^ 31
  /\ Z.of_nat (length (nanodbc.pending (Examples.blobs 3))) <= max_capacity
  /\ List.filter is_warning
       (result_to_dataframe UTC.mktime00 (Examples.blobs 3) 2).2
     = type_warnings (Examples.blobs 3)
       ++ concat (replicate 2 (row_warnings (Examples.blobs 3))).
Proof.
  split; [lia|]. split; [vm_compute; discriminate|].
  apply (fetch_warns_for_each_binary_cell UTC.mktime00 (Examples.blobs 3) 2).
  - lia.
  - vm_compute. discriminate.
Defined.

Lemma string_cell_tests_null_twice_witness :
  [integer_t; string_t] !! 1%nat = Some string_t
  /\ Rf.columns (create_dataframe [integer_t; string_t] ["id"; "note"] 3)
       !! 1%nat
     = Some (create_column string_t 3)
  /\ 0 <= 0 < Z.of_nat (length (Rf.elements (create_column string_t 3)))
  /\ nanodbc.indicator (Examples.late_null 0) = false
  /\ exists v',
       Rf.columns
         (fill_cell UTC.mktime00 [integer_t; string_t] ["id"; "note"] 0
            (create_dataframe [integer_t; string_t] ["id"; "note"] 3,
             nanodbc.mk_row [Examples.cell_of 0; Examples.late_null 0] [],
             [])
            1).1.1 !! 1%nat
       = Some v'
       /\ Rf.elements v' !! 0%nat = Some (Rf.character R.NA_STRING).
Proof.
  split; [reflexivity|]. split; [reflexivity|]. split; [simpl; lia|].
  split; [reflexivity|].
  apply (string_cell_tests_null_twice UTC.mktime00
           [integer_t; string_t] ["id"; "note"] 0
           (create_dataframe [integer_t; string_t] ["id"; "note"] 3)
           (nanodbc.mk_row [Examples.cell_of 0; Examples.late_null 0] [])
           [] 1 (create_column string_t 3)).
  - reflexivity.
  - reflexivity.
  - simpl. lia.
  - reflexivity.
  - reflexivity.
Defined.

Lemma column_types_of_table_witness :
  short_columns Examples.mixed_3
  /\ column_types Examples.mixed_3 Examples.handle
     = (Ok [integer_t; double_t; string_t; date_t; datetime_t],
        Examples.handle, []).
Proof.
  split; [reflexivity|].
  apply (column_types_of_table Examples.mixed_3 Examples.handle).
  reflexivity.
Defined.

Lemma codec_round_trip_datetime_witness :
  in_time_domain UTC.localtime_fails (R.Fin (3155673601 # 2)) = true
  /\ UTC.mktime00
       (without_dst
          (UTC.localtime
             (to_time_t UTC.time_t_of_non_finite (R.Fin (3155673601 # 2)))))
     = R.Fin (inject_Z
                (to_time_t UTC.time_t_of_non_finite
                   (R.Fin (3155673601 # 2))))
  /\ exists q',
       as_double UTC.mktime00
         (as_timestamp UTC.localtime UTC.time_t_of_non_finite
            (R.Fin (3155673601 # 2)))
       = R.Fin q'
       /\ q' == 3155673601 # 2.
Proof.
  split; [reflexivity|]. split; [reflexivity|].
  apply (codec_round_trip_datetime UTC.localtime UTC.mktime00
           UTC.time_t_of_non_finite UTC.localtime_fails (3155673601 # 2)).
  - reflexivity.
  - reflexivity.
Defined.

Lemma codec_round_trip_date_witness :
  date_ok UTC.localtime_fails (R.Fin 18262) = true
  /\ UTC.mktime00
       (without_dst
          (UTC.localtime
             (to_time_t UTC.time_t_of_non_finite
                (R.mul_const (R.Fin 18262) seconds_in_day_))))
     = R.Fin (inject_Z
                (to_time_t UTC.time_t_of_non_finite
                   (R.mul_const (R.Fin 18262) seconds_in_day_)))
  /\ exists q',
       R.div_const
         (as_double UTC.mktime00
            (as_timestamp UTC.localtime UTC.time_t_of_non_finite
               (R.mul_const (R.Fin 18262) seconds_in_day_)))
         (24 * 60 * 60)
       = R.Fin q'
       /\ q' == 18262.
Proof.
  split; [reflexivity|]. split; [reflexivity|].
  apply (codec_round_trip_date UTC.localtime UTC.mktime00
           UTC.time_t_of_non_finite UTC.localtime_fails 18262).
  - reflexivity.
  - reflexivity.
Defined.

(** The same, evaluated: two rows are returned, the third is consumed and
    the next fetch starts at the fourth. *)
Example fetch_2_then_all :
  let o := new_odbc_result (Examples.result_of 5) "SELECT id, note FROM t" in
  let first := fetch UTC.mktime00 2 o in
  let second := fetch UTC.mktime00 (-1) first.1.2 in
  (Rf.elements <$> match first.1.1 with Ok out => Rf.columns out | _ => [] end)
  = [[Rf.integer 0; Rf.integer 1];
     [Rf.character R.NA_STRING; Rf.character (R.mkChar "text")]]
  /\ (Rf.elements <$> match second.1.1 with Ok out => Rf.columns out | _ => [] end)
     = [[Rf.integer 3; Rf.integer 4];
        [Rf.character R.NA_STRING; Rf.character (R.mkChar "text")]]
  /\ first.2 = [EvExecute "SELECT id, note FROM t"; EvCreate 2]
  /\ second.2 = [EvCreate 100; EvResize 2].
Proof. vm_compute. auto. Qed.

Example localtime_2020 :
  UTC.localtime 1577836800 = mk_tm 0 0 0 1 0 120 0.
Proof. reflexivity. Qed.

(** The warnings of a fetch capped at two rows from a result with a column
    of unknown type code and a binary column. *)
Example warnings_of_blobs :
  List.filter is_warning
    (result_to_dataframe UTC.mktime00 (Examples.blobs 3) 2).2
  = [EvWarning "Unknown field type (%s) in column %s"
               [arg_datatype (nanodbc.SQL_other (-151)); arg_string "geo"];
     EvWarning "Unknown field type (%s) in column %s"
               [arg_r_type raw_t; arg_string "blob"];
     EvWarning "Unknown field type (%s) in column %s"
               [arg_r_type raw_t; arg_string "blob"]].
Proof. reflexivity. Qed.
